(** * uBlock asset engine ([src/js/assets.js]): shallow embedding and properties

    The development follows the layout of the source file: list-header
    metadata, the text fetcher, the filter-list assembler, the two
    registries, the [get]/[put] orchestrator, the remote refresher and the
    update scheduler.

    Modelling conventions.
    - A JavaScript string is a [string] whose characters are code units in
      the range 0..255; the two line separators U+2028/U+2029 and the
      Unicode spaces above U+00FF are therefore outside the model.
    - A JavaScript number is a rational [Q]; timestamps are integers
      injected into [Q].  [NaN] only arises from arithmetic on [undefined]
      and is written [None] where the source can produce it.  [parseInt]
      is exact (the source rounds above 2^53).
    - A JavaScript object used as a bag of properties is a
      [gmap string Val]; a missing key reads as [VUndefined].
    - Asynchronous functions are run to completion in program order: the
      state a function leaves is the state after all the promises it
      started have settled, with no other task interleaved. *)

From Stdlib Require Import ZArith QArith Qround Qminmax Ascii String List Sorted Lia Lqa
  DecimalString.
From stdpp Require Import base gmap strings list.

Open Scope Z_scope.
Open Scope string_scope.

(** ** JavaScript values *)

Inductive Val :=
| VUndefined
| VNull
| VNum (q : Q)
| VStr (s : string)
| VBool (b : bool)
| VArr (l : list string)
| VErr (time : Z) (e : Val)
| VBlob.

Abbreviation Obj := (gmap string Val).

(** [o.k] *)
Definition prop (o : Obj) (k : string) : Val := default VUndefined (o !! k).

(** [o.k = v] *)
Definition setProp (k : string) (v : Val) (o : Obj) : Obj := <[k:=v]> o.

(** [typeof v === 'string'] *)
Definition isString (v : Val) : bool :=
  match v with VStr _ => true | _ => false end.

Definition Qeqb0 (q : Q) : bool := Qeq_bool q 0.
Definition Qltb (a b : Q) : bool := negb (Qle_bool b a).

(** JavaScript truthiness *)
Definition truthy (v : Val) : bool :=
  match v with
  | VUndefined => false
  | VNull => false
  | VNum q => negb (Qeqb0 q)
  | VStr s => negb (String.eqb s "")
  | VBool b => b
  | VArr _ => true
  | VErr _ _ => true
  | VBlob => true
  end.

(** [a || b] *)
Definition orElse (a b : Val) : Val := if truthy a then a else b.

(** [v === w] on the values the source compares (primitives). *)
Definition strictEq (v w : Val) : bool :=
  match v, w with
  | VUndefined, VUndefined => true
  | VNull, VNull => true
  | VNum a, VNum b => Qeq_bool a b
  | VStr a, VStr b => String.eqb a b
  | VBool a, VBool b => Bool.eqb a b
  | _, _ => false
  end.

(** [stringIsNotEmpty] *)
Definition stringIsNotEmpty (v : Val) : bool :=
  match v with VStr s => negb (String.eqb s "") | _ => false end.

(** ** Characters and strings *)

Module Str.

Definition code (c : ascii) : nat := nat_of_ascii c.

Definition isDigit (c : ascii) : bool :=
  (48 <=? code c)%nat && (code c <=? 57)%nat.

(** [\s], also the set removed by [String.prototype.trim] *)
Definition isSpace (c : ascii) : bool :=
  ((9 <=? code c)%nat && (code c <=? 13)%nat)
  || (code c =? 32)%nat || (code c =? 160)%nat.

(** the characters [.] refuses and after which [^] holds in multiline mode *)
Definition isLineTerminator (c : ascii) : bool :=
  (code c =? 10)%nat || (code c =? 13)%nat.

Definition isBlank (c : ascii) : bool := (code c =? 32)%nat.

Definition isLower (c : ascii) : bool :=
  (97 <=? code c)%nat && (code c <=? 122)%nat.

Definition isUpper (c : ascii) : bool :=
  (65 <=? code c)%nat && (code c <=? 90)%nat.

Definition toLower (c : ascii) : ascii :=
  if isUpper c then ascii_of_nat (code c + 32) else c.

Definition toUpper (c : ascii) : ascii :=
  if isLower c then ascii_of_nat (code c - 32) else c.

Fixpoint map (f : ascii -> ascii) (s : string) : string :=
  match s with
  | EmptyString => EmptyString
  | String c t => String (f c) (map f t)
  end.

(** longest prefix of characters satisfying [p], and what follows it *)
Fixpoint span (p : ascii -> bool) (s : string) : string * string :=
  match s with
  | EmptyString => (EmptyString, EmptyString)
  | String c t =>
      if p c then let '(a, b) := span p t in (String c a, b)
      else (EmptyString, s)
  end.

Definition dropWhile (p : ascii -> bool) (s : string) : string := snd (span p s).
Definition takeWhile (p : ascii -> bool) (s : string) : string := fst (span p s).

Fixpoint rev_acc (s acc : string) : string :=
  match s with
  | EmptyString => acc
  | String c t => rev_acc t (String c acc)
  end.

Definition rev (s : string) : string := rev_acc s EmptyString.

(** [s.trim()] *)
Definition trim (s : string) : string :=
  rev (dropWhile isSpace (rev (dropWhile isSpace s))).

(** [s.slice(0, n)] for [0 <= n] *)
Fixpoint take (n : nat) (s : string) : string :=
  match n, s with
  | O, _ => EmptyString
  | _, EmptyString => EmptyString
  | S k, String c t => String c (take k t)
  end.

(** [s.slice(n)] for [0 <= n] *)
Fixpoint drop (n : nat) (s : string) : string :=
  match n, s with
  | O, _ => s
  | _, EmptyString => EmptyString
  | S k, String _ t => drop k t
  end.

(** [s.slice(a, b)] for [0 <= a], [0 <= b] *)
Definition slice (a b : nat) (s : string) : string := take (b - a) (drop a s).

(** [s.startsWith(p)] *)
Fixpoint startsWith (p s : string) : bool :=
  match p, s with
  | EmptyString, _ => true
  | String a p', String b s' => Ascii.eqb a b && startsWith p' s'
  | String _ _, EmptyString => false
  end.

(** [s.endsWith(p)] *)
Definition endsWith (p s : string) : bool := startsWith (rev p) (rev s).

(** [s.indexOf(p)], [None] for [-1] *)
Fixpoint indexOf (p s : string) : option nat :=
  if startsWith p s then Some O
  else match s with
       | EmptyString => None
       | String _ t => option_map S (indexOf p t)
       end.

(** [s.lastIndexOf(p)], [None] for [-1] *)
Fixpoint lastIndexOf (p s : string) : option nat :=
  match s with
  | EmptyString => if startsWith p s then Some O else None
  | String _ t =>
      match lastIndexOf p t with
      | Some i => Some (S i)
      | None => if startsWith p s then Some O else None
      end
  end.

Definition contains (p s : string) : bool :=
  match indexOf p s with Some _ => true | None => false end.

(** decimal rendering of a number inside a template literal *)
Definition ofZ (z : Z) : string := NilEmpty.string_of_int (Z.to_int z).

(** the line feed of the template literals *)
Definition nl : string := String (ascii_of_nat 10) EmptyString.

(** [parseInt(s, 10)] on a run of decimal digits *)
Fixpoint parseDigits (s : string) (acc : Z) : Z :=
  match s with
  | EmptyString => acc
  | String c t => parseDigits t (10 * acc + Z.of_nat (code c - 48))
  end.

End Str.

(** ** List header metadata *)

(** [s.match(/(\d+)\s*([dh])?/i)]: the first run of digits, then optional
    white space, then an optional unit letter in either case.  The result
    is the pair of capture groups. *)
Fixpoint reExpires (s : string) : option (string * option ascii) :=
  match s with
  | EmptyString => None
  | String c t =>
      if Str.isDigit c then
        let '(digits, rest) := Str.span Str.isDigit s in
        let unit :=
          match Str.dropWhile Str.isSpace rest with
          | String u _ =>
              if Ascii.eqb (Str.toLower u) "d" || Ascii.eqb (Str.toLower u) "h"
              then Some u else None
          | EmptyString => None
          end in
        Some (digits, unit)
      else reExpires t
  end.

Definition parseExpires (s : string) : Q :=
  match reExpires s with
  | None => 0%Q
  | Some (digits, unit) =>
      let updateAfter := Str.parseDigits digits 0 in
      match unit with
      | Some "h"%char => (inject_Z (Qceiling (inject_Z updateAfter / 6)) / 4)%Q
      | _ => inject_Z updateAfter
      end
  end.

(** ** The host platform

    What the source takes from its collaborators: the browser ([Date]
    parsing, [URL], [XMLHttpRequest]), the extension API ([vAPI.getURL]),
    the preparser ([sfp.utils.preparser.splitter]) and the constants and
    hidden settings of [µb] (declared in [background.js]). *)

Inductive XhrOutcome :=
| XhrLoad (status : Z) (statusText : string) (response : Val)
          (age : option Z) (date : option Z)
| XhrFail.

Class Host := {
  (** [(new Date(s)).getTime()], [None] for [NaN] *)
  dateParse : string -> option Z;
  (** [vAPI.getURL(path)] *)
  getURL : string -> string;
  (** [new URL(s).pathname], [None] when the constructor throws *)
  urlPathname : string -> option string;
  (** [sfp.utils.preparser.splitter(content, vAPI.webextFlavor.env)] *)
  splitter : string -> list nat;
  (** the outcome of the request sent to a URL: a [load] event with the
      status, the response and the parsed [Age] and [Date] headers, or an
      [error]/[abort] event (a timeout aborts) or an exception of [open] *)
  xhr : string -> XhrOutcome;
  (** [JSON.parse(json)] when it is an object whose values are objects,
      in the order of its keys; [None] when it throws or is no object *)
  jsonParse : string -> option (list (string * Obj));
  (** [Math.floor(Math.random() * n)] at iteration [i] of a shuffle *)
  randomBelow : nat -> nat -> nat;
  (** [i18n$('errorCantConnectTo').replace('{{msg}}', url)] *)
  cantConnectTo : string -> string;
  userFiltersPath : string;
  assetsJsonPath : string;
  updateAssetBypassBrowserCache : bool;
  debugAssetsJson : bool;
  (** [assetCacheRegistryStartTime] *)
  assetCacheRegistryStartTime : Z
}.

(** *** Header lines

    [extractMetadataFromList] builds, for each field, the expression
    [^(?:! *|# +)<field>: *(.+)$] with flags [im], where every [-] of the
    field name stands for [(?: +|-)].  The matcher below enumerates, in
    the order in which the backtracking engine tries them, the ways of
    matching a prefix of the text.  A field name is taken to be made of
    letters, digits and dashes, as are the names the source passes, so
    that none of its characters is syntax of the expression. *)

Inductive Tok :=
| TChar (c : ascii)
| TSep.

(** [field.replace(/\s+/g, '-')] *)
Fixpoint collapseSpaces (inRun : bool) (s : string) : string :=
  match s with
  | EmptyString => EmptyString
  | String c t =>
      if Str.isSpace c
      then (if inRun then collapseSpaces true t
            else String "-" (collapseSpaces true t))
      else String c (collapseSpaces false t)
  end.

Fixpoint fieldTokens (field : string) : list Tok :=
  match field with
  | EmptyString => []
  | String c t =>
      (if Ascii.eqb c "-" then TSep else TChar c) :: fieldTokens t
  end.

(** what may follow a run of one or more blanks at the head of [s],
    longest run first *)
Fixpoint blankRests (s : string) : list string :=
  match s with
  | String c t => if Str.isBlank c then blankRests t ++ [t] else []
  | EmptyString => []
  end.

(** [(?: +|-)] *)
Definition sepRests (s : string) : list string :=
  blankRests s ++
  match s with
  | String c t => if Ascii.eqb c "-" then [t] else []
  | EmptyString => []
  end.

(** [(?:! *|# +)] *)
Definition prefixRests (s : string) : list string :=
  match s with
  | String c t =>
      if Ascii.eqb c "!" then blankRests t ++ [t]
      else if Ascii.eqb c "#" then blankRests t
      else []
  | EmptyString => []
  end.

Fixpoint matchToks (toks : list Tok) (s : string) : list string :=
  match toks with
  | [] => [s]
  | TChar c :: ts =>
      match s with
      | String d t =>
          if Ascii.eqb (Str.toLower c) (Str.toLower d) then matchToks ts t else []
      | EmptyString => []
      end
  | TSep :: ts => flat_map (matchToks ts) (sepRests s)
  end.

(** [: *(.+)$]: the first capture group, when the rest of the line
    matches. *)
Definition matchValue (s : string) : option string :=
  match s with
  | String c t =>
      if Ascii.eqb c ":" then
        let line := Str.takeWhile (fun c => negb (Str.isLineTerminator c)) t in
        match Str.dropWhile Str.isBlank line, line with
        | String a v, _ => Some (String a v)
        | EmptyString, String _ _ => Some " "
        | EmptyString, EmptyString => None
        end
      else None
  | EmptyString => None
  end.

Fixpoint firstSome {A B} (f : A -> option B) (l : list A) : option B :=
  match l with
  | [] => None
  | x :: t => match f x with Some y => Some y | None => firstSome f t end
  end.

Definition matchHeaderAt (toks : list Tok) (s : string) : option string :=
  firstSome matchValue (flat_map (matchToks toks) (prefixRests s)).

(** [re.exec(head)]: the leftmost line start at which the expression
    matches; the result is capture group 1. *)
Fixpoint execHeader (toks : list Tok) (atLineStart : bool) (s : string)
  : option string :=
  match (if atLineStart then matchHeaderAt toks s else None) with
  | Some v => Some v
  | None =>
      match s with
      | EmptyString => None
      | String c t => execHeader toks (Str.isLineTerminator c) t
      end
  end.

(** [/^%.+%$/.test(value)] *)
Definition isTemplate (value : string) : bool :=
  (3 <=? String.length value)%nat
  && Str.startsWith "%" value && Str.endsWith "%" value.

(** [field.toLowerCase().replace(/-[a-z]/g, s => s.charAt(1).toUpperCase())],
    on a field already in lower case *)
Fixpoint camel (dash : bool) (s : string) : string :=
  match s with
  | EmptyString => if dash then "-" else EmptyString
  | String c t =>
      if dash then
        if Str.isLower c then String (Str.toUpper c) (camel false t)
        else String "-" (if Ascii.eqb c "-" then camel true t
                         else String c (camel false t))
      else if Ascii.eqb c "-" then camel true t
      else String c (camel false t)
  end.

Definition fieldKey (field : string) : string :=
  camel false (Str.map Str.toLower field).

(** the value extracted for one field, before the known fields are
    pre-processed *)
Definition rawField (head field : string) : Val :=
  match execHeader (fieldTokens field) true head with
  | Some m =>
      let value := Str.trim m in
      if String.eqb value "" then VUndefined
      else if isTemplate value then VUndefined
      else VStr value
  | None => VUndefined
  end.

Definition asString (v : Val) : string :=
  match v with VStr s => s | _ => "" end.

(** [Math.max(a, b)] *)
Definition mathMax (a b : Q) : Q := Qmax a b.

(** the loop over [fields] *)
Definition rawMetadata (content : string) (fields : list string) : Obj :=
  let head := Str.take 1024 content in
  fold_left (fun (out : Obj) field =>
               let field := collapseSpaces false field in
               setProp (fieldKey field) (rawField head field) out)
            fields (∅ : Obj).

(** [(new Date(s)).getTime() || 0] *)
Definition lastModifiedOf `{Host} (s : string) : Val :=
  orElse (match dateParse s with
          | Some t => VNum (inject_Z t)
          | None => VUndefined
          end)
         (VNum 0).

Definition extractMetadataFromList `{Host} (content : string) (fields : list string)
  : Obj :=
  let out := rawMetadata content fields in
  let out :=
    if truthy (prop out "lastModified")
    then setProp "lastModified"
           (lastModifiedOf (asString (prop out "lastModified"))) out
    else out in
  let out :=
    if truthy (prop out "expires")
    then setProp "expires"
           (VNum (mathMax (parseExpires (asString (prop out "expires"))) (1#2)))
           out
    else out in
  let out :=
    if truthy (prop out "diffExpires")
    then setProp "diffExpires"
           (VNum (mathMax (parseExpires (asString (prop out "diffExpires"))) (1#4)))
           out
    else out in
  out.

(** [isDiffUpdatableAsset]; the test is [/^[^%].*[^%]$/] *)
Definition isDiffUpdatableAsset `{Host} (content : Val) : bool :=
  match content with
  | VStr c =>
      match prop (extractMetadataFromList c ["Diff-Path"]) "diffPath" with
      | VStr p =>
          (2 <=? String.length p)%nat
          && negb (Str.startsWith "%" p) && negb (Str.endsWith "%" p)
      | _ => false
      end
  | _ => false
  end.

(** ** Fetcher *)

(** [reIsExternalPath = /^(?:[a-z-]+):\/\//] *)
Definition isExternalPath (s : string) : bool :=
  let '(scheme, rest) :=
    Str.span (fun c => Str.isLower c || Ascii.eqb c "-") s in
  negb (String.eqb scheme "") && Str.startsWith "://" rest.

(** [reIsUserAsset = /^user-/] *)
Definition isUserAsset (s : string) : bool := Str.startsWith "user-" s.

Definition asNum (v : Val) : Q :=
  match v with VNum q => q | _ => 0%Q end.

Definition resourceTimeFromXhr `{Host} (response : Val) (age date : option Z) : Q :=
  let assetTime :=
    match response with
    | VStr r =>
        asNum (orElse (prop (extractMetadataFromList r ["Last-Modified"])
                            "lastModified")
                      (VNum 0))
    | _ => 0%Q
    end in
  let networkTime :=
    if Qeqb0 assetTime then
      match age, date with
      | Some age, Some time => inject_Z (time - age * 1000)
      | _, _ => 0%Q
      end
    else 0%Q in
  mathMax (mathMax assetTime networkTime) 0.

(** a promise settles by [resolve(details)] or by [reject(details)] *)
Inductive Settled :=
| Resolved (details : Obj)
| Rejected (details : Obj).

(** [fail(details, msg)] of [assets.fetch] *)
Definition fail (details : Obj) (msg : string) : Settled :=
  Rejected (setProp "error" (VStr msg) (setProp "content" (VStr "") details)).

(** [assets.fetch(url)] *)
Definition fetch `{Host} (url : string) : Settled :=
  match xhr url with
  | XhrLoad status statusText response age date =>
      let statusCode := if (status =? 0)%Z then 200 else status in
      let details : Obj :=
        setProp "statusText" (VStr statusText)
          (setProp "statusCode" (VNum (inject_Z statusCode))
             (setProp "url" (VStr url) ∅)) in
      if (statusCode <? 200)%Z || (300 <=? statusCode)%Z
      then fail details
             (url ++ ": " ++ Str.ofZ statusCode ++ " " ++ statusText)
      else Resolved
             (setProp "resourceTime" (VNum (resourceTimeFromXhr response age date))
                (setProp "content" response details))
  | XhrFail => fail (setProp "url" (VStr url) ∅) (cantConnectTo url)
  end.

Definition cacheBypassToken `{Host} (now : Z) : Z :=
  if updateAssetBypassBrowserCache
  then Z.rem (now / 1000) 86413
  else Z.rem (now / 3600000) 13.

(** the URL [assets.fetchText] hands to [assets.fetch] *)
Definition actualUrl `{Host} (remoteServerFriendly : bool) (now : Z) (url : string)
  : string :=
  let isExternal := isExternalPath url in
  let actualUrl := if isExternal then url else getURL url in
  if isExternal && negb remoteServerFriendly then
    let queryValue := "_=" ++ Str.ofZ (cacheBypassToken now) in
    (if Str.contains "?" actualUrl then actualUrl ++ "&" else actualUrl ++ "?")
    ++ queryValue
  else actualUrl.

Definition notATextFile : string := "assets.fetchText(): Not a text file".

(** what [assets.fetchText] does with a settled [assets.fetch] *)
Definition fetchTextSettle (url : string) (settled : Settled) : Obj :=
  let details :=
    match settled with
    | Resolved details =>
        let details :=
          if stringIsNotEmpty (prop details "content") then details
          else setProp "content" (VStr "") details in
        let text := Str.trim (asString (prop details "content")) in
        if Str.startsWith "<" text && Str.endsWith ">" text
        then setProp "error" (VStr notATextFile)
               (setProp "content" (VStr "") details)
        else details
    | Rejected ex => ex
    end in
  setProp "url" (VStr url) details.

(** [assets.fetchText(url)] *)
Definition fetchText `{Host} (remoteServerFriendly : bool) (now : Z) (url : string)
  : Obj :=
  fetchTextSettle url (fetch (actualUrl remoteServerFriendly now url)).

(** ** List assembler *)

(** An element of [allParts]: a string, or the promise returned by
    [assets.fetchText(url)]. *)
Inductive Part :=
| PStr (s : string)
| PFetch (url : string).

(** An element of [await Promise.all(allParts)]. *)
Inductive Result :=
| RStr (s : string)
| RObj (details : Obj).

Record IncludeMatch := mkIncludeMatch {
  index : nat;        (** [match.index] *)
  matchLength : nat;  (** [match[0].length] *)
  path : string       (** [match[1]] *)
}.

(** [!#include +(\S+)[^\n\r]*(?:[\n\r]+|$)] at the head of [s]: capture
    group 1 and the length of the match *)
Definition matchInclude (s : string) : option (string * nat) :=
  if Str.startsWith "!#include" s then
    let '(blanks, r1) := Str.span Str.isBlank (Str.drop 9 s) in
    let '(path, r2) := Str.span (fun c => negb (Str.isSpace c)) r1 in
    let '(rest, r3) := Str.span (fun c => negb (Str.isLineTerminator c)) r2 in
    let ends := Str.takeWhile Str.isLineTerminator r3 in
    if String.eqb blanks "" || String.eqb path "" then None
    else Some (path,
               (9 + String.length blanks + String.length path
                + String.length rest + String.length ends)%nat)
  else None.

(** the successive results of [reInclude.exec(slice)] (flags [gm]), from
    [lastIndex = 0] until [null]; [skip] counts the characters left of the
    match in progress *)
Fixpoint execInclude (pos : nat) (atLineStart : bool) (skip : nat) (s : string)
  : list IncludeMatch :=
  match s with
  | EmptyString => []
  | String c t =>
      match skip with
      | S k => execInclude (S pos) (Str.isLineTerminator c) k t
      | O =>
          match (if atLineStart then matchInclude s else None) with
          | Some (p, len) =>
              mkIncludeMatch pos len p
              :: execInclude (S pos) (Str.isLineTerminator c) (len - 1) t
          | None => execInclude (S pos) (Str.isLineTerminator c) O t
          end
      end
  end.

(** [toParsedURL] *)
Definition toParsedURL `{Host} (url : string) : option string :=
  urlPathname (Str.trim url).

(** whether [rootDirectoryURL] is defined once the directory of the main
    list has been computed *)
Definition rootDirectoryDefined `{Host} (mainlistURL : string) : bool :=
  match toParsedURL (if isExternalPath mainlistURL then mainlistURL
                     else getURL mainlistURL) with
  | Some pathname =>
      match Str.lastIndexOf "/" pathname with Some _ => true | None => false end
  | None => false
  end.

(** [result.url.slice(0, pos + 1) + match[1].trim()], when
    [result.url] has a [/] *)
Definition resolveSubURL (parentURL path : string) : option string :=
  match Str.lastIndexOf "/" parentURL with
  | Some pos => Some (Str.take (pos + 1) parentURL ++ Str.trim path)
  | None => None
  end.

(** the state of the scan of one slice: [lastIndex], [sublistURLs], [out] *)
Record Scan := mkScan {
  lastIndex : nat;
  sublistURLs : gset string;
  out : list Part
}.

(** the body of the [for (;;)] loop, for one match *)
Definition includeStep `{Host} (parentURL slice : string) (sc : Scan)
    (m : IncludeMatch) : Scan :=
  match toParsedURL (path m) with
  | Some _ => sc
  | None =>
      if Str.contains ".." (path m) then sc
      else
        match resolveSubURL parentURL (path m) with
        | None => sc
        | Some subURL =>
            if bool_decide (subURL ∈ sublistURLs sc) then sc
            else
              mkScan (index m + matchLength m)
                     ({[ subURL ]} ∪ sublistURLs sc)
                     (out sc ++
                      [ PStr (Str.slice (lastIndex sc) (index m + matchLength m) slice);
                        PStr ("! >>>>>>>> " ++ subURL ++ Str.nl);
                        PFetch subURL;
                        PStr ("! <<<<<<<< " ++ subURL ++ Str.nl) ])
        end
  end.

(** an active slice *)
Definition scanSlice `{Host} (rootDefined : bool) (parentURL slice : string)
    (seen : gset string) (acc : list Part) : gset string * list Part :=
  let matches := if rootDefined then execInclude 0 true 0 slice else [] in
  let sc := fold_left (includeStep parentURL slice) matches (mkScan 0 seen acc) in
  (sublistURLs sc,
   (out sc ++ [ PStr (if (lastIndex sc =? 0)%nat then slice
                      else Str.drop (lastIndex sc) slice) ])%list).

(** the loop over [slices], [i] being even exactly when [active] *)
Fixpoint scanSlices `{Host} (rootDefined : bool) (parentURL content : string)
    (active : bool) (slices : list nat) (seen : gset string) (acc : list Part)
  : gset string * list Part :=
  match slices with
  | a :: (b :: _) as rest =>
      let slice := Str.slice a b content in
      let '(seen, acc) :=
        if active then scanSlice rootDefined parentURL slice seen acc
        else (seen, (acc ++ [PStr slice])%list) in
      scanSlices rootDefined parentURL content (negb active) rest seen acc
  | _ => (seen, acc)
  end.

(** [processIncludeDirectives(results)] *)
Definition processIncludeDirectives `{Host} (rootDefined : bool)
    (results : list Result) (seen : gset string) : gset string * list Part :=
  fold_left
    (fun '(seen, acc) result =>
       match result with
       | RStr s => (seen, (acc ++ [PStr s])%list)
       | RObj details =>
           let content := asString (prop details "content") in
           scanSlices rootDefined (asString (prop details "url")) content
                      true (splitter content) seen acc
       end)
    results (seen, []).

(** [resourceTimeFromParts] *)
Definition resourceTimeFromParts (parts : list Result) (time : Q) : Q :=
  fold_left
    (fun acc part =>
       match part with
       | RObj o =>
           if Qltb acc (asNum (orElse (prop o "resourceTime") (VNum 0)))
           then asNum (prop o "resourceTime") else acc
       | RStr _ => acc
       end)
    parts time.

Definition isUndefined (v : Val) : bool :=
  match v with VUndefined => true | _ => false end.

(** [typeof part === 'object' && part.error !== undefined] *)
Definition hasError (part : Result) : bool :=
  match part with
  | RObj o => negb (isUndefined (prop o "error"))
  | RStr _ => false
  end.

Definition errorOf (part : Result) : Val :=
  match part with RObj o => prop o "error" | RStr _ => VUndefined end.

Definition isPending (p : Part) : bool :=
  match p with PFetch _ => true | PStr _ => false end.

Definition partText (p : Part) : string :=
  match p with PStr s => s | PFetch _ => "" end.

(** [allParts.join('')] *)
Definition joinParts (parts : list Part) : string :=
  fold_right (fun p acc => partText p ++ acc) "" parts.

(** [await Promise.all(allParts)], [ft] giving what [assets.fetchText]
    resolves to *)
Definition awaitAll (ft : string -> Obj) (parts : list Part) : list Result :=
  List.map (fun p => match p with
                     | PStr s => RStr s
                     | PFetch url => RObj (ft url)
                     end) parts.

Definition failureDetails (mainlistURL : string) (error : Val) : Obj :=
  setProp "error" error
    (setProp "content" (VStr "") (setProp "url" (VStr mainlistURL) ∅)).

Definition successDetails (mainlistURL : string) (resourceTime : Q)
    (content : string) : Obj :=
  setProp "content" (VStr content)
    (setProp "resourceTime" (VNum resourceTime)
       (setProp "url" (VStr mainlistURL) ∅)).

(** one iteration of the [do ... while] loop of [assets.fetchFilterList]:
    a [return] or [break] with the details returned, or the state with
    which the loop goes on *)
Inductive Iteration :=
| Return (details : Obj) (seen : gset string)
| Again (allParts : list Part) (resourceTime : Q) (seen : gset string).

Definition iteration `{Host} (ft : string -> Obj) (mainlistURL : string)
    (rootDefined : bool) (allParts : list Part) (resourceTime : Q)
    (seen : gset string) : Iteration :=
  let results := awaitAll ft allParts in
  match List.find hasError results with
  | Some part => Return (failureDetails mainlistURL (errorOf part)) seen
  | None =>
      let resourceTime := resourceTimeFromParts results resourceTime in
      let diffUpdatable :=
        match results with
        | [RObj o] => isDiffUpdatableAsset (prop o "content")
        | _ => false
        end in
      if diffUpdatable then
        Return (successDetails mainlistURL resourceTime
                  (match results with
                   | [RObj o] => asString (prop o "content")
                   | _ => ""
                   end)) seen
      else
        let '(seen, parts) := processIncludeDirectives rootDefined results seen in
        if existsb isPending parts then Again parts resourceTime seen
        else Return (successDetails mainlistURL resourceTime
                       (match parts with
                        | [p] => partText p
                        | _ => joinParts parts ++ Str.nl
                        end)) seen
  end.

(** the loop, [None] when [fuel] iterations did not reach a [return] *)
Fixpoint assemble `{Host} (ft : string -> Obj) (mainlistURL : string)
    (rootDefined : bool) (fuel : nat) (allParts : list Part)
    (resourceTime : Q) (seen : gset string) : option (Obj * gset string) :=
  match fuel with
  | O => None
  | S fuel =>
      match iteration ft mainlistURL rootDefined allParts resourceTime seen with
      | Return details seen => Some (details, seen)
      | Again allParts resourceTime seen =>
          assemble ft mainlistURL rootDefined fuel allParts resourceTime seen
      end
  end.

(** [assets.fetchFilterList(mainlistURL)], with the set of sublists it
    scheduled *)
Definition fetchFilterList `{Host} (ft : string -> Obj) (fuel : nat)
    (mainlistURL : string) : option (Obj * gset string) :=
  assemble ft mainlistURL (rootDirectoryDefined mainlistURL) fuel
           [PFetch mainlistURL] 0 ∅.

(** ** The two registries and the stores *)

(** An object whose keys are enumerated in insertion order. *)
Module Dict.

Fixpoint lookup {A} (k : string) (d : list (string * A)) : option A :=
  match d with
  | [] => None
  | (k', v) :: t => if String.eqb k k' then Some v else lookup k t
  end.

(** [d[k] = v] *)
Fixpoint set {A} (k : string) (v : A) (d : list (string * A)) : list (string * A) :=
  match d with
  | [] => [(k, v)]
  | (k', v') :: t =>
      if String.eqb k k' then (k, v) :: t else (k', v') :: set k v t
  end.

(** [delete d[k]] *)
Fixpoint remove {A} (k : string) (d : list (string * A)) : list (string * A) :=
  match d with
  | [] => []
  | (k', v') :: t =>
      if String.eqb k k' then t else (k', v') :: remove k t
  end.

End Dict.

(** An observer receives a topic and the details and may answer. *)
Definition Observer := string -> Obj -> Val.

Record State := mkState {
  (** [assetSourceRegistry], keys in insertion order *)
  assetSourceRegistry : list (string * Obj);
  (** [assetCacheRegistry] *)
  assetCacheRegistry : gmap string Obj;
  (** the content blobs of [cacheStorage], under [cache/<assetKey>] *)
  cacheStorage : gmap string Val;
  (** the entry [assetCacheRegistry] of [cacheStorage], once saved *)
  savedCacheRegistry : option (gmap string Obj);
  (** whether the timer of [saveAssetCacheRegistry] is armed *)
  cacheSaveTimer : bool;
  (** [vAPI.storage] *)
  userStorage : gmap string Val;
  observers : list Observer;
  remoteServerFriendly : bool;
  (** [updaterStatus === 'updating'] *)
  updaterStatus : bool;
  updaterFetched : gset string;
  updaterUpdated : list string;
  updaterAssetDelay : Z;
  updaterAuto : bool;
  (** whether [updaterTimer] is armed, and its delay *)
  updaterTimer : option Z
}.

Definition withSource (f : list (string * Obj) -> list (string * Obj)) (st : State) : State :=
  mkState (f (assetSourceRegistry st)) (assetCacheRegistry st) (cacheStorage st)
    (savedCacheRegistry st) (cacheSaveTimer st) (userStorage st) (observers st)
    (remoteServerFriendly st) (updaterStatus st) (updaterFetched st)
    (updaterUpdated st) (updaterAssetDelay st) (updaterAuto st) (updaterTimer st).

Definition withCache (reg : gmap string Obj) (blobs : gmap string Val)
    (saved : option (gmap string Obj)) (timer : bool) (st : State) : State :=
  mkState (assetSourceRegistry st) reg blobs saved timer (userStorage st)
    (observers st) (remoteServerFriendly st) (updaterStatus st)
    (updaterFetched st) (updaterUpdated st) (updaterAssetDelay st)
    (updaterAuto st) (updaterTimer st).

Definition withUserStorage (u : gmap string Val) (st : State) : State :=
  mkState (assetSourceRegistry st) (assetCacheRegistry st) (cacheStorage st)
    (savedCacheRegistry st) (cacheSaveTimer st) u (observers st)
    (remoteServerFriendly st) (updaterStatus st) (updaterFetched st)
    (updaterUpdated st) (updaterAssetDelay st) (updaterAuto st) (updaterTimer st).

Definition withUpdater (friendly status : bool) (fetched : gset string)
    (updated : list string) (delay : Z) (timer : option Z) (st : State) : State :=
  mkState (assetSourceRegistry st) (assetCacheRegistry st) (cacheStorage st)
    (savedCacheRegistry st) (cacheSaveTimer st) (userStorage st) (observers st)
    friendly status fetched updated delay (updaterAuto st) timer.

(** [fireNotification]: the last answer that is not [undefined] *)
Definition fireNotification (topic : string) (details : Obj) (st : State) : Val :=
  fold_left (fun result observer =>
               let r := observer topic details in
               if isUndefined r then result else r)
            (observers st) VUndefined.

Definition timeVal (t : Z) : Val := VNum (inject_Z t).

(** [getUpdateAfterTime]; the result is in milliseconds *)
Definition MS_PER_DAY : Q := inject_Z (24 * (60 * 60 * 1000)).
Definition EXPIRES_DEFAULT : Q := 7.

Definition getUpdateAfterTime (assetKey : string) (diff : bool) (st : State) : Q :=
  let fromSource :=
    match Dict.lookup assetKey (assetSourceRegistry st) with
    | Some entry =>
        match prop entry "updateAfter" with
        | VNum d => (d * MS_PER_DAY)%Q
        | _ => (EXPIRES_DEFAULT * MS_PER_DAY)%Q
        end
    | None => (EXPIRES_DEFAULT * MS_PER_DAY)%Q
    end in
  match assetCacheRegistry st !! assetKey with
  | Some entry =>
      match (if diff then prop entry "diffExpires" else VUndefined) with
      | VNum d => (d * MS_PER_DAY)%Q
      | _ =>
          match prop entry "expires" with
          | VNum d => (d * MS_PER_DAY)%Q
          | _ => fromSource
          end
      end
  | None => fromSource
  end.

(** [getWriteTime] *)
Definition getWriteTime (assetKey : string) (st : State) : Q :=
  match assetCacheRegistry st !! assetKey with
  | Some entry => asNum (orElse (prop entry "writeTime") (VNum 0))
  | None => 0%Q
  end.

(** [resourceIsStale] *)
Definition resourceIsStale (networkDetails cacheDetails : Obj) : bool :=
  match prop networkDetails "resourceTime" with
  | VNum n =>
      if Qeqb0 n then false
      else
        match prop cacheDetails "resourceTime" with
        | VNum c => if Qeqb0 c then false else Qltb n c
        | _ => false
        end
  | _ => false
  end.

(** *** Cache registry and store *)

Definition internalKey (assetKey : string) : string := "cache/" ++ assetKey.

Definition isEmptyStr (v : Val) : bool :=
  match v with VStr s => String.eqb s "" | _ => false end.

(** [reportBack] of [assetCacheRead] *)
Definition readReport (assetKey : string) (content : Val) : Obj :=
  let content := match content with VBlob => VStr "" | _ => content end in
  let details : Obj :=
    setProp "content" content (setProp "assetKey" (VStr assetKey) ∅) in
  if isEmptyStr content then setProp "error" (VStr "ENOTFOUND") details
  else details.

(** [saveAssetCacheRegistry(lazily)] *)
Definition saveAssetCacheRegistry (lazily : bool) (st : State) : State :=
  if lazily
  then withCache (assetCacheRegistry st) (cacheStorage st)
                 (savedCacheRegistry st) true st
  else withCache (assetCacheRegistry st) (cacheStorage st)
                 (Some (assetCacheRegistry st)) false st.

(** [assetCacheRead(assetKey, updateReadTime)], [now] being [Date.now()]
    when the read time is recorded *)
Definition assetCacheRead (now : Z) (assetKey : string) (updateReadTime : bool)
    (st : State) : Obj * State :=
  match cacheStorage st !! internalKey assetKey with
  | None => (readReport assetKey (VStr ""), st)
  | Some blob =>
      match assetCacheRegistry st !! assetKey with
      | None => (readReport assetKey (VStr ""), st)
      | Some entry =>
          let entry := setProp "readTime" (timeVal now) entry in
          let st := withCache (<[assetKey := entry]> (assetCacheRegistry st))
                              (cacheStorage st) (savedCacheRegistry st)
                              (cacheSaveTimer st) st in
          let st := if updateReadTime then saveAssetCacheRegistry true st else st in
          (readReport assetKey blob, st)
      end
  end.

(** the [pattern] of [assetCacheRemove] and [assetCacheMarkAsDirty] *)
Inductive Pattern :=
| PatString (s : string)
| PatRegExp (test : string -> bool)
| PatArray (l : list string)
| PatOther.

(** the keys [assetCacheRemove] keeps *)
Definition survives (pattern : Pattern) (assetKey : string) : bool :=
  match pattern with
  | PatRegExp test => negb (test assetKey)
  | PatString s => negb (String.eqb assetKey s)
  | _ => false
  end.

(** [assetCacheRemove(pattern)]; the observers are then told of every
    removed key *)
Definition assetCacheRemove (pattern : Pattern) (st : State) : State :=
  let cacheDict := assetCacheRegistry st in
  let removed := filter (fun kv => survives pattern kv.1 = false) cacheDict in
  let kept := filter (fun kv => survives pattern kv.1 = true) cacheDict in
  if bool_decide (removed = ∅)
  then st
  else
    let blobs :=
      foldr (fun assetKey blobs => delete (internalKey assetKey) blobs)
            (cacheStorage st) (map_to_list removed).*1 in
    withCache kept blobs (Some kept) (cacheSaveTimer st) st.

(** the [details] of [assetCacheWrite]: a string or an object *)
Inductive WriteDetails :=
| WString (content : string)
| WObject (options : Obj).

(** [assetCacheWrite(assetKey, details)]; unless [options.silent] the
    observers are then told of the update *)
Definition assetCacheWrite (now : Z) (assetKey : string) (details : WriteDetails)
    (st : State) : State :=
  let content :=
    match details with
    | WString s => VStr s
    | WObject o => orElse (prop o "content") (VStr "")
    end in
  let options : Obj :=
    match details with WString _ => ∅ | WObject o => o end in
  if isEmptyStr content then assetCacheRemove (PatString assetKey) st
  else
    let entry : Obj := default ∅ (assetCacheRegistry st !! assetKey) in
    let entry := setProp "readTime" (timeVal now)
                   (setProp "writeTime" (timeVal now) entry) in
    let entry := setProp "resourceTime"
                   (orElse (prop options "resourceTime") (VNum 0)) entry in
    let entry := if isString (prop options "url")
                 then setProp "remoteURL" (prop options "url") entry
                 else entry in
    let registry := <[assetKey := entry]> (assetCacheRegistry st) in
    withCache registry (<[internalKey assetKey := content]> (cacheStorage st))
              (Some registry) (cacheSaveTimer st) st.

(** one turn of the loop of [assetCacheSetDetails]: the entry and the
    flag [modified] *)
Definition setDetail (acc : Obj * bool) (kv : string * Val) : Obj * bool :=
  let '(entry, modified) := acc in
  let '(k, v) := kv in
  if isUndefined v then
    if isUndefined (prop entry k) then acc
    else (delete k entry, true)
  else if strictEq v (prop entry k) then acc
  else (setProp k v entry, true).

(** [assetCacheSetDetails(assetKey, details)] *)
Definition assetCacheSetDetails (assetKey : string) (details : Obj) (st : State)
  : State :=
  match assetCacheRegistry st !! assetKey with
  | None => st
  | Some entry =>
      let '(entry, modified) :=
        fold_left setDetail (map_to_list details) (entry, false) in
      let st := withCache (<[assetKey := entry]> (assetCacheRegistry st))
                          (cacheStorage st) (savedCacheRegistry st)
                          (cacheSaveTimer st) st in
      if modified then saveAssetCacheRegistry false st else st
  end.

(** whether [assetCacheMarkAsDirty] goes past the test of [pattern] *)
Definition matchesPattern (pattern : Pattern) (assetKey : string) : bool :=
  match pattern with
  | PatRegExp test => test assetKey
  | PatString s => String.eqb assetKey s
  | PatArray l => existsb (String.eqb assetKey) l
  | PatOther => true
  end.

(** whether [assetCacheMarkAsDirty] stops at the test of [exclude] *)
Definition matchesExclude (exclude : Pattern) (assetKey : string) : bool :=
  match exclude with
  | PatRegExp test => test assetKey
  | PatString s => String.eqb assetKey s
  | PatArray l => existsb (String.eqb assetKey) l
  | PatOther => false
  end.

(** the entries whose [writeTime] [assetCacheMarkAsDirty] resets *)
Definition markedDirty (pattern exclude : Pattern) (assetKey : string)
    (cacheEntry : Obj) : bool :=
  matchesPattern pattern assetKey && negb (matchesExclude exclude assetKey)
  && truthy (prop cacheEntry "writeTime").

(** [assetCacheMarkAsDirty(pattern, exclude)], that is [assets.purge] *)
Definition assetCacheMarkAsDirty (pattern exclude : Pattern) (st : State) : State :=
  let cacheDict := assetCacheRegistry st in
  let registry :=
    map_imap (fun assetKey cacheEntry =>
                Some (if markedDirty pattern exclude assetKey cacheEntry
                      then setProp "writeTime" (VNum 0) cacheEntry
                      else cacheEntry))
             cacheDict in
  let mustSave :=
    existsb (fun kv => markedDirty pattern exclude kv.1 kv.2)
            (map_to_list cacheDict) in
  withCache registry (cacheStorage st)
            (if mustSave then Some registry else savedCacheRegistry st)
            (cacheSaveTimer st) st.

(** *** Source registry *)

(** the loop of [registerAssetSource] over [Object.entries(newDict)] *)
Definition mergeDict (newDict currentDict : Obj) : Obj :=
  fold_left (fun (cur : Obj) '(k, v) =>
               match v with
               | VUndefined | VNull => delete k cur
               | _ => setProp k v cur
               end)
            (map_to_list newDict) currentDict.

(** [registerAssetSource(assetKey, newDict)] *)
Definition registerAssetSource (now : Z) (assetKey : string) (newDict : Obj)
    (registry : list (string * Obj)) : list (string * Obj) :=
  let currentDict : Obj := default ∅ (Dict.lookup assetKey registry) in
  let currentDict := mergeDict newDict currentDict in
  let currentDict :=
    match prop newDict "contentURL" with
    | VUndefined =>
        if isUndefined (prop currentDict "contentURL")
        then setProp "contentURL" (VArr []) currentDict
        else currentDict
    | v =>
        let contentURL :=
          match v with VStr s => [s] | VArr l => l | _ => [] end in
        let currentDict :=
          match v with
          | VArr _ => currentDict
          | _ => setProp "contentURL" (VArr contentURL) currentDict
          end in
        let remoteURLCount := length (List.filter isExternalPath contentURL) in
        setProp "hasRemoteURL" (VBool (negb (remoteURLCount =? 0)%nat))
          (setProp "hasLocalURL"
             (VBool (negb (remoteURLCount =? length contentURL)%nat))
             currentDict)
    end in
  let currentDict :=
    if truthy (prop currentDict "submitter")
    then setProp "submitTime" (timeVal now) currentDict
    else currentDict in
  Dict.set assetKey currentDict registry.

(** [unregisterAssetSource(assetKey)] *)
Definition unregisterAssetSource (assetKey : string) (st : State) : State :=
  withSource (Dict.remove assetKey) (assetCacheRemove (PatString assetKey) st).

(** [updateAssetSourceRegistry(json, silent)]; the observers are told of
    the new dictionary and, unless [silent], of each new source *)
Definition updateAssetSourceRegistry `{Host} (now : Z) (json : string) (st : State)
  : State :=
  match jsonParse json with
  | None => st
  | Some newDict =>
      let defaultListset :=
        (List.filter (fun a => strictEq (prop a.2 "content") (VStr "filters")
                               && isUndefined (prop a.2 "off")) newDict).*1 in
      let newDict :=
        match Dict.lookup "assets.json" newDict with
        | Some entry =>
            Dict.set "assets.json"
                     (setProp "defaultListset" (VArr defaultListset) entry) newDict
        | None => newDict
        end in
      let oldDict := assetSourceRegistry st in
      let st :=
        fold_left
          (fun st '(assetKey, entry) =>
             match Dict.lookup assetKey newDict with
             | None =>
                 if isUndefined (prop entry "submitter")
                 then unregisterAssetSource assetKey st else st
             | Some _ => st
             end)
          oldDict st in
      fold_left
        (fun st '(assetKey, entry) =>
           withSource (registerAssetSource now assetKey entry) st)
        newDict st
  end.

(** ** Get orchestrator *)

(** What [assets.fetchText] and [assets.fetchFilterList] return for a URL,
    given the value of [remoteServerFriendly] when they are called. *)
Record Network := mkNetwork {
  viaText : bool -> string -> Obj;
  viaFilterList : bool -> string -> Obj
}.

(** [readUserAsset(assetKey)] *)
Definition readUserAsset (assetKey : string) (st : State) : Obj :=
  let content :=
    match userStorage st !! assetKey with
    | Some (VStr s) => s
    | _ => ""
    end in
  setProp "content" (VStr content) (setProp "assetKey" (VStr assetKey) ∅).

(** [saveUserAsset(assetKey, content)] *)
Definition saveUserAsset (assetKey : string) (content : string) (st : State)
  : Obj * State :=
  (setProp "content" (VStr content) (setProp "assetKey" (VStr assetKey) ∅),
   withUserStorage (<[assetKey := VStr content]> (userStorage st)) st).

(** [assetDetails] is either the entry of the source registry itself or
    an object of its own; an assignment to it reaches the registry in
    the first case only. *)
Inductive DetailsRef :=
| InRegistry
| Detached (o : Obj).

Definition deref (assetKey : string) (ref : DetailsRef) (st : State) : Obj :=
  match ref with
  | InRegistry => default ∅ (Dict.lookup assetKey (assetSourceRegistry st))
  | Detached o => o
  end.

(** [assetDetails.k = v] *)
Definition assign (assetKey : string) (ref : DetailsRef) (k : string) (v : Val)
    (st : State) : DetailsRef * State :=
  match ref with
  | InRegistry =>
      (InRegistry,
       withSource (fun reg =>
                     match Dict.lookup assetKey reg with
                     | Some entry => Dict.set assetKey (setProp k v entry) reg
                     | None => reg
                     end) st)
  | Detached o => (Detached (setProp k v o), st)
  end.

(** [reportBack] of [assets.get] *)
Definition getReport (assetKey : string) (options : Obj) (ref : DetailsRef)
    (content : Val) (url : string) (err : Val) (st : State) : Obj * State :=
  let details : Obj :=
    setProp "content" content (setProp "assetKey" (VStr assetKey) ∅) in
  let details :=
    if isUndefined err then details else setProp "error" err details in
  let st := snd (assign assetKey ref "lastError" err st) in
  let details :=
    if truthy (prop options "needSourceURL") then
      let details :=
        match String.eqb url "", assetCacheRegistry st !! assetKey with
        | true, Some entry => setProp "sourceURL" (prop entry "remoteURL") details
        | _, _ => details
        end in
      if isExternalPath url then setProp "sourceURL" (VStr url) details
      else details
    else details in
  (details, st).

Definition stringsOf (v : Val) : list string :=
  match v with
  | VStr s => [s]
  | VArr l => l
  | _ => []
  end.

(** the loop of [assets.get] over [contentURLs]: the details returned from
    inside the loop, or the last error when the loop ends *)
Fixpoint getLoop (net : Network) (now : Z) (assetKey : string) (options : Obj)
    (ref : DetailsRef) (contentURLs : list string) (error : Val) (st : State)
  : (Obj * State) + Val :=
  match contentURLs with
  | [] => inr error
  | contentURL :: rest =>
      let assetDetails := deref assetKey ref st in
      if isExternalPath contentURL && truthy (prop assetDetails "hasLocalURL")
      then getLoop net now assetKey options ref rest error st
      else
        let details :=
          if strictEq (prop assetDetails "content") (VStr "filters")
          then viaFilterList net (remoteServerFriendly st) contentURL
          else viaText net (remoteServerFriendly st) contentURL in
        let error :=
          if isUndefined (prop details "error") then error
          else prop details "error" in
        if isEmptyStr (prop details "content")
        then getLoop net now assetKey options ref rest error st
        else
          let st :=
            if isExternalPath contentURL
               && negb (strictEq (prop options "dontCache") (VBool true))
            then
              let st :=
                assetCacheWrite now assetKey
                  (WObject
                     (setProp "silent"
                        (VBool (strictEq (prop options "silent") (VBool true)))
                        (setProp "url" (VStr contentURL)
                           (setProp "content" (prop details "content") ∅))))
                  st in
              withSource (registerAssetSource now assetKey
                            (setProp "error" VUndefined ∅)) st
            else st in
          inl (getReport assetKey options ref (prop details "content")
                         contentURL VUndefined st)
  end.

(** [assets.get(assetKey, options)] *)
Definition get `{Host} (net : Network) (now : Z) (assetKey : string)
    (options : Obj) (st : State) : Obj * State :=
  if String.eqb assetKey userFiltersPath
  then (readUserAsset assetKey st, st)
  else
    let updateReadTime :=
      negb (Str.startsWith "compiled/" assetKey
            || Str.startsWith "selfie/" assetKey) in
    let '(details, st) := assetCacheRead now assetKey updateReadTime st in
    if negb (isEmptyStr (prop details "content"))
    then getReport assetKey options (Detached ∅) (prop details "content")
                   "" VUndefined st
    else
      let known := Dict.lookup assetKey (assetSourceRegistry st) in
      let ref := match known with Some _ => InRegistry | None => Detached ∅ end in
      let contentURL := prop (deref assetKey ref st) "contentURL" in
      let '(ref, st, contentURLs) :=
        match contentURL with
        | VStr s => (ref, st, [s])
        | VArr l => (ref, st, l)
        | _ =>
            if isExternalPath assetKey
            then let '(ref, st) := assign assetKey ref "content" (VStr "filters") st in
                 (ref, st, [assetKey])
            else (ref, st, [])
        end in
      let contentURLs :=
        match prop (deref assetKey ref st) "cdnURLs" with
        | VArr l => (contentURLs ++ l)%list
        | _ => contentURLs
        end in
      match getLoop net now assetKey options ref contentURLs (VStr "ENOTFOUND") st with
      | inl r => r
      | inr error =>
          let st :=
            match Dict.lookup assetKey (assetSourceRegistry st) with
            | Some _ =>
                withSource (registerAssetSource now assetKey
                              (setProp "error" (VErr now error) ∅)) st
            | None => st
            end in
          getReport assetKey options ref (VStr "") "" error st
      end.

(** [assets.put(assetKey, content)] *)
Definition put (now : Z) (assetKey content : string) (st : State) : State :=
  if isUserAsset assetKey
  then snd (saveUserAsset assetKey content st)
  else assetCacheWrite now assetKey (WString content) st.

(** ** Remote refresher *)

(** [[cdnURLs[j], cdnURLs[i]] = [cdnURLs[i], cdnURLs[j]]] *)
Definition swap (i j : nat) (l : list string) : list string :=
  match l !! i, l !! j with
  | Some a, Some b => <[j := a]> (<[i := b]> l)
  | _, _ => l
  end.

(** the shuffle of [getRemote], from iteration [i], [k] iterations left;
    the draw of the host is reduced modulo [n], the range of
    [Math.floor(Math.random() * n)] *)
Fixpoint shuffle `{Host} (n i k : nat) (cdnURLs : list string) : list string :=
  match k with
  | O => cdnURLs
  | S k =>
      let j := (randomBelow i n mod n)%nat in
      shuffle n (S i) k (if (j =? i)%nat then cdnURLs else swap i j cdnURLs)
  end.

(** [contentURLs] as the loop of [getRemote] receives it *)
Definition remoteContentURLs `{Host} (assetDetails : Obj) (remoteServerFriendly : bool)
  : list string :=
  let contentURLs := stringsOf (prop assetDetails "contentURL") in
  match prop assetDetails "cdnURLs" with
  | VArr l =>
      let cdnURLs := shuffle (length l) 0 (length l) l in
      if remoteServerFriendly then (cdnURLs ++ contentURLs)%list
      else (contentURLs ++ cdnURLs)%list
  | _ => contentURLs
  end.

(** [contentURL.replace(/\/assets\/assets\.json$/, µb.assetsJsonPath)] *)
Definition rewriteAssetsJson `{Host} (contentURL : string) : string :=
  if Str.endsWith "/assets/assets.json" contentURL
  then Str.take (String.length contentURL - 19) contentURL ++ assetsJsonPath
  else contentURL.

(** [reportBack] of [getRemote] *)
Definition remoteReport (assetKey : string) (ref : DetailsRef) (content err : Val)
    (st : State) : Obj * State :=
  let details : Obj :=
    setProp "content" content (setProp "assetKey" (VStr assetKey) ∅) in
  if truthy err
  then (setProp "error" err details, snd (assign assetKey ref "lastError" err st))
  else (details, snd (assign assetKey ref "lastError" VUndefined st)).

Definition metadataFields : list string :=
  ["Last-Modified"; "Expires"; "Diff-Name"; "Diff-Path"; "Diff-Expires"].

(** what one turn of the loop of [getRemote] leaves: a [return], or the
    variables [error] and [stale] for the next turn *)
Inductive Visit :=
| Returned (details : Obj) (st : State)
| Next (error : Val) (stale : bool) (st : State).

(** the URL a turn of the loop fetches for [contentURL] *)
Definition remoteURL `{Host} (assetKey contentURL : string) : string :=
  if String.eqb assetKey "assets.json" then rewriteAssetsJson contentURL
  else contentURL.

(** [assets.fetchFilterList(contentURL)] for a filter list,
    [assets.fetchText(contentURL)] otherwise *)
Definition remoteFetch (net : Network) (isFilters remoteServerFriendly : bool)
    (contentURL : string) : Obj :=
  if isFilters then viaFilterList net remoteServerFriendly contentURL
  else viaText net remoteServerFriendly contentURL.

Definition getRemoteVisit `{Host} (net : Network) (now : Z) (assetKey : string)
    (ref : DetailsRef) (cacheDetails : Obj) (contentURL : string)
    (error : Val) (stale : bool) (st : State) : Visit :=
  if negb (isExternalPath contentURL) then Next error stale st
  else
    let contentURL := remoteURL assetKey contentURL in
    let isFilters :=
      strictEq (prop (deref assetKey ref st) "content") (VStr "filters") in
    let result :=
      remoteFetch net isFilters (remoteServerFriendly st) contentURL in
    if negb (stringIsNotEmpty (prop result "content")) then
      Next (if strictEq (prop result "statusCode") (VNum 0)
            then VStr "network error" else prop result "statusText")
           stale st
    else if resourceIsStale result cacheDetails then Next VUndefined true st
    else
      let st :=
        assetCacheWrite now assetKey
          (WObject
             (setProp "resourceTime" (orElse (prop result "resourceTime") (VNum 0))
                (setProp "url" (VStr contentURL)
                   (setProp "content" (prop result "content") ∅))))
          st in
      let st :=
        if isFilters
        then assetCacheSetDetails assetKey
               (extractMetadataFromList (asString (prop result "content"))
                                        metadataFields) st
        else st in
      let st :=
        withSource (registerAssetSource now assetKey
                      (setProp "error" VUndefined
                         (setProp "birthtime" VUndefined ∅))) st in
      let '(details, st) :=
        remoteReport assetKey ref (prop result "content") VUndefined st in
      Returned details st.

(** the [for ... of] loop of [getRemote] *)
Fixpoint getRemoteLoop `{Host} (net : Network) (now : Z) (assetKey : string)
    (ref : DetailsRef) (cacheDetails : Obj) (contentURLs : list string)
    (error : Val) (stale : bool) (st : State) : Visit :=
  match contentURLs with
  | [] => Next error stale st
  | contentURL :: rest =>
      match getRemoteVisit net now assetKey ref cacheDetails contentURL
                           error stale st with
      | Returned details st => Returned details st
      | Next error stale st =>
          getRemoteLoop net now assetKey ref cacheDetails rest error stale st
      end
  end.

(** [getRemote(assetKey)] *)
Definition getRemote `{Host} (net : Network) (now : Z) (assetKey : string)
    (st : State) : Obj * State :=
  let ref :=
    match Dict.lookup assetKey (assetSourceRegistry st) with
    | Some _ => InRegistry
    | None => Detached ∅
    end in
  let cacheDetails : Obj := default ∅ (assetCacheRegistry st !! assetKey) in
  let contentURLs :=
    remoteContentURLs (deref assetKey ref st) (remoteServerFriendly st) in
  match getRemoteLoop net now assetKey ref cacheDetails contentURLs
                      VUndefined false st with
  | Returned details st => (details, st)
  | Next error stale st =>
      if negb (isUndefined error) then
        let st :=
          withSource (registerAssetSource now assetKey
                        (setProp "error" (VErr now error) ∅)) st in
        remoteReport assetKey ref (VStr "") (VStr "ENOTFOUND") st
      else
        let st :=
          if stale
          then assetCacheSetDetails assetKey
                 (setProp "writeTime" (prop cacheDetails "resourceTime") ∅) st
          else st in
        remoteReport assetKey ref (VStr "") VUndefined st
  end.

(** ** Update scheduler *)

Definition updaterAssetDelayDefault : Z := 120000.

(** the loop of [getUpdateCandidates] over the source registry *)
Definition candidateStep `{Host} (acc : list string * State)
    (item : string * Obj) : list string * State :=
  let '(toUpdate, st) := acc in
  let '(assetKey, assetEntry) := item in
  if negb (strictEq (prop assetEntry "hasRemoteURL") (VBool true)) then acc
  else if bool_decide (assetKey ∈ updaterFetched st) then acc
  else if strictEq
            (fireNotification "before-asset-updated"
               (setProp "type" (prop assetEntry "content")
                  (setProp "assetKey" (VStr assetKey) ∅)) st)
            (VBool true)
  then ((toUpdate ++ [assetKey])%list, st)
  else
    match assetCacheRegistry st !! assetKey with
    | Some cacheEntry =>
        match prop cacheEntry "readTime" with
        | VNum readTime =>
            if Qltb readTime (inject_Z assetCacheRegistryStartTime)
            then (toUpdate, assetCacheRemove (PatString assetKey) st)
            else acc
        | _ => acc
        end
    | None => acc
    end.

(** the comparator of the sort: [ta - tb], [None] for [NaN] *)
Definition compareWriteTime (cacheDict : gmap string Obj) (a b : string)
  : option Q :=
  let time k :=
    match cacheDict !! k with
    | Some entry => prop entry "writeTime"
    | None => VNum 0
    end in
  match time a, time b with
  | VNum ta, VNum tb => Some (ta - tb)%Q
  | _, _ => None
  end.

(** [Array.prototype.sort] with a comparator: a stable sort, a [NaN]
    answer counting as zero *)
Fixpoint insertSorted (cmp : string -> string -> option Q) (x : string)
    (l : list string) : list string :=
  match l with
  | [] => [x]
  | y :: t =>
      match cmp x y with
      | Some d => if Qltb 0 d then y :: insertSorted cmp x t else x :: l
      | None => x :: l
      end
  end.

Definition sortBy (cmp : string -> string -> option Q) (l : list string)
  : list string :=
  fold_right (insertSorted cmp) [] l.

(** [getUpdateCandidates()] *)
Definition getUpdateCandidates `{Host} (st : State) : list string * State :=
  let cacheDict := assetCacheRegistry st in
  let '(toUpdate, st) :=
    fold_left candidateStep (assetSourceRegistry st) ([], st) in
  (sortBy (compareWriteTime cacheDict) toUpdate, st).

(** the candidates [updateNext] keeps, in the order of [toHardUpdate] *)
Definition hardUpdates (now : Z) (toUpdate : list string) (st : State)
  : list string :=
  List.filter
    (fun assetKey =>
       negb (Qltb (inject_Z now)
                  (getWriteTime assetKey st + getUpdateAfterTime assetKey false st)))
    toUpdate.

(** [updateDone()]; the observers are told of the keys updated *)
Definition updateDone (st : State) : State :=
  withUpdater (remoteServerFriendly st) false ∅ [] updaterAssetDelayDefault
              (updaterTimer st) st.

(** [toHardUpdate.pop()] *)
Definition pop (l : list string) : option string := List.last (List.map Some l) None.

(** the asset [updateNext] refreshes in this step, if any *)
Definition nextAsset `{Host} (now : Z) (st : State) : option string :=
  let '(toUpdate, st) := getUpdateCandidates st in
  pop (hardUpdates now toUpdate st).

(** [updateNext()] *)
Definition updateNext `{Host} (net : Network) (now : Z) (st : State) : State :=
  let '(toUpdate, st) := getUpdateCandidates st in
  match pop (hardUpdates now toUpdate st) with
  | None => updateDone st
  | Some assetKey =>
      let st := withUpdater (updaterAuto st) (updaterStatus st)
                            ({[ assetKey ]} ∪ updaterFetched st)
                            (updaterUpdated st) (updaterAssetDelay st)
                            (updaterTimer st) st in
      let '(result, st) :=
        if negb (String.eqb assetKey "assets.json") || negb debugAssetsJson
        then getRemote net now assetKey st
        else (setProp "assetKey" (VStr "assets.json")
                (viaText net (remoteServerFriendly st) assetsJsonPath), st) in
      let st := withUpdater false (updaterStatus st) (updaterFetched st)
                            (updaterUpdated st) (updaterAssetDelay st)
                            (updaterTimer st) st in
      let st :=
        if truthy (prop result "error") then st
        else
          let st := withUpdater (remoteServerFriendly st) (updaterStatus st)
                      (updaterFetched st)
                      (updaterUpdated st ++ [asString (prop result "assetKey")])%list
                      (updaterAssetDelay st) (updaterTimer st) st in
          if strictEq (prop result "assetKey") (VStr "assets.json")
             && negb (isEmptyStr (prop result "content"))
          then updateAssetSourceRegistry now (asString (prop result "content")) st
          else st in
      withUpdater (remoteServerFriendly st) (updaterStatus st) (updaterFetched st)
                  (updaterUpdated st) (updaterAssetDelay st)
                  (Some (updaterAssetDelay st)) st
  end.

(** * Properties *)

(** ** Objects *)

Lemma prop_setProp_eq (k : string) (v : Val) (o : Obj) : prop (setProp k v o) k = v.
Proof. unfold prop, setProp. by rewrite lookup_insert_eq. Qed.

Lemma prop_setProp_ne (k k' : string) (v : Val) (o : Obj) :
  k ≠ k' -> prop (setProp k v o) k' = prop o k'.
Proof. intros Hne. unfold prop, setProp. by rewrite lookup_insert_ne. Qed.

Lemma prop_empty (k : string) : prop ∅ k = VUndefined.
Proof. unfold prop. by rewrite lookup_empty. Qed.

Lemma truthy_VStr (s : string) : s ≠ "" -> truthy (VStr s) = true.
Proof.
  intros Hs. simpl. destruct (String.eqb_spec s ""); [contradiction | reflexivity].
Qed.

(** ** Metadata extractor *)

(** a header value, when extracted, is a string that is not empty *)
Definition headerValue (v : Val) : Prop :=
  v = VUndefined \/ exists s, v = VStr s /\ s ≠ "".

Lemma rawField_headerValue (head field : string) : headerValue (rawField head field).
Proof.
  unfold rawField, headerValue.
  destruct (execHeader _ _ _) as [m|]; [|by left].
  destruct (String.eqb_spec (Str.trim m) ""); [by left|].
  destruct (isTemplate _); [by left|].
  right. eauto.
Qed.

Lemma rawMetadata_headerValue (content : string) (fields : list string) (k : string) :
  headerValue (prop (rawMetadata content fields) k).
Proof.
  unfold rawMetadata.
  assert (Hgen : forall (acc : Obj),
             (forall k, headerValue (prop acc k)) ->
             forall k, headerValue
               (prop (fold_left
                        (fun (out : Obj) field =>
                           let field := collapseSpaces false field in
                           setProp (fieldKey field)
                                   (rawField (Str.take 1024 content) field) out)
                        fields acc) k)).
  { induction fields as [|f fs IH]; intros acc Hacc k'; simpl; [apply Hacc|].
    apply IH. intros k''.
    destruct (decide (fieldKey (collapseSpaces false f) = k'')) as [<-|Hne].
    - rewrite prop_setProp_eq. apply rawField_headerValue.
    - rewrite prop_setProp_ne by done. apply Hacc. }
  apply Hgen. intros k'. left. apply prop_empty.
Qed.

Lemma truthy_headerValue (v : Val) :
  headerValue v -> truthy v = true -> exists s, v = VStr s /\ s ≠ "".
Proof.
  intros [->|Hs] Ht; [discriminate | exact Hs].
Qed.

Lemma extract_expires `{Host} (content : string) (fields : list string) :
  prop (extractMetadataFromList content fields) "expires" =
  let raw := prop (rawMetadata content fields) "expires" in
  if truthy raw then VNum (mathMax (parseExpires (asString raw)) (1#2)) else raw.
Proof.
  unfold extractMetadataFromList. cbv zeta.
  set (raw := rawMetadata content fields).
  set (o1 := if truthy (prop raw "lastModified") then _ else raw).
  assert (H1 : prop o1 "expires" = prop raw "expires").
  { subst o1. destruct (truthy (prop raw "lastModified")); [|done].
    by rewrite prop_setProp_ne. }
  set (o2 := if truthy (prop o1 "expires") then _ else o1).
  assert (H2 : prop o2 "expires" =
               if truthy (prop raw "expires")
               then VNum (mathMax (parseExpires (asString (prop raw "expires"))) (1#2))
               else prop raw "expires").
  { subst o2. rewrite H1. destruct (truthy (prop raw "expires")); [|done].
    by rewrite prop_setProp_eq. }
  destruct (truthy (prop o2 "diffExpires")); [|done].
  by rewrite prop_setProp_ne.
Qed.

Lemma extract_diffExpires `{Host} (content : string) (fields : list string) :
  prop (extractMetadataFromList content fields) "diffExpires" =
  let raw := prop (rawMetadata content fields) "diffExpires" in
  if truthy raw then VNum (mathMax (parseExpires (asString raw)) (1#4)) else raw.
Proof.
  unfold extractMetadataFromList. cbv zeta.
  set (raw := rawMetadata content fields).
  set (o1 := if truthy (prop raw "lastModified") then _ else raw).
  assert (H1 : prop o1 "diffExpires" = prop raw "diffExpires").
  { subst o1. destruct (truthy (prop raw "lastModified")); [|done].
    by rewrite prop_setProp_ne. }
  set (o2 := if truthy (prop o1 "expires") then _ else o1).
  assert (H2 : prop o2 "diffExpires" = prop raw "diffExpires").
  { subst o2. destruct (truthy (prop o1 "expires")); [|done].
    by rewrite prop_setProp_ne. }
  rewrite H2. destruct (truthy (prop raw "diffExpires")); [|done].
  by rewrite prop_setProp_eq.
Qed.

(** C5: [parseExpires("2d")] is 2, [parseExpires("12h")] is
    [ceil(12/6)/4 = 0.5] and [parseExpires("garbage")] is 0; and
    [extractMetadataFromList] replaces an [Expires] value found in the
    header by the larger of its parsed value and 0.5 day, and a
    [Diff-Expires] value by the larger of its parsed value and 0.25 day, so
    that a numeric [expires] is at least 0.5 and a numeric [diffExpires] at
    least 0.25. *)
Theorem parseExpires_values_and_floors `{Host} (content : string)
    (fields : list string) :
  (parseExpires "2d" == 2
   /\ parseExpires "12h" == inject_Z (Qceiling (12 / 6)) / 4
   /\ parseExpires "12h" == 1 # 2
   /\ parseExpires "garbage" == 0)%Q
  /\ (forall v, prop (rawMetadata content fields) "expires" = VStr v ->
        prop (extractMetadataFromList content fields) "expires"
        = VNum (mathMax (parseExpires v) (1 # 2)))
  /\ (forall q, prop (extractMetadataFromList content fields) "expires" = VNum q ->
        (1 # 2 <= q)%Q)
  /\ (forall v, prop (rawMetadata content fields) "diffExpires" = VStr v ->
        prop (extractMetadataFromList content fields) "diffExpires"
        = VNum (mathMax (parseExpires v) (1 # 4)))
  /\ (forall q, prop (extractMetadataFromList content fields) "diffExpires" = VNum q ->
        (1 # 4 <= q)%Q).
Proof.
  split; [repeat split; reflexivity|].
  pose proof (rawMetadata_headerValue content fields "expires") as Hx.
  pose proof (rawMetadata_headerValue content fields "diffExpires") as Hd.
  repeat split.
  - intros v Hv. rewrite extract_expires. cbv zeta. rewrite Hv in *.
    destruct Hx as [Hx|(s & Hs & Hne)]; [discriminate|].
    injection Hs as <-. by rewrite truthy_VStr.
  - intros q. rewrite extract_expires. cbv zeta.
    destruct Hx as [->|(s & -> & Hne)]; [discriminate|].
    rewrite truthy_VStr by done. intros [= <-]. apply Q.le_max_r.
  - intros v Hv. rewrite extract_diffExpires. cbv zeta. rewrite Hv in *.
    destruct Hd as [Hd|(s & Hs & Hne)]; [discriminate|].
    injection Hs as <-. by rewrite truthy_VStr.
  - intros q. rewrite extract_diffExpires. cbv zeta.
    destruct Hd as [->|(s & -> & Hne)]; [discriminate|].
    rewrite truthy_VStr by done. intros [= <-]. apply Q.le_max_r.
Qed.

(** *** A host for the examples

    Dates are written as decimal timestamps, the preparser finds no [!#if]
    block, and the network serves three documents. *)

Definition demoXhr (url : string) : XhrOutcome :=
  if String.eqb url "https://h/page.txt?_=4"
  then XhrLoad 200 "OK" (VStr "<html></html>") None None
  else if String.eqb url "https://h/bang.txt?_=4"
  then XhrLoad 200 "OK" (VStr "<!") None None
  else if String.eqb url "https://h/old.txt?_=4"
  then XhrLoad 200 "OK" (VStr ("! Last-Modified: 1000" ++ Str.nl ++ "||x^"))
               None None
  else XhrFail.

Definition demoHost : Host := {|
  dateParse s :=
    match reExpires s with
    | Some (digits, _) => Some (Str.parseDigits digits 0)
    | None => None
    end;
  getURL p := "ext://ublock/" ++ p;
  urlPathname s :=
    match Str.indexOf "://" s with
    | Some i => Some (Str.drop (i + 3) s)
    | None => None
    end;
  splitter content := [0%nat; String.length content];
  xhr := demoXhr;
  jsonParse _ := None;
  randomBelow _ _ := 0%nat;
  cantConnectTo url := "cannot connect to " ++ url;
  userFiltersPath := "user-filters";
  assetsJsonPath := "/assets/assets.json";
  updateAssetBypassBrowserCache := false;
  debugAssetsJson := false;
  assetCacheRegistryStartTime := 0
|}.

(** four hours after the epoch *)
Definition demoNow : Z := 4 * 3600000.

Lemma parseExpires_values_and_floors_witness :
  prop (extractMetadataFromList (H := demoHost) "! Expires: 1h" ["Expires"]) "expires"
  = VNum (mathMax (parseExpires "1h") (1 # 2))
  /\ (1 # 2 <= 4)%Q
  /\ prop (extractMetadataFromList (H := demoHost) "# Diff-Expires: 2 h"
                                   ["Diff-Expires"]) "diffExpires"
     = VNum (mathMax (parseExpires "2 h") (1 # 4))
  /\ (1 # 4 <= 1 # 4)%Q.
Proof.
  split; [|split; [|split]].
  - apply (proj1 (proj2 (parseExpires_values_and_floors (H := demoHost)
                           "! Expires: 1h" ["Expires"]))).
    reflexivity.
  - apply (proj1 (proj2 (proj2 (parseExpires_values_and_floors (H := demoHost)
                                  "! Expires: 4 days" ["Expires"])))).
    reflexivity.
  - apply (proj1 (proj2 (proj2 (proj2 (parseExpires_values_and_floors
                                         (H := demoHost) "# Diff-Expires: 2 h"
                                         ["Diff-Expires"]))))).
    reflexivity.
  - apply (proj2 (proj2 (proj2 (proj2 (parseExpires_values_and_floors
                                         (H := demoHost) "# Diff-Expires: 2 h"
                                         ["Diff-Expires"]))))).
    reflexivity.
Defined.

Lemma parseExpires_unit (s digits : string) (u : option ascii) :
  reExpires s = Some (digits, u) ->
  parseExpires s =
  if bool_decide (u = Some "h"%char)
  then (inject_Z (Qceiling (inject_Z (Str.parseDigits digits 0) / 6)) / 4)%Q
  else inject_Z (Str.parseDigits digits 0).
Proof.
  intros Hm. unfold parseExpires. rewrite Hm.
  case_bool_decide as Hu.
  - by rewrite Hu.
  - destruct u as [c|]; [|done].
    destruct c as [[] [] [] [] [] [] [] []]; try done.
Qed.

Lemma reExpires_unit (s digits : string) (u : ascii) :
  reExpires s = Some (digits, Some u) ->
  Str.toLower u = "d"%char \/ Str.toLower u = "h"%char.
Proof.
  induction s as [|c t IH]; simpl; [done|].
  destruct (Str.isDigit c); [|exact IH].
  destruct (Str.span Str.isDigit t) as [a b].
  destruct (Str.dropWhile Str.isSpace b) as [|x y]; [done|].
  destruct (Ascii.eqb_spec (Str.toLower x) "d") as [Hd|Hd]; simpl.
  - intros [= _ <-]. by left.
  - destruct (Ascii.eqb_spec (Str.toLower x) "h") as [Hh|Hh]; [|done].
    intros [= _ <-]. by right.
Qed.

(** C10: the unit letter of [parseExpires] is matched in either case, but
    hours are converted to days only for a lower-case [h]: ["12H"] matches
    with unit [H] and yields 12, not 0.5, while ["12h"] yields 0.5. *)
Theorem parseExpires_upper_case_hours (s digits : string) (u : ascii) :
  (reExpires "12H" = Some ("12", Some "H"%char)
   /\ parseExpires "12H" == 12 /\ ~ parseExpires "12H" == 1 # 2
   /\ parseExpires "12h" == 1 # 2)%Q
  /\ (reExpires s = Some (digits, Some u) ->
      (Str.toLower u = "d"%char \/ Str.toLower u = "h"%char)
      /\ (u = "h"%char ->
          parseExpires s
          = (inject_Z (Qceiling (inject_Z (Str.parseDigits digits 0) / 6)) / 4)%Q)
      /\ (u ≠ "h"%char -> parseExpires s = inject_Z (Str.parseDigits digits 0))).
Proof.
  split; [repeat split; try reflexivity; discriminate|].
  intros Hm. split; [by eapply reExpires_unit|].
  rewrite (parseExpires_unit _ _ _ Hm). split.
  - intros ->. by rewrite bool_decide_eq_true_2.
  - intros Hu. rewrite bool_decide_eq_false_2; [done|]. by intros [= ->].
Qed.

Lemma parseExpires_upper_case_hours_witness :
  parseExpires "3 H" = inject_Z (Str.parseDigits "3" 0)
  /\ parseExpires "13h"
     = (inject_Z (Qceiling (inject_Z (Str.parseDigits "13" 0) / 6)) / 4)%Q
  /\ (Str.toLower "H" = "d"%char \/ Str.toLower "H" = "h"%char).
Proof.
  split; [|split].
  - apply (proj2 (parseExpires_upper_case_hours "3 H" "3" "H")); [reflexivity|].
    discriminate.
  - apply (proj2 (parseExpires_upper_case_hours "13h" "13" "h")); reflexivity.
  - apply (proj2 (parseExpires_upper_case_hours "3 H" "3" "H")). reflexivity.
Defined.

(** ** Fetcher *)

Lemma append_assoc (a b c : string) : (a ++ b) ++ c = a ++ (b ++ c).
Proof.
  induction a as [|x a IH]; [done|].
  change (String x ((a ++ b) ++ c) = String x (a ++ (b ++ c))). by f_equal.
Qed.

Lemma fetchTextSettle_html (url : string) (details : Obj) (r : string) :
  prop details "content" = VStr r ->
  Str.startsWith "<" (Str.trim r) = true ->
  let returned := fetchTextSettle url (Resolved details) in
  if Str.endsWith ">" (Str.trim r)
  then prop returned "content" = VStr ""
       /\ prop returned "error" = VStr notATextFile
  else prop returned "content" = VStr r
       /\ prop returned "error" = prop details "error".
Proof.
  intros Hc Hs. cbv zeta. unfold fetchTextSettle. rewrite Hc.
  assert (Hr : r ≠ "").
  { intros ->. discriminate. }
  unfold stringIsNotEmpty.
  destruct (String.eqb_spec r ""); [contradiction|]. simpl negb. cbv iota.
  rewrite Hc. simpl asString. rewrite Hs. simpl andb.
  destruct (Str.endsWith ">" (Str.trim r)).
  - split.
    + rewrite prop_setProp_ne by done. rewrite prop_setProp_ne by done.
      by rewrite prop_setProp_eq.
    + rewrite prop_setProp_ne by done. by rewrite prop_setProp_eq.
  - split.
    + by rewrite prop_setProp_ne.
    + by rewrite prop_setProp_ne.
Qed.

(** C6: when the request succeeds with a text whose trimmed form starts
    with [<] and ends with [>], [fetchText] returns an empty content and the
    error ['assets.fetchText(): Not a text file']; when the trimmed form
    starts with [<] but does not end with [>], as for ["<!"], the content is
    returned as received and no error is added. *)
Theorem fetchText_rejects_html `{Host} (remoteServerFriendly : bool) (now : Z)
    (url : string) (details : Obj) (r : string) :
  fetch (actualUrl remoteServerFriendly now url) = Resolved details ->
  prop details "content" = VStr r ->
  Str.startsWith "<" (Str.trim r) = true ->
  let returned := fetchText remoteServerFriendly now url in
  (Str.endsWith ">" (Str.trim r) = true ->
   prop returned "content" = VStr ""
   /\ prop returned "error" = VStr notATextFile)
  /\ (Str.endsWith ">" (Str.trim r) = false ->
      prop returned "content" = VStr r
      /\ prop returned "error" = prop details "error").
Proof.
  intros Hf Hc Hs. cbv zeta. unfold fetchText. rewrite Hf.
  pose proof (fetchTextSettle_html url details r Hc Hs) as Hh. cbv zeta in Hh.
  split; intros He; rewrite He in Hh; exact Hh.
Qed.

Definition demoPageDetails : Obj :=
  setProp "resourceTime" (VNum 0)
    (setProp "content" (VStr "<html></html>")
       (setProp "statusText" (VStr "OK")
          (setProp "statusCode" (VNum 200)
             (setProp "url" (VStr "https://h/page.txt?_=4") ∅)))).

Definition demoBangDetails : Obj :=
  setProp "resourceTime" (VNum 0)
    (setProp "content" (VStr "<!")
       (setProp "statusText" (VStr "OK")
          (setProp "statusCode" (VNum 200)
             (setProp "url" (VStr "https://h/bang.txt?_=4") ∅)))).

Lemma fetchText_rejects_html_witness :
  (prop (fetchText (H := demoHost) false demoNow "https://h/page.txt") "content"
   = VStr ""
   /\ prop (fetchText (H := demoHost) false demoNow "https://h/page.txt") "error"
      = VStr notATextFile)
  /\ (prop (fetchText (H := demoHost) false demoNow "https://h/bang.txt") "content"
      = VStr "<!"
      /\ prop (fetchText (H := demoHost) false demoNow "https://h/bang.txt") "error"
         = prop demoBangDetails "error").
Proof.
  split.
  - apply (proj1 (fetchText_rejects_html (H := demoHost) false demoNow
                    "https://h/page.txt" demoPageDetails "<html></html>"
                    eq_refl eq_refl eq_refl)).
    reflexivity.
  - apply (proj2 (fetchText_rejects_html (H := demoHost) false demoNow
                    "https://h/bang.txt" demoBangDetails "<!"
                    eq_refl eq_refl eq_refl)).
    reflexivity.
Defined.

(** C8: for an external URL fetched while [remoteServerFriendly] is off,
    [fetchText] requests the URL followed by [?] (or [&] when it already has
    a [?]) and [_=<token>], the token being [floor(now/1000) % 86413] when
    [updateAssetBypassBrowserCache] is set and [floor(now/3600000) % 13]
    otherwise; for [now >= 0] the remainder is the mathematical modulo. *)
Theorem fetchText_cache_bust_token `{Host} (now : Z) (url : string) :
  isExternalPath url = true ->
  let token :=
    if updateAssetBypassBrowserCache
    then Z.rem (now / 1000) 86413
    else Z.rem (now / 3600000) 13 in
  actualUrl false now url
  = url ++ (if Str.contains "?" url then "&" else "?") ++ "_=" ++ Str.ofZ token
  /\ fetchText false now url
     = fetchTextSettle url
         (fetch (url ++ (if Str.contains "?" url then "&" else "?")
                     ++ "_=" ++ Str.ofZ token))
  /\ (0 <= now ->
      token = if updateAssetBypassBrowserCache
              then (now / 1000) mod 86413
              else (now / 3600000) mod 13).
Proof.
  intros Hext. cbv zeta.
  assert (Hu : actualUrl false now url
               = url ++ (if Str.contains "?" url then "&" else "?")
                     ++ "_=" ++ Str.ofZ (cacheBypassToken now)).
  { unfold actualUrl. rewrite Hext. simpl andb. cbv iota.
    destruct (Str.contains "?" url); by rewrite append_assoc. }
  unfold cacheBypassToken in Hu.
  split; [exact Hu|]. split.
  - unfold fetchText. by rewrite Hu.
  - intros Hnow. destruct updateAssetBypassBrowserCache.
    + apply Z.rem_mod_nonneg; [apply Z.div_pos; lia | lia].
    + apply Z.rem_mod_nonneg; [apply Z.div_pos; lia | lia].
Qed.

Lemma fetchText_cache_bust_token_witness :
  actualUrl (H := demoHost) false demoNow "https://h/old.txt"
  = "https://h/old.txt?_=4"
  /\ Z.rem (demoNow / 3600000) 13 = (demoNow / 3600000) mod 13.
Proof.
  split.
  - apply (proj1 (fetchText_cache_bust_token (H := demoHost) demoNow
                    "https://h/old.txt" eq_refl)).
  - apply (proj2 (proj2 (fetchText_cache_bust_token (H := demoHost) demoNow
                           "https://h/old.txt" eq_refl))).
    unfold demoNow. lia.
Defined.

(** ** Cache registry *)

(** C9: when [assetCacheRead] finds both the entry of the cache registry
    and a stored blob for the key, it sets the entry's [readTime] to the
    current time whatever [updateReadTime] is; the flag only decides whether
    the debounced save of the registry is scheduled: the state left with
    the flag set is the state left without it, plus the armed timer. *)
Theorem assetCacheRead_always_sets_readTime (now : Z) (assetKey : string)
    (updateReadTime : bool) (st : State) (entry : Obj) (blob : Val) :
  assetCacheRegistry st !! assetKey = Some entry ->
  cacheStorage st !! internalKey assetKey = Some blob ->
  let st' := snd (assetCacheRead now assetKey updateReadTime st) in
  assetCacheRegistry st' !! assetKey
  = Some (setProp "readTime" (timeVal now) entry)
  /\ (forall e, assetCacheRegistry st' !! assetKey = Some e ->
                prop e "readTime" = timeVal now)
  /\ cacheSaveTimer st' = (if updateReadTime then true else cacheSaveTimer st)
  /\ savedCacheRegistry st' = savedCacheRegistry st
  /\ cacheStorage st' = cacheStorage st
  /\ snd (assetCacheRead now assetKey true st)
     = saveAssetCacheRegistry true (snd (assetCacheRead now assetKey false st)).
Proof.
  intros He Hb. cbv zeta. unfold assetCacheRead. rewrite Hb, He.
  destruct updateReadTime; simpl; rewrite lookup_insert_eq;
    (repeat split; try done; intros e [= <-]; apply prop_setProp_eq).
Qed.

Definition demoEntry : Obj :=
  setProp "resourceTime" (VNum 2000)
    (setProp "readTime" (VNum 5) (setProp "writeTime" (VNum 5) ∅)).

(** a cache holding one list, written at time 5 from a resource of time
    2000, and a source registry naming its URL *)
Definition demoState : State :=
  mkState
    [("easylist",
      setProp "hasRemoteURL" (VBool true)
        (setProp "hasLocalURL" (VBool false)
           (setProp "contentURL" (VArr ["https://h/old.txt"]) ∅)))]
    {[ "easylist" := demoEntry ]}
    {[ "cache/easylist" := VStr "||cached^" ]}
    None false ∅ [] false false ∅ [] updaterAssetDelayDefault false None.

Lemma assetCacheRead_always_sets_readTime_witness :
  assetCacheRegistry (snd (assetCacheRead 77 "easylist" false demoState)) !! "easylist"
  = Some (setProp "readTime" (timeVal 77) demoEntry).
Proof.
  apply (proj1 (assetCacheRead_always_sets_readTime 77 "easylist" false demoState
                  demoEntry (VStr "||cached^") eq_refl eq_refl)).
Defined.

(** ** Remote refresher *)

(** the fetched copy is older than the cached one, both times being
    positive *)
Definition olderThanCache (result cacheDetails : Obj) : Prop :=
  exists n c, prop result "resourceTime" = VNum n
              /\ prop cacheDetails "resourceTime" = VNum c
              /\ (0 < n)%Q /\ (0 < c)%Q /\ (n < c)%Q.

(** a fetch that succeeded (its content is not empty) with an older copy *)
Definition staleResult (result cacheDetails : Obj) : Prop :=
  stringIsNotEmpty (prop result "content") = true
  /\ olderThanCache result cacheDetails.

Lemma Qeqb0_pos (q : Q) : (0 < q)%Q -> Qeqb0 q = false.
Proof.
  intros Hq. unfold Qeqb0. destruct (Qeq_bool q 0) eqn:E; [|done].
  apply Qeq_bool_iff in E. rewrite E in Hq. by apply Qlt_irrefl in Hq.
Qed.

Lemma Qltb_lt (a b : Q) : (a < b)%Q -> Qltb a b = true.
Proof.
  intros Hab. unfold Qltb. destruct (Qle_bool b a) eqn:E; [|done].
  apply Qle_bool_iff in E. by apply Qle_not_lt in E.
Qed.

Lemma resourceIsStale_older (result cacheDetails : Obj) :
  olderThanCache result cacheDetails -> resourceIsStale result cacheDetails = true.
Proof.
  intros (n & c & Hn & Hc & Hn0 & Hc0 & Hlt). unfold resourceIsStale.
  rewrite Hn, Hc, (Qeqb0_pos n Hn0), (Qeqb0_pos c Hc0). by apply Qltb_lt.
Qed.

Lemma getRemoteVisit_older `{Host} (net : Network) (now : Z) (assetKey : string)
    (ref : DetailsRef) (cacheDetails : Obj) (contentURL : string) (error : Val)
    (stale : bool) (st : State) :
  olderThanCache
    (remoteFetch net
       (strictEq (prop (deref assetKey ref st) "content") (VStr "filters"))
       (remoteServerFriendly st) (remoteURL assetKey contentURL))
    cacheDetails ->
  exists error' stale',
    getRemoteVisit net now assetKey ref cacheDetails contentURL error stale st
    = Next error' stale' st.
Proof.
  intros Hold. unfold getRemoteVisit.
  destruct (isExternalPath contentURL); simpl negb; cbv iota; [|eauto].
  cbv zeta.
  destruct (stringIsNotEmpty _); simpl negb; cbv iota; [|eauto].
  rewrite (resourceIsStale_older _ _ Hold). eauto.
Qed.

Lemma getRemoteVisit_stale `{Host} (net : Network) (now : Z) (assetKey : string)
    (ref : DetailsRef) (cacheDetails : Obj) (contentURL : string) (error : Val)
    (stale : bool) (st : State) :
  isExternalPath contentURL = true ->
  staleResult
    (remoteFetch net
       (strictEq (prop (deref assetKey ref st) "content") (VStr "filters"))
       (remoteServerFriendly st) (remoteURL assetKey contentURL))
    cacheDetails ->
  getRemoteVisit net now assetKey ref cacheDetails contentURL error stale st
  = Next VUndefined true st.
Proof.
  intros Hext [Hne Hold]. unfold getRemoteVisit. rewrite Hext. simpl negb.
  cbv iota zeta. rewrite Hne. simpl negb. cbv iota.
  by rewrite (resourceIsStale_older _ _ Hold).
Qed.

Lemma getRemoteLoop_all_stale `{Host} (net : Network) (now : Z) (assetKey : string)
    (ref : DetailsRef) (cacheDetails : Obj) (st : State)
    (contentURLs : list string) (error : Val) (stale : bool) :
  Forall (fun u =>
            staleResult
              (remoteFetch net
                 (strictEq (prop (deref assetKey ref st) "content") (VStr "filters"))
                 (remoteServerFriendly st) (remoteURL assetKey u))
              cacheDetails)
         (List.filter isExternalPath contentURLs) ->
  getRemoteLoop net now assetKey ref cacheDetails contentURLs error stale st
  = match List.filter isExternalPath contentURLs with
    | [] => Next error stale st
    | _ :: _ => Next VUndefined true st
    end.
Proof.
  revert error stale.
  induction contentURLs as [|u us IH]; intros error stale Hall; [done|].
  simpl in *. destruct (isExternalPath u) eqn:Hext.
  - inversion Hall as [|? ? Hu Hus]; subst.
    rewrite (getRemoteVisit_stale _ _ _ _ _ _ _ _ _ Hext Hu).
    rewrite (IH _ _ Hus). by destruct (List.filter isExternalPath us).
  - unfold getRemoteVisit at 1. rewrite Hext. simpl negb. cbv iota.
    by apply IH.
Qed.

Lemma assign_cache (assetKey : string) (ref : DetailsRef) (k : string) (v : Val)
    (st : State) :
  assetCacheRegistry (snd (assign assetKey ref k v st)) = assetCacheRegistry st
  /\ cacheStorage (snd (assign assetKey ref k v st)) = cacheStorage st.
Proof. by destruct ref. Qed.

Lemma strictEq_VNum (c : Q) (v : Val) :
  strictEq (VNum c) v = true -> exists w, v = VNum w /\ (w == c)%Q.
Proof.
  destruct v; simpl; try done. intros E. apply Qeq_bool_iff in E.
  eexists. split; [done|]. by symmetry.
Qed.

(** what [assetCacheSetDetails(assetKey, { writeTime: c })] leaves *)
Lemma assetCacheSetDetails_writeTime (assetKey : string) (c : Q) (st : State)
    (entry : Obj) :
  assetCacheRegistry st !! assetKey = Some entry ->
  let st' := assetCacheSetDetails assetKey (setProp "writeTime" (VNum c) ∅) st in
  cacheStorage st' = cacheStorage st
  /\ exists entry',
       assetCacheRegistry st' = <[assetKey := entry']> (assetCacheRegistry st)
       /\ (exists w, prop entry' "writeTime" = VNum w /\ (w == c)%Q)
       /\ (forall k, k ≠ "writeTime" -> entry' !! k = entry !! k).
Proof.
  intros He. cbv zeta.
  assert (Hf : fold_left setDetail
                 (map_to_list (setProp "writeTime" (VNum c) ∅)) (entry, false)
               = setDetail (entry, false) ("writeTime", VNum c)).
  { unfold setProp. rewrite insert_empty, map_to_list_singleton. reflexivity. }
  unfold assetCacheSetDetails. rewrite He, Hf.
  unfold setDetail. simpl isUndefined. cbv iota.
  destruct (strictEq (VNum c) (prop entry "writeTime")) eqn:E.
  - cbn [cacheStorage withCache saveAssetCacheRegistry assetCacheRegistry savedCacheRegistry cacheSaveTimer].
    split; [reflexivity|]. exists entry. split; [reflexivity|]. split.
    + apply strictEq_VNum. exact E.
    + intros k _. reflexivity.
  - cbn [cacheStorage withCache saveAssetCacheRegistry assetCacheRegistry savedCacheRegistry cacheSaveTimer].
    split; [reflexivity|]. exists (setProp "writeTime" (VNum c) entry).
    split; [reflexivity|]. split.
    + exists c. rewrite prop_setProp_eq. split; reflexivity.
    + intros k Hk. unfold setProp. rewrite lookup_insert_ne; [reflexivity|].
      intros Heq. apply Hk. symmetry. exact Heq.
Qed.

(** C1: in [getRemote], a fetched result whose [resourceTime] is positive
    and lower than the positive [resourceTime] of the cache entry is passed
    over: the turn of the loop leaves the whole state, hence the cached
    content and the entry, as they were.  When the asset has at least one
    external URL and every fetch succeeds with such an older copy,
    [getRemote] returns an empty content and no error, leaves the content
    blobs untouched and changes, in the cache entry, nothing but
    [writeTime], which becomes the cached [resourceTime]. *)
Theorem getRemote_skips_stale `{Host} (net : Network) (now : Z)
    (assetKey : string) (st : State) (entry : Obj) :
  assetCacheRegistry st !! assetKey = Some entry ->
  let assetDetails := default ∅ (Dict.lookup assetKey (assetSourceRegistry st)) in
  let resultOf contentURL :=
    remoteFetch net (strictEq (prop assetDetails "content") (VStr "filters"))
                (remoteServerFriendly st) (remoteURL assetKey contentURL) in
  let fetched :=
    List.filter isExternalPath
                (remoteContentURLs assetDetails (remoteServerFriendly st)) in
  (forall ref contentURL error stale,
      deref assetKey ref st = assetDetails ->
      olderThanCache (resultOf contentURL) entry ->
      exists error' stale',
        getRemoteVisit net now assetKey ref entry contentURL error stale st
        = Next error' stale' st)
  /\ (fetched ≠ [] ->
      Forall (fun contentURL => staleResult (resultOf contentURL) entry) fetched ->
      let returned := getRemote net now assetKey st in
      prop (fst returned) "content" = VStr ""
      /\ fst returned !! "error" = None
      /\ cacheStorage (snd returned) = cacheStorage st
      /\ exists entry',
           assetCacheRegistry (snd returned)
           = <[assetKey := entry']> (assetCacheRegistry st)
           /\ (exists w c, prop entry "resourceTime" = VNum c
                           /\ prop entry' "writeTime" = VNum w /\ (w == c)%Q)
           /\ (forall k, k ≠ "writeTime" -> entry' !! k = entry !! k)).
Proof.
  intros He. cbv zeta. split.
  - intros ref contentURL error stale Hd Hold.
    apply getRemoteVisit_older. rewrite Hd. exact Hold.
  - intros Hne Hall. unfold getRemote. rewrite He.
    set (ref := match Dict.lookup assetKey (assetSourceRegistry st) with
                | Some _ => InRegistry
                | None => Detached ∅
                end).
    assert (Hd : deref assetKey ref st
                 = default ∅ (Dict.lookup assetKey (assetSourceRegistry st))).
    { subst ref. unfold deref.
      destruct (Dict.lookup assetKey (assetSourceRegistry st)); reflexivity. }
    rewrite Hd. cbn [from_option id].
    rewrite getRemoteLoop_all_stale by (rewrite Hd; exact Hall).
    destruct (List.filter isExternalPath _) as [|u us] eqn:Hf; [contradiction|].
    inversion Hall as [|? ? [_ (n & c & _ & Hc & _)] _]; subst.
    cbn [isUndefined negb]. cbv iota. rewrite Hc.
    destruct (assetCacheSetDetails_writeTime assetKey c st entry He)
      as (Hblobs & entry' & Hreg & (w & Hw & Hwc) & Hother).
    unfold remoteReport. cbn [truthy]. cbv iota. cbn [fst snd].
    destruct (assign_cache assetKey ref "lastError" VUndefined
                (assetCacheSetDetails assetKey (setProp "writeTime" (VNum c) ∅) st))
      as [Hr Hs].
    rewrite Hr, Hs. split; [apply prop_setProp_eq|]. split.
    { unfold setProp. rewrite lookup_insert_ne by discriminate.
      rewrite lookup_insert_ne by discriminate. apply lookup_empty. }
    split; [exact Hblobs|]. exists entry'. split; [exact Hreg|].
    split; [|exact Hother]. exists w, c. auto.
Qed.

(** the network of the examples: [assets.fetchText] through the host, and
    the assembler run for at most eight rounds *)
Definition demoNet : Network := {|
  viaText friendly url := fetchText (H := demoHost) friendly demoNow url;
  viaFilterList friendly url :=
    match fetchFilterList (H := demoHost)
            (fetchText (H := demoHost) friendly demoNow) 8 url with
    | Some (details, _) => details
    | None => failureDetails url (VStr "no answer")
    end
|}.

Lemma getRemote_skips_stale_witness :
  (exists error' stale',
     getRemoteVisit (H := demoHost) demoNet demoNow "easylist" InRegistry demoEntry
                    "https://h/old.txt" VUndefined false demoState
     = Next error' stale' demoState)
  /\ let returned := getRemote (H := demoHost) demoNet demoNow "easylist" demoState in
     prop (fst returned) "content" = VStr ""
     /\ fst returned !! "error" = None
     /\ cacheStorage (snd returned) = cacheStorage demoState
     /\ exists entry',
          assetCacheRegistry (snd returned)
          = <[ "easylist" := entry' ]> (assetCacheRegistry demoState)
          /\ (exists w c, prop demoEntry "resourceTime" = VNum c
                          /\ prop entry' "writeTime" = VNum w /\ (w == c)%Q)
          /\ (forall k, k ≠ "writeTime" -> entry' !! k = demoEntry !! k).
Proof.
  split.
  - apply (proj1 (getRemote_skips_stale (H := demoHost) demoNet demoNow
                    "easylist" demoState demoEntry eq_refl)
                 InRegistry "https://h/old.txt" VUndefined false eq_refl).
    exists 1000%Q, 2000%Q.
    split; [vm_compute; reflexivity|]. split; [vm_compute; reflexivity|].
    repeat split.
  - apply (proj2 (getRemote_skips_stale (H := demoHost) demoNet demoNow
                    "easylist" demoState demoEntry eq_refl)).
    + vm_compute. discriminate.
    + match goal with
      | |- Forall _ ?l => let l' := eval vm_compute in l in change l with l'
      end.
      constructor; [|constructor]. split; [vm_compute; reflexivity|].
      exists 1000%Q, 2000%Q.
      split; [vm_compute; reflexivity|]. split; [vm_compute; reflexivity|].
      repeat split.
Defined.

(** The stale-remote scenario: the cache holds a copy of resource time
    2000, the remote copy says 1000. *)
Example getRemote_stale_scenario :
  let returned := getRemote (H := demoHost) demoNet demoNow "easylist" demoState in
  map_to_list (fst returned) = [("content", VStr ""); ("assetKey", VStr "easylist")]
  /\ cacheStorage (snd returned) !! "cache/easylist" = Some (VStr "||cached^")
  /\ (map_to_list <$> assetCacheRegistry (snd returned) !! "easylist")
     = Some (map_to_list (setProp "writeTime" (VNum 2000) demoEntry)).
Proof. vm_compute. repeat split. Qed.

(** ** List assembler *)

(** From one point of the include scan to a later one: the set of
    scheduled sublists and the parts only grow, every fetch added is
    scheduled, and every sublist newly scheduled has its fetch among the
    parts. *)
Definition grows (seen : gset string) (acc : list Part)
    (seen' : gset string) (acc' : list Part) : Prop :=
  seen ⊆ seen'
  /\ (forall u, PFetch u ∈ acc -> PFetch u ∈ acc')
  /\ (forall u, PFetch u ∈ acc' -> PFetch u ∈ acc \/ u ∈ seen')
  /\ (forall u, u ∈ seen' -> u ∈ seen \/ PFetch u ∈ acc').

Lemma grows_refl (seen : gset string) (acc : list Part) : grows seen acc seen acc.
Proof. unfold grows. naive_solver. Qed.

Lemma grows_trans (s0 s1 s2 : gset string) (a0 a1 a2 : list Part) :
  grows s0 a0 s1 a1 -> grows s1 a1 s2 a2 -> grows s0 a0 s2 a2.
Proof.
  intros (A1 & A2 & A3 & A4) (B1 & B2 & B3 & B4). unfold grows.
  split; [set_solver|]. split; [naive_solver|]. split.
  - intros u Hu. destruct (B3 u Hu) as [Hu1|Hu2]; [|by right].
    destruct (A3 u Hu1) as [?|?]; [by left|right; set_solver].
  - intros u Hu. destruct (B4 u Hu) as [Hu1|Hu2]; [|by right].
    destruct (A4 u Hu1) as [?|?]; [by left|right; auto].
Qed.

Lemma grows_text (seen : gset string) (acc : list Part) (s : string) :
  grows seen acc seen (acc ++ [PStr s]).
Proof.
  unfold grows. split; [done|]. split.
  { intros u Hu. apply elem_of_app. by left. }
  split; [|by left].
  intros u [Hu|Hu]%elem_of_app; [by left|].
  apply list_elem_of_singleton in Hu. discriminate.
Qed.

Lemma includeStep_grows `{Host} (parentURL slice : string) (sc : Scan)
    (m : IncludeMatch) :
  grows (sublistURLs sc) (out sc)
        (sublistURLs (includeStep parentURL slice sc m))
        (out (includeStep parentURL slice sc m)).
Proof.
  unfold includeStep.
  destruct (toParsedURL (path m)); [apply grows_refl|].
  destruct (Str.contains ".." (path m)); [apply grows_refl|].
  destruct (resolveSubURL parentURL (path m)) as [subURL|]; [|apply grows_refl].
  case_bool_decide; [apply grows_refl|].
  cbn [sublistURLs out]. unfold grows.
  split; [apply union_subseteq_r|]. split.
  { intros u Hu. apply elem_of_app. by left. }
  split.
  - intros u [Hu|Hu]%elem_of_app; [by left|]. right.
    rewrite !elem_of_cons, elem_of_nil in Hu.
    destruct Hu as [Hu|[Hu|[Hu|[Hu|[]]]]]; try discriminate.
    injection Hu as ->. apply elem_of_union. left. by apply elem_of_singleton.
  - intros u [Hu|Hu]%elem_of_union; [|by left]. right.
    apply elem_of_singleton in Hu as ->.
    apply elem_of_app. right. rewrite !elem_of_cons. auto.
Qed.

Lemma includeSteps_grows `{Host} (parentURL slice : string)
    (matches : list IncludeMatch) (sc : Scan) :
  let sc' := fold_left (includeStep parentURL slice) matches sc in
  grows (sublistURLs sc) (out sc) (sublistURLs sc') (out sc').
Proof.
  revert sc. induction matches as [|m ms IH]; intros sc; [apply grows_refl|].
  cbn [fold_left]. eapply grows_trans; [apply includeStep_grows | apply IH].
Qed.

Lemma scanSlice_grows `{Host} (rootDefined : bool) (parentURL slice : string)
    (seen : gset string) (acc : list Part) :
  grows seen acc (scanSlice rootDefined parentURL slice seen acc).1
                 (scanSlice rootDefined parentURL slice seen acc).2.
Proof.
  unfold scanSlice. cbn [fst snd].
  eapply grows_trans; [|apply grows_text].
  apply (includeSteps_grows parentURL slice _ (mkScan 0 seen acc)).
Qed.

Lemma scanSlices_grows `{Host} (rootDefined : bool) (parentURL content : string)
    (slices : list nat) (active : bool) (seen : gset string) (acc : list Part) :
  grows seen acc
        (scanSlices rootDefined parentURL content active slices seen acc).1
        (scanSlices rootDefined parentURL content active slices seen acc).2.
Proof.
  revert active seen acc.
  induction slices as [|a rest IH]; intros active seen acc; [apply grows_refl|].
  destruct rest as [|b rest]; [apply grows_refl|].
  cbn [scanSlices]. destruct active.
  - pose proof (scanSlice_grows rootDefined parentURL (Str.slice a b content)
                                seen acc) as Hs.
    destruct (scanSlice _ _ _ _ _) as [seen1 acc1].
    eapply grows_trans; [exact Hs | apply IH].
  - eapply grows_trans; [apply grows_text | apply IH].
Qed.

Lemma processIncludeDirectives_grows `{Host} (rootDefined : bool)
    (results : list Result) (seen : gset string) :
  grows seen [] (processIncludeDirectives rootDefined results seen).1
                (processIncludeDirectives rootDefined results seen).2.
Proof.
  unfold processIncludeDirectives.
  assert (Hgen : forall (results : list Result) (s0 : gset string)
                        (a0 : list Part) (p : gset string * list Part),
             grows s0 a0 p.1 p.2 ->
             grows s0 a0
               (fold_left
                  (fun '(seen, acc) result =>
                     match result with
                     | RStr s => (seen, (acc ++ [PStr s])%list)
                     | RObj details =>
                         scanSlices rootDefined (asString (prop details "url"))
                           (asString (prop details "content")) true
                           (splitter (asString (prop details "content")))
                           seen acc
                     end) results p).1
               (fold_left
                  (fun '(seen, acc) result =>
                     match result with
                     | RStr s => (seen, (acc ++ [PStr s])%list)
                     | RObj details =>
                         scanSlices rootDefined (asString (prop details "url"))
                           (asString (prop details "content")) true
                           (splitter (asString (prop details "content")))
                           seen acc
                     end) results p).2).
  { clear results. induction results as [|r rs IH]; intros s0 a0 [s1 a1] Hg;
      [exact Hg|].
    cbn [fold_left]. apply IH. destruct r as [s|details].
    - eapply grows_trans; [exact Hg | apply grows_text].
    - eapply grows_trans; [exact Hg | apply scanSlices_grows]. }
  apply (Hgen results seen [] (seen, [])). apply grows_refl.
Qed.

(** the fetch of [u] settles with an error *)
Definition fetchFailed (ft : string -> Obj) (u : string) : Prop :=
  isUndefined (prop (ft u) "error") = false.

(** the loop invariant: the fetches among the parts are the main list or
    scheduled sublists, and each of these is either still among the parts
    or settled without error *)
Definition settledOrPending (ft : string -> Obj) (mainlistURL : string)
    (parts : list Part) (seen : gset string) : Prop :=
  (forall u, PFetch u ∈ parts -> u = mainlistURL \/ u ∈ seen)
  /\ (forall u, u = mainlistURL \/ u ∈ seen ->
                PFetch u ∈ parts \/ ~ fetchFailed ft u).

(** what the assembler may return: the error object of a failed fetch, or
    a success when no fetch failed *)
Definition atomicResult (ft : string -> Obj) (mainlistURL : string)
    (details : Obj) (seen : gset string) : Prop :=
  (exists u, (u = mainlistURL \/ u ∈ seen) /\ fetchFailed ft u
             /\ details = failureDetails mainlistURL (prop (ft u) "error"))
  \/ ((forall u, u = mainlistURL \/ u ∈ seen -> ~ fetchFailed ft u)
      /\ exists resourceTime content,
           details = successDetails mainlistURL resourceTime content).

Lemma find_hasError_Some (ft : string -> Obj) (parts : list Part) (part : Result) :
  List.find hasError (awaitAll ft parts) = Some part ->
  exists u, PFetch u ∈ parts /\ fetchFailed ft u
            /\ errorOf part = prop (ft u) "error".
Proof.
  induction parts as [|p ps IH]; [discriminate|].
  cbn [awaitAll List.map List.find]. destruct p as [s|u]; cbn [hasError].
  - intros Hf. destruct (IH Hf) as (u & Hu & Hfail & He).
    exists u. split; [by apply elem_of_cons; right | done].
  - destruct (isUndefined (prop (ft u) "error")) eqn:E; cbn [negb].
    + intros Hf. destruct (IH Hf) as (u' & Hu & Hfail & He).
      exists u'. split; [by apply elem_of_cons; right | done].
    + intros [= <-]. exists u. split; [apply elem_of_cons; by left|]. done.
Qed.

Lemma find_hasError_None (ft : string -> Obj) (parts : list Part) :
  List.find hasError (awaitAll ft parts) = None ->
  forall u, PFetch u ∈ parts -> ~ fetchFailed ft u.
Proof.
  induction parts as [|p ps IH]; intros Hf u Hu.
  - by apply elem_of_nil in Hu.
  - cbn [awaitAll List.map List.find] in Hf.
    destruct p as [s|u0]; cbn [hasError] in Hf.
    + apply elem_of_cons in Hu as [Hu|Hu]; [discriminate|]. by apply IH.
    + unfold fetchFailed.
      destruct (isUndefined (prop (ft u0) "error")) eqn:E; cbn [negb] in Hf;
        [|discriminate].
      apply elem_of_cons in Hu as [[= ->]|Hu]; [by rewrite E|]. by apply IH.
Qed.

Lemma existsb_isPending_false (parts : list Part) (u : string) :
  existsb isPending parts = false -> PFetch u ∈ parts -> False.
Proof.
  induction parts as [|p ps IH]; intros He Hu; [by apply elem_of_nil in Hu|].
  cbn [existsb] in He. apply orb_false_iff in He as [Hp Hps].
  apply elem_of_cons in Hu as [<-|Hu]; [discriminate | by apply IH].
Qed.

Lemma iteration_invariant `{Host} (ft : string -> Obj) (mainlistURL : string)
    (rootDefined : bool) (parts : list Part) (resourceTime : Q)
    (seen : gset string) :
  settledOrPending ft mainlistURL parts seen ->
  match iteration ft mainlistURL rootDefined parts resourceTime seen with
  | Return details seen' => atomicResult ft mainlistURL details seen'
  | Again parts' _ seen' => settledOrPending ft mainlistURL parts' seen'
  end.
Proof.
  intros [I1 I2]. unfold iteration. cbv zeta.
  destruct (List.find hasError (awaitAll ft parts)) as [part|] eqn:Hf.
  - apply find_hasError_Some in Hf as (u & Hu & Hfail & He).
    left. exists u. rewrite He. auto.
  - pose proof (find_hasError_None ft parts Hf) as Hok.
    assert (Hall : forall u, u = mainlistURL \/ u ∈ seen -> ~ fetchFailed ft u).
    { intros u Hu. destruct (I2 u Hu) as [Hp|Hs]; [by apply Hok | exact Hs]. }
    match goal with
    | |- context [if ?b then Return _ _ else _] => destruct b
    end.
    { right. split; [exact Hall|]. eauto. }
    pose proof (processIncludeDirectives_grows rootDefined (awaitAll ft parts) seen)
      as (G1 & G2 & G3 & G4).
    destruct (processIncludeDirectives rootDefined (awaitAll ft parts) seen)
      as [seen' parts'].
    cbn [fst snd] in G1, G2, G3, G4.
    destruct (existsb isPending parts') eqn:Hp.
    + split.
      * intros u Hu. right. destruct (G3 u Hu) as [Hn|Hs]; [|exact Hs].
        by apply elem_of_nil in Hn.
      * intros u [->|Hu]; [right; apply Hall; by left|].
        destruct (G4 u Hu) as [Hs|Hq]; [right; apply Hall; by right | by left].
    + right. split; [|eauto].
      intros u [->|Hu]; [apply Hall; by left|].
      destruct (G4 u Hu) as [Hs|Hq]; [apply Hall; by right|].
      intros _. by eapply existsb_isPending_false.
Qed.

Lemma assemble_atomic `{Host} (ft : string -> Obj) (mainlistURL : string)
    (rootDefined : bool) (fuel : nat) (parts : list Part) (resourceTime : Q)
    (seen seen' : gset string) (details : Obj) :
  settledOrPending ft mainlistURL parts seen ->
  assemble ft mainlistURL rootDefined fuel parts resourceTime seen
  = Some (details, seen') ->
  atomicResult ft mainlistURL details seen'.
Proof.
  revert parts resourceTime seen.
  induction fuel as [|fuel IH]; intros parts resourceTime seen Hinv; [discriminate|].
  cbn [assemble].
  pose proof (iteration_invariant ft mainlistURL rootDefined parts resourceTime
                                  seen Hinv) as Hit.
  destruct (iteration ft mainlistURL rootDefined parts resourceTime seen)
    as [d s|ps rt s].
  - intros [= <- <-]. exact Hit.
  - by apply IH.
Qed.

Lemma iteration_fails `{Host} (ft : string -> Obj) (mainlistURL : string)
    (rootDefined : bool) (parts : list Part) (resourceTime : Q)
    (seen : gset string) (u : string) :
  PFetch u ∈ parts -> fetchFailed ft u ->
  exists u', PFetch u' ∈ parts /\ fetchFailed ft u'
             /\ iteration ft mainlistURL rootDefined parts resourceTime seen
                = Return (failureDetails mainlistURL (prop (ft u') "error")) seen.
Proof.
  intros Hu Hfail. unfold iteration. cbv zeta.
  destruct (List.find hasError (awaitAll ft parts)) as [part|] eqn:Hf.
  - apply find_hasError_Some in Hf as (u' & Hu' & Hfail' & He).
    exists u'. rewrite He. auto.
  - exfalso. by apply (find_hasError_None ft parts Hf u Hu).
Qed.

(** C3: [fetchFilterList] is atomic.  When the fetch of the main list
    settles with an error, the first iteration returns
    [{url: mainlistURL, content: '', error}] with that error; whenever a
    fetch awaited by the loop (the main list or an included sublist) settles
    with an error, that iteration returns the object built from the error of
    a failed fetch; and whatever [fetchFilterList] returns, if the main
    list or any sublist it scheduled failed, the returned object has the
    URL of the main list, an empty content and the error of a failed
    fetch. *)
Theorem fetchFilterList_atomic `{Host} (ft : string -> Obj) (mainlistURL : string) :
  (fetchFailed ft mainlistURL ->
   forall fuel,
     fetchFilterList ft (S fuel) mainlistURL
     = Some (failureDetails mainlistURL (prop (ft mainlistURL) "error"), ∅))
  /\ (forall rootDefined fuel parts resourceTime seen u,
        PFetch u ∈ parts -> fetchFailed ft u ->
        exists u', PFetch u' ∈ parts /\ fetchFailed ft u'
          /\ assemble ft mainlistURL rootDefined (S fuel) parts resourceTime seen
             = Some (failureDetails mainlistURL (prop (ft u') "error"), seen))
  /\ (forall fuel details seen u,
        fetchFilterList ft fuel mainlistURL = Some (details, seen) ->
        u = mainlistURL \/ u ∈ seen ->
        fetchFailed ft u ->
        exists u', (u' = mainlistURL \/ u' ∈ seen) /\ fetchFailed ft u'
          /\ details = failureDetails mainlistURL (prop (ft u') "error")
          /\ prop details "url" = VStr mainlistURL
          /\ prop details "content" = VStr ""
          /\ prop details "error" = prop (ft u') "error").
Proof.
  assert (Hstep : forall rootDefined fuel parts resourceTime seen u,
             PFetch u ∈ parts -> fetchFailed ft u ->
             exists u', PFetch u' ∈ parts /\ fetchFailed ft u'
               /\ assemble ft mainlistURL rootDefined (S fuel) parts resourceTime seen
                  = Some (failureDetails mainlistURL (prop (ft u') "error"), seen)).
  { intros rootDefined fuel parts resourceTime seen u Hu Hfail.
    destruct (iteration_fails ft mainlistURL rootDefined parts resourceTime seen
                              u Hu Hfail) as (u' & Hu' & Hfail' & Hit).
    exists u'. cbn [assemble]. rewrite Hit. auto. }
  split; [|split; [exact Hstep|]].
  - intros Hfail fuel. unfold fetchFilterList.
    destruct (Hstep (rootDirectoryDefined mainlistURL) fuel [PFetch mainlistURL]
                    0%Q ∅ mainlistURL) as (u' & Hu' & _ & Heq);
      [apply list_elem_of_singleton; reflexivity | exact Hfail |].
    apply list_elem_of_singleton in Hu'. injection Hu' as ->. exact Heq.
  - intros fuel details seen u Hret Hu Hfail. unfold fetchFilterList in Hret.
    apply assemble_atomic in Hret.
    + destruct Hret as [(u' & Hu' & Hfail' & ->)|[Hall _]].
      * exists u'. unfold failureDetails.
        rewrite prop_setProp_eq.
        rewrite !prop_setProp_ne by discriminate. rewrite prop_setProp_eq.
        rewrite prop_setProp_ne by discriminate. rewrite prop_setProp_eq.
        auto 10.
      * exfalso. by apply (Hall u Hu).
    + split.
      * intros v Hv. apply list_elem_of_singleton in Hv. injection Hv as ->.
        by left.
      * intros v [->|Hv]; [left; by apply list_elem_of_singleton|].
        by apply elem_of_empty in Hv.
Qed.

(** what [fetchText] returns in the examples of the assembler: a main list
    that includes two sublists, the second of which cannot be fetched *)
Definition demoLists (url : string) : Obj :=
  if String.eqb url "https://h/a.txt"
  then setProp "content"
         (VStr ("! Title: a" ++ Str.nl ++ "!#include b.txt" ++ Str.nl ++ "||a^"))
         (setProp "url" (VStr url) ∅)
  else if String.eqb url "https://h/main.txt"
  then setProp "content"
         (VStr ("!#include b.txt" ++ Str.nl ++ "!#include c.txt" ++ Str.nl))
         (setProp "url" (VStr url) ∅)
  else if String.eqb url "https://h/b.txt"
  then setProp "content" (VStr "||b^") (setProp "url" (VStr url) ∅)
  else setProp "error" (VStr ("cannot connect to " ++ url))
         (setProp "content" (VStr "") (setProp "url" (VStr url) ∅)).

Definition demoScheduled : gset string :=
  {[ "https://h/c.txt" ]} ∪ ({[ "https://h/b.txt" ]} ∪ ∅).

Lemma fetchFilterList_atomic_witness :
  fetchFilterList (H := demoHost) demoLists 1 "https://h/c.txt"
  = Some (failureDetails "https://h/c.txt"
            (prop (demoLists "https://h/c.txt") "error"), ∅)
  /\ (exists u', PFetch u' ∈ [PStr "||a^"; PFetch "https://h/c.txt"]
        /\ fetchFailed demoLists u'
        /\ assemble (H := demoHost) demoLists "https://h/main.txt" true 1
                    [PStr "||a^"; PFetch "https://h/c.txt"] 0 ∅
           = Some (failureDetails "https://h/main.txt"
                     (prop (demoLists u') "error"), ∅))
  /\ exists u', (u' = "https://h/main.txt" \/ u' ∈ demoScheduled)
       /\ fetchFailed demoLists u'
       /\ failureDetails "https://h/main.txt"
                         (VStr "cannot connect to https://h/c.txt")
          = failureDetails "https://h/main.txt" (prop (demoLists u') "error")
       /\ prop (failureDetails "https://h/main.txt"
                  (VStr "cannot connect to https://h/c.txt")) "url"
          = VStr "https://h/main.txt"
       /\ prop (failureDetails "https://h/main.txt"
                  (VStr "cannot connect to https://h/c.txt")) "content"
          = VStr ""
       /\ prop (failureDetails "https://h/main.txt"
                  (VStr "cannot connect to https://h/c.txt")) "error"
          = prop (demoLists u') "error".
Proof.
  split; [|split].
  - apply (proj1 (fetchFilterList_atomic (H := demoHost) demoLists
                    "https://h/c.txt")).
    reflexivity.
  - apply (proj1 (proj2 (fetchFilterList_atomic (H := demoHost) demoLists
                           "https://h/main.txt"))
                 true 0%nat _ 0%Q ∅ "https://h/c.txt").
    + apply elem_of_cons. right. by apply list_elem_of_singleton.
    + reflexivity.
  - apply (proj2 (proj2 (fetchFilterList_atomic (H := demoHost) demoLists
                           "https://h/main.txt"))
                 5%nat _ demoScheduled "https://h/c.txt").
    + vm_compute. reflexivity.
    + right. apply elem_of_union. left. by apply elem_of_singleton.
    + reflexivity.
Defined.

(** The sublist-inclusion scenario. *)
Example fetchFilterList_inclusion_scenario :
  (fun r => (prop r.1 "content", elements r.2))
    <$> fetchFilterList (H := demoHost) demoLists 5 "https://h/a.txt"
  = Some (VStr ("! Title: a" ++ Str.nl ++ "!#include b.txt" ++ Str.nl
                ++ "! >>>>>>>> https://h/b.txt" ++ Str.nl
                ++ "||b^! <<<<<<<< https://h/b.txt" ++ Str.nl
                ++ "||a^" ++ Str.nl),
          ["https://h/b.txt"]).
Proof. vm_compute. reflexivity. Qed.

(** *** Include directives *)

Definition fetchOf (p : Part) : option string :=
  match p with PFetch u => Some u | PStr _ => None end.

(** the URLs of the fetches among the parts, in order *)
Definition emitted (parts : list Part) : list string := omap fetchOf parts.

(** [u] is what an include path that is no absolute URL and has no [..]
    resolves to, relative to [parentURL] *)
Definition resolvesFrom `{Host} (parentURL u : string) : Prop :=
  exists path, toParsedURL path = None /\ Str.contains ".." path = false
               /\ resolveSubURL parentURL path = Some u.

(** the fetches emitted so far are pairwise distinct, were not scheduled
    before the scan started at [seen0], are scheduled now, and satisfy [P] *)
Definition sound (seen0 : gset string) (P : string -> Prop)
    (seen : gset string) (acc : list Part) : Prop :=
  seen0 ⊆ seen
  /\ NoDup (emitted acc)
  /\ (forall u, u ∈ emitted acc -> u ∈ seen /\ (u ∉ seen0) /\ P u).

Lemma emitted_text (acc : list Part) (s : string) :
  emitted (acc ++ [PStr s]) = emitted acc.
Proof. unfold emitted. rewrite omap_app. cbn. apply app_nil_r. Qed.

Lemma sound_text (seen0 : gset string) (P : string -> Prop) (seen : gset string)
    (acc : list Part) (s : string) :
  sound seen0 P seen acc -> sound seen0 P seen (acc ++ [PStr s]).
Proof. unfold sound. by rewrite emitted_text. Qed.

Lemma includeStep_sound `{Host} (seen0 : gset string) (P : string -> Prop)
    (parentURL slice : string) (sc : Scan) (m : IncludeMatch) :
  (forall u, resolvesFrom parentURL u -> P u) ->
  sound seen0 P (sublistURLs sc) (out sc) ->
  sound seen0 P (sublistURLs (includeStep parentURL slice sc m))
                (out (includeStep parentURL slice sc m)).
Proof.
  intros HP Hs. unfold includeStep.
  destruct (toParsedURL (path m)) eqn:Hurl; [exact Hs|].
  destruct (Str.contains ".." (path m)) eqn:Hdots; [exact Hs|].
  destruct (resolveSubURL parentURL (path m)) as [subURL|] eqn:Hres; [|exact Hs].
  case_bool_decide as Hseen; [exact Hs|].
  destruct Hs as (S1 & S2 & S3). cbn [sublistURLs out]. unfold sound, emitted.
  rewrite omap_app. cbn [omap fetchOf]. fold (emitted (out sc)).
  split; [|split].
  - intros x Hx. apply elem_of_union. right. by apply S1.
  - apply NoDup_app. split; [exact S2|]. split.
    + intros x Hx Hx'. apply list_elem_of_singleton in Hx' as ->.
      apply Hseen. by apply S3.
    + apply NoDup_singleton.
  - intros u [Hu|Hu]%elem_of_app.
    + destruct (S3 u Hu) as (A & B & C). split; [|done].
      apply elem_of_union. by right.
    + apply list_elem_of_singleton in Hu as ->. split; [|split].
      * apply elem_of_union. left. by apply elem_of_singleton.
      * intros Hin. apply Hseen. by apply S1.
      * apply HP. exists (path m). auto.
Qed.

Lemma includeSteps_sound `{Host} (seen0 : gset string) (P : string -> Prop)
    (parentURL slice : string) (matches : list IncludeMatch) (sc : Scan) :
  (forall u, resolvesFrom parentURL u -> P u) ->
  sound seen0 P (sublistURLs sc) (out sc) ->
  let sc' := fold_left (includeStep parentURL slice) matches sc in
  sound seen0 P (sublistURLs sc') (out sc').
Proof.
  intros HP. revert sc.
  induction matches as [|m ms IH]; intros sc Hs; [exact Hs|].
  cbn [fold_left]. apply IH. by apply includeStep_sound.
Qed.

Lemma scanSlices_sound `{Host} (seen0 : gset string) (P : string -> Prop)
    (rootDefined : bool) (parentURL content : string) (slices : list nat)
    (active : bool) (seen : gset string) (acc : list Part) :
  (forall u, resolvesFrom parentURL u -> P u) ->
  sound seen0 P seen acc ->
  sound seen0 P
        (scanSlices rootDefined parentURL content active slices seen acc).1
        (scanSlices rootDefined parentURL content active slices seen acc).2.
Proof.
  intros HP. revert active seen acc.
  induction slices as [|a rest IH]; intros active seen acc Hs; [exact Hs|].
  destruct rest as [|b rest]; [exact Hs|].
  cbn [scanSlices]. destruct active.
  - unfold scanSlice at 1 2. apply IH. cbn [fst snd]. apply sound_text.
    by apply (includeSteps_sound seen0 P parentURL (Str.slice a b content) _
                                 (mkScan 0 seen acc)).
  - apply IH. by apply sound_text.
Qed.

(** [u] is what an include path resolves to, relative to the URL of one of
    the results *)
Definition includedFrom `{Host} (results : list Result) (u : string) : Prop :=
  exists details, RObj details ∈ results
                  /\ resolvesFrom (asString (prop details "url")) u.

Lemma processIncludeDirectives_sound `{Host} (rootDefined : bool)
    (results : list Result) (seen : gset string) :
  sound seen (includedFrom results)
        (processIncludeDirectives rootDefined results seen).1
        (processIncludeDirectives rootDefined results seen).2.
Proof.
  unfold processIncludeDirectives.
  assert (Hgen : forall (rs : list Result) (p : gset string * list Part),
             (forall r, r ∈ rs -> r ∈ results) ->
             sound seen (includedFrom results) p.1 p.2 ->
             sound seen (includedFrom results)
               (fold_left
                  (fun '(seen, acc) result =>
                     match result with
                     | RStr s => (seen, (acc ++ [PStr s])%list)
                     | RObj details =>
                         scanSlices rootDefined (asString (prop details "url"))
                           (asString (prop details "content")) true
                           (splitter (asString (prop details "content")))
                           seen acc
                     end) rs p).1
               (fold_left
                  (fun '(seen, acc) result =>
                     match result with
                     | RStr s => (seen, (acc ++ [PStr s])%list)
                     | RObj details =>
                         scanSlices rootDefined (asString (prop details "url"))
                           (asString (prop details "content")) true
                           (splitter (asString (prop details "content")))
                           seen acc
                     end) rs p).2).
  { induction rs as [|r rs IH]; intros [s1 a1] Hsub Hs; [exact Hs|].
    cbn [fold_left]. apply IH.
    - intros r' Hr'. apply Hsub. apply elem_of_cons. by right.
    - destruct r as [s|details].
      + by apply sound_text.
      + apply scanSlices_sound; [|exact Hs].
        intros u Hu. exists details. split; [|exact Hu].
        apply Hsub. apply elem_of_cons. by left. }
  apply (Hgen results (seen, [])); [auto|].
  split; [done|]. split; [apply NoDup_nil_2|].
  intros u Hu. by apply elem_of_nil in Hu.
Qed.

(** C7, as the code has it: the body of the include loop passes over a
    directive whose path parses as a URL, or contains [..], or whose parent
    list has a URL without [/], or which resolves to a sublist already
    scheduled: it leaves the scan as it was, so no fetch is emitted for it.
    For any other directive, the path is appended to the URL of the parent
    list cut after its last [/], the result is scheduled and its fetch is
    emitted between the two banners.  When the root directory URL is
    undefined the loop stops before looking at any directive and the slice
    is emitted as it is.  Over a whole pass of [processIncludeDirectives],
    the fetches emitted are pairwise distinct, none was scheduled before,
    and each is the resolution, relative to the URL of the list that
    includes it, of a path that is no absolute URL and has no [..]. *)
Theorem include_directives_skipped `{Host} (parentURL slice : string) (sc : Scan)
    (m : IncludeMatch) (rootDefined : bool) (results : list Result)
    (seen : gset string) (acc : list Part) :
  ((is_Some (toParsedURL (path m))
    \/ Str.contains ".." (path m) = true
    \/ Str.lastIndexOf "/" parentURL = None
    \/ (exists subURL, resolveSubURL parentURL (path m) = Some subURL
                       /\ subURL ∈ sublistURLs sc)) ->
   includeStep parentURL slice sc m = sc)
  /\ (toParsedURL (path m) = None ->
      Str.contains ".." (path m) = false ->
      forall pos, Str.lastIndexOf "/" parentURL = Some pos ->
      let subURL := Str.take (pos + 1) parentURL ++ Str.trim (path m) in
      subURL ∉ sublistURLs sc ->
      includeStep parentURL slice sc m
      = mkScan (index m + matchLength m)
               ({[ subURL ]} ∪ sublistURLs sc)
               (out sc ++
                [ PStr (Str.slice (lastIndex sc) (index m + matchLength m) slice);
                  PStr ("! >>>>>>>> " ++ subURL ++ Str.nl);
                  PFetch subURL;
                  PStr ("! <<<<<<<< " ++ subURL ++ Str.nl) ]))
  /\ scanSlice false parentURL slice seen acc = (seen, (acc ++ [PStr slice])%list)
  /\ (let scheduled := (processIncludeDirectives rootDefined results seen).1 in
      let parts := (processIncludeDirectives rootDefined results seen).2 in
      NoDup (emitted parts)
      /\ forall u, u ∈ emitted parts ->
           u ∈ scheduled /\ (u ∉ seen) /\ includedFrom results u).
Proof.
  split; [|split; [|split]].
  - unfold includeStep, resolveSubURL. intros [[x Hx]|[Hd|[Hn|(u & Hu & Hin)]]].
    + by rewrite Hx.
    + destruct (toParsedURL (path m)); [done|]. by rewrite Hd.
    + destruct (toParsedURL (path m)); [done|].
      destruct (Str.contains ".." (path m)); [done|]. by rewrite Hn.
    + destruct (toParsedURL (path m)); [done|].
      destruct (Str.contains ".." (path m)); [done|].
      unfold resolveSubURL in Hu. rewrite Hu. by rewrite bool_decide_eq_true_2.
  - intros Hurl Hdots pos Hpos. cbv zeta. intros Hnew.
    unfold includeStep, resolveSubURL. rewrite Hurl, Hdots, Hpos.
    by rewrite bool_decide_eq_false_2.
  - reflexivity.
  - cbv zeta.
    destruct (processIncludeDirectives_sound rootDefined results seen)
      as (_ & Hnd & Hall).
    split; [exact Hnd | exact Hall].
Qed.

Definition demoScan : Scan := mkScan 0 ∅ [].

Lemma include_directives_skipped_witness :
  includeStep (H := demoHost) "https://h/a.txt" "!#include ../evil" demoScan
              (mkIncludeMatch 0 17 "../evil")
  = demoScan
  /\ includeStep (H := demoHost) "filters.txt" "!#include sub.txt" demoScan
                 (mkIncludeMatch 0 17 "sub.txt")
     = demoScan
  /\ includeStep (H := demoHost) "https://h/a.txt" "!#include b.txt" demoScan
                 (mkIncludeMatch 0 15 "b.txt")
     = mkScan 15 ({[ "https://h/b.txt" ]} ∪ ∅)
              [ PStr "!#include b.txt";
                PStr ("! >>>>>>>> https://h/b.txt" ++ Str.nl);
                PFetch "https://h/b.txt";
                PStr ("! <<<<<<<< https://h/b.txt" ++ Str.nl) ].
Proof.
  split; [|split].
  - apply (proj1 (include_directives_skipped (H := demoHost) "https://h/a.txt"
                    "!#include ../evil" demoScan (mkIncludeMatch 0 17 "../evil")
                    true [] ∅ [])).
    right. left. reflexivity.
  - apply (proj1 (include_directives_skipped (H := demoHost) "filters.txt"
                    "!#include sub.txt" demoScan (mkIncludeMatch 0 17 "sub.txt")
                    true [] ∅ [])).
    right. right. left. reflexivity.
  - apply (proj1 (proj2 (include_directives_skipped (H := demoHost)
                           "https://h/a.txt" "!#include b.txt" demoScan
                           (mkIncludeMatch 0 15 "b.txt") true [] ∅ []))
                 eq_refl eq_refl 9%nat eq_refl).
    apply not_elem_of_empty.
Defined.

(** C7 as the specification has it does not hold: in a list whose URL
    has no [/], an include path that is no absolute URL, has no [..] and
    resolves to nothing scheduled is passed over all the same: no fetch is
    emitted for it. *)
Lemma include_without_directory_not_resolved :
  ~ (forall (parentURL slice : string) (sc : Scan) (m : IncludeMatch),
       toParsedURL (H := demoHost) (path m) = None ->
       Str.contains ".." (path m) = false ->
       (forall subURL, resolveSubURL parentURL (path m) = Some subURL ->
                       subURL ∉ sublistURLs sc) ->
       exists subURL,
         PFetch subURL ∈ out (includeStep (H := demoHost) parentURL slice sc m)).
Proof.
  intros Hclaim.
  destruct (Hclaim "filters.txt" "!#include sub.txt" demoScan
                   (mkIncludeMatch 0 17 "sub.txt") eq_refl eq_refl)
    as [subURL Hsub].
  - intros subURL Hres. discriminate Hres.
  - vm_compute in Hsub. by apply elem_of_nil in Hsub.
Qed.

(** The boundary cases of the include scan: a path with [..], an absolute
    URL and a repeated path yield no fetch. *)
Example include_scan_boundaries :
  emitted
    (processIncludeDirectives (H := demoHost) true
       [RObj (setProp "content"
                (VStr ("!#include ../evil" ++ Str.nl
                       ++ "!#include http://x/y" ++ Str.nl
                       ++ "!#include b.txt" ++ Str.nl
                       ++ "!#include b.txt" ++ Str.nl))
                (setProp "url" (VStr "https://h/a.txt") ∅))] ∅).2
  = ["https://h/b.txt"].
Proof. vm_compute. reflexivity. Qed.

(** ** Get orchestrator: user assets *)

(** [assets.put] sends every key that starts with [user-] to the settings
    storage and leaves the cache alone. *)
Lemma put_user_asset (now : Z) (assetKey content : string) (st : State) :
  isUserAsset assetKey = true ->
  userStorage (put now assetKey content st) !! assetKey = Some (VStr content)
  /\ assetCacheRegistry (put now assetKey content st) = assetCacheRegistry st
  /\ cacheStorage (put now assetKey content st) = cacheStorage st.
Proof.
  intros Hu. unfold put. rewrite Hu. cbn.
  split; [apply lookup_insert_eq | done].
Qed.

(** [assets.get] reads the settings storage for the one key
    [µb.userFiltersPath], and does not touch the state. *)
Lemma get_userFiltersPath `{Host} (net : Network) (now : Z) (options : Obj)
    (st : State) :
  get net now userFiltersPath options st = (readUserAsset userFiltersPath st, st).
Proof. unfold get. by rewrite String.eqb_refl. Qed.

(** a user asset other than the user filters, present both in the
    settings storage and, under the same key, in the cache *)
Definition notesState : State :=
  mkState []
    {[ "user-notes" := setProp "readTime" (VNum 5) (setProp "writeTime" (VNum 5) ∅) ]}
    {[ "cache/user-notes" := VStr "from the cache" ]}
    None false
    {[ "user-notes" := VStr "from the settings" ]}
    [] false false ∅ [] updaterAssetDelayDefault false None.

Definition emptyState : State :=
  mkState [] ∅ ∅ None false ∅ [] false false ∅ [] updaterAssetDelayDefault
          false None.

(** C4, on the code: for the key [user-notes], which matches [^user-] but
    is not [µb.userFiltersPath], [assets.get] does not read the settings
    storage: it answers from the cache and records a read time in the
    cache registry; and after [assets.put] stored a content under that key
    in the settings storage, [assets.get] does not find it. *)
Theorem get_user_key_reads_cache :
  isUserAsset "user-notes" = true
  /\ prop (readUserAsset "user-notes" notesState) "content"
     = VStr "from the settings"
  /\ prop (get (H := demoHost) demoNet demoNow "user-notes" ∅ notesState).1 "content"
     = VStr "from the cache"
  /\ (fun entry => prop entry "readTime")
       <$> (assetCacheRegistry
              (get (H := demoHost) demoNet demoNow "user-notes" ∅ notesState).2
            !! "user-notes")
     = Some (timeVal demoNow)
  /\ userStorage (put demoNow "user-notes" "mine" emptyState) !! "user-notes"
     = Some (VStr "mine")
  /\ prop (get (H := demoHost) demoNet demoNow "user-notes" ∅
               (put demoNow "user-notes" "mine" emptyState)).1 "content"
     = VStr ""
  /\ prop (get (H := demoHost) demoNet demoNow "user-notes" ∅
               (put demoNow "user-notes" "mine" emptyState)).1 "error"
     = VStr "ENOTFOUND".
Proof. vm_compute. repeat split. Qed.

(** ** Update scheduler *)

(** two assets with a remote URL, both in use and both obsolete at
    [updateTime]: [older] was written at time 1000, [newer] at time 2000 *)
Definition updateState : State :=
  mkState
    [("older",
      setProp "hasRemoteURL" (VBool true)
        (setProp "contentURL" (VArr ["https://h/older.txt"]) ∅));
     ("newer",
      setProp "hasRemoteURL" (VBool true)
        (setProp "contentURL" (VArr ["https://h/newer.txt"]) ∅))]
    {[ "older" := setProp "readTime" (VNum 1000) (setProp "writeTime" (VNum 1000) ∅);
       "newer" := setProp "readTime" (VNum 2000) (setProp "writeTime" (VNum 2000) ∅) ]}
    {[ "cache/older" := VStr "||older^"; "cache/newer" := VStr "||newer^" ]}
    None false ∅
    [fun topic _ =>
       if String.eqb topic "before-asset-updated" then VBool true else VUndefined]
    false true ∅ [] updaterAssetDelayDefault false None.

(** thirty days after the epoch *)
Definition updateTime : Z := 30 * 24 * 3600000.

(** C2, on the code: with the two obsolete candidates sorted oldest first,
    [updateNext] pops the last one and refreshes [newer]; [older] is
    refreshed by the step after. *)
Theorem updateNext_refreshes_newest :
  (getUpdateCandidates (H := demoHost) updateState).1 = ["older"; "newer"]
  /\ hardUpdates updateTime ["older"; "newer"] updateState = ["older"; "newer"]
  /\ nextAsset (H := demoHost) updateTime updateState = Some "newer"
  /\ elements (updaterFetched (updateNext (H := demoHost) demoNet updateTime updateState))
     = ["newer"]
  /\ nextAsset (H := demoHost) updateTime
               (updateNext (H := demoHost) demoNet updateTime updateState)
     = Some "older".
Proof. vm_compute. repeat split. Qed.

(** * Further properties *)

(** ** Metadata extractor *)

Lemma take_take (n : nat) (s : string) : Str.take n (Str.take n s) = Str.take n s.
Proof.
  revert s. induction n as [|n IH]; intros [|c s]; try reflexivity.
  cbn [Str.take]. by rewrite IH.
Qed.

(** [extractMetadataFromList] reads the first 1024 characters only: two
    contents that agree on them yield the same metadata. *)
Theorem extractMetadataFromList_head_only `{Host} (content content' : string)
    (fields : list string) :
  Str.take 1024 content = Str.take 1024 content' ->
  extractMetadataFromList content fields = extractMetadataFromList content' fields.
Proof.
  intros Hhead.
  assert (Hraw : rawMetadata content fields = rawMetadata content' fields).
  { unfold rawMetadata. by rewrite Hhead. }
  unfold extractMetadataFromList. by rewrite Hraw.
Qed.

Fixpoint replicate (n : nat) (c : ascii) : string :=
  match n with
  | O => EmptyString
  | S n => String c (replicate n c)
  end.

Lemma extractMetadataFromList_head_only_witness :
  extractMetadataFromList (H := demoHost)
    ("! Expires: 2d" ++ Str.nl ++ replicate 1024 "x" ++ Str.nl ++ "! Diff-Path: a")
    ["Expires"; "Diff-Path"]
  = extractMetadataFromList (H := demoHost)
      ("! Expires: 2d" ++ Str.nl ++ replicate 1024 "x")
      ["Expires"; "Diff-Path"].
Proof.
  apply extractMetadataFromList_head_only. vm_compute. reflexivity.
Defined.

(** a value kept from a header line: a string that is not empty and is
    not a [%...%] placeholder *)
Definition keptValue (v : Val) : Prop :=
  forall s, v = VStr s -> s ≠ "" /\ isTemplate s = false.

Lemma rawField_kept (head field : string) : keptValue (rawField head field).
Proof.
  unfold rawField, keptValue. intros s.
  destruct (execHeader _ _ _) as [m|]; [|discriminate].
  destruct (String.eqb_spec (Str.trim m) "") as [|Hne]; [discriminate|].
  destruct (isTemplate (Str.trim m)) eqn:Ht; [discriminate|].
  intros [= <-]. auto.
Qed.

Lemma rawMetadata_kept (content : string) (fields : list string) (k : string) :
  keptValue (prop (rawMetadata content fields) k).
Proof.
  unfold rawMetadata.
  assert (Hgen : forall (acc : Obj),
             (forall k, keptValue (prop acc k)) ->
             forall k, keptValue
               (prop (fold_left
                        (fun (out : Obj) field =>
                           let field := collapseSpaces false field in
                           setProp (fieldKey field)
                                   (rawField (Str.take 1024 content) field) out)
                        fields acc) k)).
  { induction fields as [|f fs IH]; intros acc Hacc k'; cbn [fold_left];
      [apply Hacc|].
    apply IH. intros k''. cbv zeta.
    destruct (decide (fieldKey (collapseSpaces false f) = k'')) as [<-|Hne].
    - rewrite prop_setProp_eq. apply rawField_kept.
    - rewrite prop_setProp_ne by exact Hne. apply Hacc. }
  apply Hgen. intros k' s. rewrite prop_empty. discriminate.
Qed.

Lemma prop_setProp_cases (k k' : string) (v : Val) (o : Obj) :
  prop (setProp k v o) k' = if decide (k = k') then v else prop o k'.
Proof.
  destruct (decide (k = k')) as [<-|Hne];
    [apply prop_setProp_eq | by apply prop_setProp_ne].
Qed.

(** Whatever the content and the fields, a string in the metadata returned
    by [extractMetadataFromList] is not empty and is not a [%...%]
    placeholder, and the values of [expires], [diffExpires] and
    [lastModified] are never strings: they are numbers or [undefined]. *)
Theorem extractMetadataFromList_values `{Host} (content : string)
    (fields : list string) (k s : string) :
  prop (extractMetadataFromList content fields) k = VStr s ->
  s ≠ "" /\ isTemplate s = false
  /\ k ≠ "expires" /\ k ≠ "diffExpires" /\ k ≠ "lastModified".
Proof.
  unfold extractMetadataFromList. cbv zeta.
  set (raw := rawMetadata content fields).
  assert (Hraw : forall k, keptValue (prop raw k)) by apply rawMetadata_kept.
  assert (Htruthy : forall k s, prop raw k = VStr s -> truthy (prop raw k) = true).
  { intros k0 s0 Hk. destruct (Hraw k0 s0 Hk) as [Hne _]. rewrite Hk.
    by apply truthy_VStr. }
  set (o1 := if truthy (prop raw "lastModified") then _ else raw).
  assert (H1 : forall k s, prop o1 k = VStr s ->
                           prop raw k = VStr s /\ k ≠ "lastModified").
  { intros k0 s0. subst o1.
    destruct (truthy (prop raw "lastModified")) eqn:Ht.
    - rewrite prop_setProp_cases. destruct (decide ("lastModified" = k0)) as [<-|Hne].
      + unfold lastModifiedOf, orElse.
        destruct (dateParse _); cbn [truthy];
          try destruct (negb _); discriminate.
      + intros Hk. split; [exact Hk | congruence].
    - intros Hk. split; [exact Hk|]. intros ->.
      rewrite (Htruthy _ _ Hk) in Ht. discriminate. }
  set (o2 := if truthy (prop o1 "expires") then _ else o1).
  assert (H2 : forall k s, prop o2 k = VStr s ->
                           prop o1 k = VStr s /\ k ≠ "expires").
  { intros k0 s0. subst o2.
    destruct (truthy (prop o1 "expires")) eqn:Ht.
    - rewrite prop_setProp_cases. destruct (decide ("expires" = k0)) as [<-|Hne].
      + discriminate.
      + intros Hk. split; [exact Hk | congruence].
    - intros Hk. split; [exact Hk|]. intros ->.
      destruct (H1 _ _ Hk) as [Hr _]. rewrite Hk in Ht.
      destruct (Hraw _ _ Hr) as [Hne _]. rewrite (truthy_VStr _ Hne) in Ht.
      discriminate. }
  intros Hk.
  assert (H3 : prop o2 k = VStr s /\ k ≠ "diffExpires").
  { revert Hk. destruct (truthy (prop o2 "diffExpires")) eqn:Ht.
    - rewrite prop_setProp_cases. destruct (decide ("diffExpires" = k)) as [<-|Hne].
      + discriminate.
      + intros Hk. split; [exact Hk | congruence].
    - intros Hk. split; [exact Hk|]. intros ->.
      destruct (H2 _ _ Hk) as [Ho1 _]. destruct (H1 _ _ Ho1) as [Hr _].
      rewrite Hk in Ht. destruct (Hraw _ _ Hr) as [Hne _].
      rewrite (truthy_VStr _ Hne) in Ht. discriminate. }
  destruct H3 as [Ho2 Hd]. destruct (H2 _ _ Ho2) as [Ho1 He].
  destruct (H1 _ _ Ho1) as [Hr Hl]. destruct (Hraw _ _ Hr) as [Hne Htpl].
  auto.
Qed.

Lemma extractMetadataFromList_values_witness :
  "easylist" ≠ "" /\ isTemplate "easylist" = false
  /\ "diffName" ≠ "expires" /\ "diffName" ≠ "diffExpires"
  /\ "diffName" ≠ "lastModified".
Proof.
  apply (extractMetadataFromList_values (H := demoHost)
           "! Diff-Name: easylist" ["Diff-Name"] "diffName" "easylist").
  vm_compute. reflexivity.
Defined.






(** ** Fetcher *)

Lemma resourceTimeFromXhr_nonneg `{Host} (response : Val) (age date : option Z) :
  (0 <= resourceTimeFromXhr response age date)%Q.
Proof. unfold resourceTimeFromXhr, mathMax. apply Q.le_max_r. Qed.

Lemma fetch_cases `{Host} (url : string) :
  match xhr url with
  | XhrLoad status statusText response age date =>
      if (status =? 0)%Z || ((200 <=? status)%Z && (status <? 300)%Z)
      then exists details,
             fetch url = Resolved details
             /\ prop details "url" = VStr url
             /\ prop details "content" = response
             /\ prop details "error" = VUndefined
             /\ prop details "statusCode"
                = VNum (inject_Z (if (status =? 0)%Z then 200 else status))
             /\ exists t, prop details "resourceTime" = VNum t /\ (0 <= t)%Q
      else exists details,
             fetch url = Rejected details
             /\ prop details "url" = VStr url
             /\ prop details "content" = VStr ""
             /\ prop details "error"
                = VStr (url ++ ": " ++ Str.ofZ status ++ " " ++ statusText)
  | XhrFail =>
      exists details,
        fetch url = Rejected details
        /\ prop details "url" = VStr url
        /\ prop details "content" = VStr ""
        /\ prop details "error" = VStr (cantConnectTo url)
  end.
Proof.
  unfold fetch.
  destruct (xhr url) as [status statusText response age date|].
  - destruct (Z.eqb_spec status 0) as [->|Hs].
    + cbn [orb Z.ltb Z.leb Z.compare Pos.compare Pos.compare_cont].
      eexists. split; [reflexivity|].
      rewrite !prop_setProp_cases. cbn [decide].
      repeat (split; [reflexivity|]).
      eexists. split; [reflexivity|]. apply resourceTimeFromXhr_nonneg.
    + cbn [orb].
      destruct (Z.leb_spec 200 status) as [Hlo|Hlo];
        destruct (Z.ltb_spec status 300) as [Hhi|Hhi]; cbn [andb].
      * replace (status <? 200)%Z with false by (symmetry; apply Z.ltb_ge; lia).
        replace (300 <=? status)%Z with false by (symmetry; apply Z.leb_gt; lia).
        cbn [orb]. eexists. split; [reflexivity|].
        rewrite !prop_setProp_cases. cbn [decide].
        repeat (split; [reflexivity|]).
        eexists. split; [reflexivity|]. apply resourceTimeFromXhr_nonneg.
      * replace (300 <=? status)%Z with true by (symmetry; apply Z.leb_le; lia).
        rewrite orb_true_r. unfold fail. eexists. split; [reflexivity|].
        rewrite !prop_setProp_cases. cbn [decide]. auto.
      * replace (status <? 200)%Z with true by (symmetry; apply Z.ltb_lt; lia).
        cbn [orb]. unfold fail. eexists. split; [reflexivity|].
        rewrite !prop_setProp_cases. cbn [decide]. auto.
      * replace (status <? 200)%Z with true by (symmetry; apply Z.ltb_lt; lia).
        cbn [orb]. unfold fail. eexists. split; [reflexivity|].
        rewrite !prop_setProp_cases. cbn [decide]. auto.
  - unfold fail. eexists. split; [reflexivity|].
    rewrite !prop_setProp_cases. cbn [decide]. auto.
Qed.

(** [assets.fetch] resolves exactly when the request loads with status 0
    (taken as 200) or a status from 200 to 299: the details then carry the
    response, a resource time that is not negative and no error.  In every
    other case it rejects with an empty content and an error message: the
    status line for a load, the localized message for an error, an abort
    or an exception. *)
Theorem fetch_outcome `{Host} (url : string) :
  match xhr url with
  | XhrLoad status statusText response age date =>
      if (status =? 0)%Z || ((200 <=? status)%Z && (status <? 300)%Z)
      then exists details,
             fetch url = Resolved details
             /\ prop details "url" = VStr url
             /\ prop details "content" = response
             /\ prop details "error" = VUndefined
             /\ prop details "statusCode"
                = VNum (inject_Z (if (status =? 0)%Z then 200 else status))
             /\ exists t, prop details "resourceTime" = VNum t /\ (0 <= t)%Q
      else exists details,
             fetch url = Rejected details
             /\ prop details "url" = VStr url
             /\ prop details "content" = VStr ""
             /\ prop details "error"
                = VStr (url ++ ": " ++ Str.ofZ status ++ " " ++ statusText)
  | XhrFail =>
      exists details,
        fetch url = Rejected details
        /\ prop details "url" = VStr url
        /\ prop details "content" = VStr ""
        /\ prop details "error" = VStr (cantConnectTo url)
  end.
Proof. exact (fetch_cases url). Qed.

Lemma stringIsNotEmpty_VStr (v : Val) :
  stringIsNotEmpty v = true -> exists s, v = VStr s /\ s ≠ "".
Proof.
  destruct v as [| |q|s|b|l|t e|]; try discriminate. cbn.
  destruct (String.eqb_spec s ""); [discriminate|]. eauto.
Qed.

(** Whatever the request does, [assets.fetchText] returns details whose
    [url] is the URL of the caller (not the rewritten one), whose
    [content] is a string, and whose content is empty whenever they carry
    an error. *)
Theorem fetchText_details `{Host} (remoteServerFriendly : bool) (now : Z)
    (url : string) :
  let details := fetchText remoteServerFriendly now url in
  prop details "url" = VStr url
  /\ (exists content, prop details "content" = VStr content)
  /\ (prop details "error" ≠ VUndefined -> prop details "content" = VStr "").
Proof.
  cbv zeta. unfold fetchText.
  pose proof (fetch_cases (actualUrl remoteServerFriendly now url)) as Hf.
  set (u := actualUrl remoteServerFriendly now url) in *.
  split; [unfold fetchTextSettle; apply prop_setProp_eq|].
  assert (Hrej : forall details,
             prop details "content" = VStr "" ->
             (exists content,
                prop (fetchTextSettle url (Rejected details)) "content" = VStr content)
             /\ (prop (fetchTextSettle url (Rejected details)) "error" ≠ VUndefined ->
                 prop (fetchTextSettle url (Rejected details)) "content" = VStr "")).
  { intros details Hc. unfold fetchTextSettle.
    rewrite !prop_setProp_cases. cbn [decide]. rewrite Hc. eauto. }
  assert (Hres : forall details,
             prop details "error" = VUndefined ->
             (exists content,
                prop (fetchTextSettle url (Resolved details)) "content" = VStr content)
             /\ (prop (fetchTextSettle url (Resolved details)) "error" ≠ VUndefined ->
                 prop (fetchTextSettle url (Resolved details)) "content" = VStr "")).
  { intros details He. unfold fetchTextSettle.
    destruct (stringIsNotEmpty (prop details "content")) eqn:Hn.
    - apply stringIsNotEmpty_VStr in Hn as (s & Hs & _). rewrite Hs.
      cbn [asString].
      destruct (Str.startsWith "<" (Str.trim s) && Str.endsWith ">" (Str.trim s)).
      + rewrite !prop_setProp_cases. cbn [decide]. eauto.
      + rewrite !prop_setProp_cases. cbn [decide]. rewrite Hs, He.
        split; [eauto | intros Hx; exfalso; apply Hx; reflexivity].
    - rewrite prop_setProp_eq. cbn [asString].
      change (Str.startsWith "<" (Str.trim "") && Str.endsWith ">" (Str.trim ""))
        with false. cbv iota.
      rewrite !prop_setProp_cases. cbn [decide]. rewrite He.
      split; [eauto | intros Hx; exfalso; apply Hx; reflexivity]. }
  destruct (xhr u) as [status statusText response age date|].
  - destruct ((status =? 0)%Z || ((200 <=? status)%Z && (status <? 300)%Z)).
    + destruct Hf as (details & -> & _ & _ & He & _). by apply Hres.
    + destruct Hf as (details & -> & _ & Hc & _). by apply Hrej.
  - destruct Hf as (details & -> & _ & Hc & _). by apply Hrej.
Qed.

Lemma fetchText_details_witness :
  prop (fetchText (H := demoHost) false demoNow "https://h/page.txt") "url"
  = VStr "https://h/page.txt"
  /\ prop (fetchText (H := demoHost) false demoNow "https://h/page.txt") "content"
     = VStr "".
Proof.
  destruct (fetchText_details (H := demoHost) false demoNow "https://h/page.txt")
    as (Hu & _ & He).
  split; [exact Hu|]. apply He. vm_compute. discriminate.
Defined.

(** When asked to be gentle on remote servers, and for a URL that is not
    external, [assets.fetchText] adds no cache-busting parameter: the
    request, hence the result, does not depend on the time.  The token it
    adds otherwise is below 13 (below 86413 when the browser cache is
    bypassed) and stays the same within an hour (within a second). *)
Theorem fetchText_cache_friendly `{Host} (remoteServerFriendly : bool)
    (now now' : Z) (url : string) :
  (remoteServerFriendly = true \/ isExternalPath url = false ->
   actualUrl remoteServerFriendly now url
   = (if isExternalPath url then url else getURL url)
   /\ fetchText remoteServerFriendly now url
      = fetchText remoteServerFriendly now' url)
  /\ (0 <= now ->
      0 <= cacheBypassToken now
      < (if updateAssetBypassBrowserCache then 86413 else 13))
  /\ (now / (if updateAssetBypassBrowserCache then 1000 else 3600000)
      = now' / (if updateAssetBypassBrowserCache then 1000 else 3600000) ->
      fetchText remoteServerFriendly now url
      = fetchText remoteServerFriendly now' url).
Proof.
  split; [|split].
  - intros Hgentle.
    assert (Hu : forall t, actualUrl remoteServerFriendly t url
                           = if isExternalPath url then url else getURL url).
    { intros t. unfold actualUrl.
      destruct Hgentle as [->| ->]; [|reflexivity].
      by rewrite andb_false_r. }
    split; [apply Hu|]. unfold fetchText. by rewrite !Hu.
  - intros Hnow. unfold cacheBypassToken.
    destruct updateAssetBypassBrowserCache.
    + rewrite Z.rem_mod_nonneg by (try apply Z.div_pos; lia).
      apply Z.mod_pos_bound. lia.
    + rewrite Z.rem_mod_nonneg by (try apply Z.div_pos; lia).
      apply Z.mod_pos_bound. lia.
  - intros Hsame. unfold fetchText, actualUrl, cacheBypassToken.
    destruct updateAssetBypassBrowserCache; by rewrite Hsame.
Qed.

Lemma fetchText_cache_friendly_witness :
  (actualUrl (H := demoHost) true demoNow "https://h/old.txt"
   = (if isExternalPath "https://h/old.txt" then "https://h/old.txt"
      else getURL (Host := demoHost) "https://h/old.txt")
   /\ fetchText (H := demoHost) true demoNow "https://h/old.txt"
      = fetchText (H := demoHost) true 0 "https://h/old.txt")
  /\ 0 <= cacheBypassToken (H := demoHost) demoNow < 13
  /\ fetchText (H := demoHost) false demoNow "https://h/old.txt"
     = fetchText (H := demoHost) false (demoNow + 1) "https://h/old.txt".
Proof.
  split; [|split].
  - apply (proj1 (fetchText_cache_friendly (H := demoHost) true demoNow 0
                    "https://h/old.txt")).
    left. reflexivity.
  - apply (proj1 (proj2 (fetchText_cache_friendly (H := demoHost) true demoNow 0
                           "https://h/old.txt"))).
    unfold demoNow. lia.
  - apply (proj2 (proj2 (fetchText_cache_friendly (H := demoHost) false demoNow
                           (demoNow + 1) "https://h/old.txt"))).
    reflexivity.
Defined.

(** ** Cache registry and store *)

Lemma internalKey_inj (a b : string) : internalKey a = internalKey b -> a = b.
Proof. unfold internalKey. apply (inj (String.append "cache/")). Qed.

Lemma lookup_foldr_delete (keys : list string) (blobs : gmap string Val)
    (b : string) :
  foldr (fun assetKey blobs => delete (internalKey assetKey) blobs) blobs keys !! b
  = if decide (b ∈ internalKey <$> keys) then None else blobs !! b.
Proof.
  induction keys as [|k ks IH]; cbn [foldr fmap list_fmap].
  - destruct (decide (b ∈ [])) as [Hin|]; [by apply elem_of_nil in Hin | done].
  - destruct (decide (internalKey k = b)) as [<-|Hne].
    + rewrite lookup_delete_eq. rewrite decide_True; [done|].
      apply elem_of_cons. by left.
    + rewrite lookup_delete_ne by exact Hne. rewrite IH.
      destruct (decide (b ∈ internalKey <$> ks)) as [Hin|Hnin].
      * rewrite decide_True; [done|]. apply elem_of_cons. by right.
      * rewrite decide_False; [done|].
        intros [Heq|Hin]%elem_of_cons; [by apply Hne | by apply Hnin].
Qed.

Lemma assetCacheRemove_registry (pattern : Pattern) (st : State) :
  assetCacheRegistry (assetCacheRemove pattern st)
  = filter (fun kv => survives pattern kv.1 = true) (assetCacheRegistry st).
Proof.
  unfold assetCacheRemove. cbv zeta. case_bool_decide as Hnone; [|reflexivity].
  apply map_eq. intros i. rewrite map_lookup_filter.
  destruct (assetCacheRegistry st !! i) as [x|] eqn:Hi; [|reflexivity].
  cbn. destruct (survives pattern i) eqn:Hs.
  - by rewrite option_guard_True.
  - exfalso. eapply (map_filter_empty_not_lookup _ _ i x Hnone); [|exact Hi].
    exact Hs.
Qed.

Lemma assetCacheRemove_blobs (pattern : Pattern) (st : State) (b : string) :
  let removedBlob :=
    exists assetKey x, b = internalKey assetKey
                       /\ assetCacheRegistry st !! assetKey = Some x
                       /\ survives pattern assetKey = false in
  (removedBlob -> cacheStorage (assetCacheRemove pattern st) !! b = None)
  /\ (~ removedBlob ->
      cacheStorage (assetCacheRemove pattern st) !! b = cacheStorage st !! b).
Proof.
  cbv zeta. split.
  - intros (k & x & -> & Hk & Hs). unfold assetCacheRemove. cbv zeta.
    case_bool_decide as Hnone.
    + exfalso. eapply (map_filter_empty_not_lookup _ _ k x Hnone); [|exact Hk].
      exact Hs.
    + cbn [cacheStorage withCache]. rewrite lookup_foldr_delete.
      rewrite decide_True; [done|].
      apply list_elem_of_fmap_2. apply list_elem_of_fmap.
      exists (k, x). split; [done|]. apply elem_of_map_to_list.
      apply map_lookup_filter_Some. auto.
  - intros Hno. unfold assetCacheRemove. cbv zeta.
    case_bool_decide as Hnone; [reflexivity|].
    cbn [cacheStorage withCache]. rewrite lookup_foldr_delete.
    rewrite decide_False; [done|].
    intros (k & -> & Hin)%list_elem_of_fmap.
    apply list_elem_of_fmap in Hin as ([k' x] & Hk' & Hin). cbn in Hk'. subst k'.
    apply elem_of_map_to_list, map_lookup_filter_Some in Hin as [Hk Hs].
    apply Hno. exists k, x. auto.
Qed.

Lemma assetCacheRemove_facts (pattern : Pattern) (st : State) (assetKey : string) :
  assetCacheRegistry (assetCacheRemove pattern st) !! assetKey
  = (if survives pattern assetKey then assetCacheRegistry st !! assetKey else None)
  /\ (is_Some (assetCacheRegistry st !! assetKey) ->
      survives pattern assetKey = false ->
      cacheStorage (assetCacheRemove pattern st) !! internalKey assetKey = None)
  /\ (survives pattern assetKey = true ->
      cacheStorage (assetCacheRemove pattern st) !! internalKey assetKey
      = cacheStorage st !! internalKey assetKey)
  /\ match pattern with
     | PatString s => survives pattern assetKey = negb (String.eqb assetKey s)
     | PatRegExp test => survives pattern assetKey = negb (test assetKey)
     | PatArray _ | PatOther => assetCacheRegistry (assetCacheRemove pattern st) = ∅
     end.
Proof.
  split; [|split; [|split]].
  - rewrite assetCacheRemove_registry, map_lookup_filter.
    destruct (assetCacheRegistry st !! assetKey) as [x|];
      [|by destruct (survives pattern assetKey)].
    cbn. destruct (survives pattern assetKey) eqn:Hs.
    + by rewrite option_guard_True.
    + rewrite option_guard_False; [done|].
      intros Hc. discriminate Hc.
  - intros [x Hx] Hs. apply assetCacheRemove_blobs. exists assetKey, x. auto.
  - intros Hs. apply assetCacheRemove_blobs.
    intros (k & x & Hk & _ & Hsk). apply internalKey_inj in Hk as <-.
    rewrite Hs in Hsk. discriminate.
  - destruct pattern as [s|test|l|]; try reflexivity.
    + rewrite assetCacheRemove_registry. apply map_empty. intros i.
      apply map_lookup_filter_None. right. intros x _. discriminate.
    + rewrite assetCacheRemove_registry. apply map_empty. intros i.
      apply map_lookup_filter_None. right. intros x _. discriminate.
Qed.

(** [assetCacheRemove] keeps exactly the entries its test spares and
    deletes the blob of every entry it removes; the blobs of the other keys
    stay.  A pattern that is neither a string nor a regular expression (an
    array, for one) is tested by neither branch and empties the cache. *)
Theorem assetCacheRemove_spec (pattern : Pattern) (st : State) (assetKey : string) :
  assetCacheRegistry (assetCacheRemove pattern st) !! assetKey
  = (if survives pattern assetKey then assetCacheRegistry st !! assetKey else None)
  /\ (is_Some (assetCacheRegistry st !! assetKey) ->
      survives pattern assetKey = false ->
      cacheStorage (assetCacheRemove pattern st) !! internalKey assetKey = None)
  /\ (survives pattern assetKey = true ->
      cacheStorage (assetCacheRemove pattern st) !! internalKey assetKey
      = cacheStorage st !! internalKey assetKey)
  /\ match pattern with
     | PatString s => survives pattern assetKey = negb (String.eqb assetKey s)
     | PatRegExp test => survives pattern assetKey = negb (test assetKey)
     | PatArray _ | PatOther => assetCacheRegistry (assetCacheRemove pattern st) = ∅
     end.
Proof. exact (assetCacheRemove_facts pattern st assetKey). Qed.

Lemma assetCacheRemove_spec_witness :
  cacheStorage (assetCacheRemove (PatString "easylist") demoState)
    !! internalKey "easylist" = None
  /\ cacheStorage (assetCacheRemove (PatString "other") demoState)
       !! internalKey "easylist"
     = cacheStorage demoState !! internalKey "easylist".
Proof.
  split.
  - apply (proj1 (proj2 (assetCacheRemove_spec (PatString "easylist") demoState
                           "easylist"))); [|reflexivity].
    exists demoEntry. reflexivity.
  - apply (proj1 (proj2 (proj2 (assetCacheRemove_spec (PatString "other")
                                  demoState "easylist")))).
    reflexivity.
Defined.

Lemma isEmptyStr_VStr (s : string) : s ≠ "" -> isEmptyStr (VStr s) = false.
Proof. intros Hs. cbn. by destruct (String.eqb_spec s ""). Qed.

Lemma assetCacheWrite_string (now : Z) (assetKey content : string) (st : State) :
  content ≠ "" ->
  assetCacheWrite now assetKey (WString content) st
  = let entry : Obj := default ∅ (assetCacheRegistry st !! assetKey) in
    let entry := setProp "resourceTime" (VNum 0)
                   (setProp "readTime" (timeVal now)
                      (setProp "writeTime" (timeVal now) entry)) in
    let registry := <[assetKey := entry]> (assetCacheRegistry st) in
    withCache registry (<[internalKey assetKey := VStr content]> (cacheStorage st))
              (Some registry) (cacheSaveTimer st) st.
Proof.
  intros Hc. unfold assetCacheWrite. cbv zeta.
  rewrite (isEmptyStr_VStr _ Hc). reflexivity.
Qed.

(** Round trip of the cache: after [assetCacheWrite] of a content that is
    not empty, [assetCacheRead] of the same key returns that content
    without error, whatever was cached before; after [assetCacheWrite] of
    an empty content, which removes the asset, it reports [ENOTFOUND]. *)
Theorem assetCacheWrite_read (now now' : Z) (assetKey content : string)
    (updateReadTime : bool) (st : State) :
  (content ≠ "" ->
   let details :=
     (assetCacheRead now' assetKey updateReadTime
        (assetCacheWrite now assetKey (WString content) st)).1 in
   prop details "content" = VStr content
   /\ prop details "assetKey" = VStr assetKey
   /\ details !! "error" = None)
  /\ (let details :=
        (assetCacheRead now' assetKey updateReadTime
           (assetCacheWrite now assetKey (WString "") st)).1 in
      prop details "content" = VStr ""
      /\ prop details "error" = VStr "ENOTFOUND").
Proof.
  split.
  - intros Hc. cbv zeta. rewrite (assetCacheWrite_string _ _ _ _ Hc). cbv zeta.
    unfold assetCacheRead. cbn [cacheStorage assetCacheRegistry withCache].
    rewrite !lookup_insert_eq. cbn [fst]. unfold readReport.
    rewrite (isEmptyStr_VStr _ Hc).
    rewrite !prop_setProp_cases. cbn [decide].
    split; [reflexivity|]. split; [reflexivity|].
    unfold setProp. rewrite !lookup_insert_ne by discriminate. apply lookup_empty.
  - cbv zeta.
    assert (Hrep : prop (readReport assetKey (VStr "")) "content" = VStr ""
                   /\ prop (readReport assetKey (VStr "")) "error" = VStr "ENOTFOUND").
    { unfold readReport. cbn [isEmptyStr String.eqb].
      rewrite !prop_setProp_cases. cbn [decide]. auto. }
    unfold assetCacheWrite. cbn [isEmptyStr String.eqb]. unfold assetCacheRead.
    destruct (cacheStorage (assetCacheRemove (PatString assetKey) st)
                !! internalKey assetKey) as [blob|]; [|exact Hrep].
    destruct (assetCacheRemove_facts (PatString assetKey) st assetKey) as [Hreg _].
    rewrite Hreg. cbn [survives]. rewrite String.eqb_refl. cbn [negb].
    exact Hrep.
Qed.

Lemma assetCacheWrite_read_witness :
  let details :=
    (assetCacheRead 9 "easylist" true
       (assetCacheWrite 8 "easylist" (WString "||new^") demoState)).1 in
  prop details "content" = VStr "||new^"
  /\ prop details "assetKey" = VStr "easylist"
  /\ details !! "error" = None.
Proof.
  apply (proj1 (assetCacheWrite_read 8 9 "easylist" "||new^" true demoState)).
  discriminate.
Defined.

(** A write of a content that is not empty stamps the entry: [writeTime]
    and [readTime] become the current time, [resourceTime] the time given
    or 0, [remoteURL] the URL given if it is a string; every other
    property of the entry, and every other entry, is kept; the blob holds
    the content and the registry is saved at once. *)
Theorem assetCacheWrite_entry (now : Z) (assetKey content : string)
    (options : Obj) (st : State) :
  prop options "content" = VStr content ->
  content ≠ "" ->
  let st' := assetCacheWrite now assetKey (WObject options) st in
  let old : Obj := default ∅ (assetCacheRegistry st !! assetKey) in
  exists entry,
    assetCacheRegistry st' = <[assetKey := entry]> (assetCacheRegistry st)
    /\ cacheStorage st' = <[internalKey assetKey := VStr content]> (cacheStorage st)
    /\ savedCacheRegistry st' = Some (assetCacheRegistry st')
    /\ prop entry "writeTime" = timeVal now
    /\ prop entry "readTime" = timeVal now
    /\ prop entry "resourceTime" = orElse (prop options "resourceTime") (VNum 0)
    /\ prop entry "remoteURL"
       = (if isString (prop options "url") then prop options "url"
          else prop old "remoteURL")
    /\ (forall k, k ≠ "writeTime" -> k ≠ "readTime" -> k ≠ "resourceTime" ->
                  k ≠ "remoteURL" -> entry !! k = old !! k).
Proof.
  intros Hc Hne. cbv zeta. unfold assetCacheWrite. cbv zeta. rewrite Hc.
  assert (Hor : orElse (VStr content) (VStr "") = VStr content).
  { unfold orElse. by rewrite (truthy_VStr _ Hne). }
  rewrite !Hor. rewrite (isEmptyStr_VStr _ Hne).
  eexists. split; [reflexivity|]. split; [reflexivity|]. split; [reflexivity|].
  destruct (isString (prop options "url")).
  - rewrite !prop_setProp_cases. cbn [decide].
    repeat (split; [reflexivity|]).
    intros k H1 H2 H3 H4. unfold setProp.
    rewrite !lookup_insert_ne by congruence. reflexivity.
  - rewrite !prop_setProp_cases. cbn [decide].
    repeat (split; [reflexivity|]).
    intros k H1 H2 H3 H4. unfold setProp.
    rewrite !lookup_insert_ne by congruence. reflexivity.
Qed.

Lemma assetCacheWrite_entry_witness :
  exists entry,
    assetCacheRegistry
      (assetCacheWrite 8 "easylist"
         (WObject (setProp "url" (VStr "https://h/e.txt")
                     (setProp "content" (VStr "||new^") ∅))) demoState)
    = <[ "easylist" := entry ]> (assetCacheRegistry demoState)
    /\ prop entry "writeTime" = timeVal 8
    /\ prop entry "resourceTime" = VNum 0
    /\ prop entry "remoteURL" = VStr "https://h/e.txt".
Proof.
  destruct (assetCacheWrite_entry 8 "easylist" "||new^"
              (setProp "url" (VStr "https://h/e.txt")
                 (setProp "content" (VStr "||new^") ∅)) demoState)
    as (entry & Hreg & _ & _ & Hw & _ & Hr & Hu & _);
    [reflexivity | discriminate |].
  exists entry. split; [exact Hreg|]. split; [exact Hw|].
  split; [exact Hr | exact Hu].
Defined.

(** what one property of an entry becomes when [assetCacheSetDetails]
    meets the value [v] for it *)
Definition detailSet (v old : Val) : Val :=
  if isUndefined v then VUndefined
  else if strictEq v old then old else v.

Lemma isUndefined_true (v : Val) : isUndefined v = true -> v = VUndefined.
Proof. by destruct v. Qed.

Lemma prop_delete_eq (k : string) (o : Obj) : prop (delete k o) k = VUndefined.
Proof. unfold prop. by rewrite lookup_delete_eq. Qed.

Lemma setDetail_key (e : Obj) (m : bool) (k : string) (v : Val) :
  prop (setDetail (e, m) (k, v)).1 k = detailSet v (prop e k)
  /\ (forall k', k' ≠ k -> (setDetail (e, m) (k, v)).1 !! k' = e !! k').
Proof.
  unfold setDetail, detailSet. destruct (isUndefined v).
  - destruct (isUndefined (prop e k)) eqn:Hu; cbn [fst].
    + split; [by apply isUndefined_true | done].
    + split; [apply prop_delete_eq|]. intros k' Hk. by rewrite lookup_delete_ne.
  - destruct (strictEq v (prop e k)); cbn [fst]; [done|].
    split; [apply prop_setProp_eq|]. intros k' Hk. unfold setProp.
    by rewrite lookup_insert_ne.
Qed.

Lemma fold_setDetail (l : list (string * Val)) (e : Obj) (m : bool) :
  NoDup l.*1 ->
  (forall k, k ∉ l.*1 -> (fold_left setDetail l (e, m)).1 !! k = e !! k)
  /\ (forall k v, (k, v) ∈ l ->
        prop (fold_left setDetail l (e, m)).1 k = detailSet v (prop e k)).
Proof.
  revert e m. induction l as [|[k0 v0] l IH]; intros e m Hnd.
  - split; [done|]. intros k v Hin. by apply elem_of_nil in Hin.
  - cbn [fmap list_fmap fst] in Hnd. apply NoDup_cons in Hnd as [Hk0 Hnd].
    cbn [fold_left].
    destruct (setDetail (e, m) (k0, v0)) as [e1 m1] eqn:Hstep.
    destruct (setDetail_key e m k0 v0) as [Hkey Hother]. rewrite Hstep in *.
    cbn [fst] in Hkey, Hother.
    destruct (IH e1 m1 Hnd) as [IH1 IH2]. split.
    + intros k Hk. cbn [fmap list_fmap fst] in Hk.
      apply not_elem_of_cons in Hk as [Hne Hk].
      rewrite (IH1 k Hk). by apply Hother.
    + intros k v [[= -> ->]|Hin]%elem_of_cons.
      * unfold prop at 1. rewrite (IH1 k0 Hk0). exact Hkey.
      * rewrite (IH2 k v Hin).
        assert (Hsame : prop e1 k = prop e k); [|by rewrite Hsame].
        unfold prop. rewrite Hother; [done|].
        intros ->. apply Hk0. apply list_elem_of_fmap. by exists (k0, v).
Qed.

Lemma assetCacheSetDetails_facts (assetKey : string) (details : Obj) (st : State) :
  (assetCacheRegistry st !! assetKey = None ->
   assetCacheSetDetails assetKey details st = st)
  /\ (forall entry,
        assetCacheRegistry st !! assetKey = Some entry ->
        exists entry',
          assetCacheRegistry (assetCacheSetDetails assetKey details st)
          = <[assetKey := entry']> (assetCacheRegistry st)
          /\ cacheStorage (assetCacheSetDetails assetKey details st)
             = cacheStorage st
          /\ (forall k, details !! k = None -> entry' !! k = entry !! k)
          /\ (forall k v, details !! k = Some v ->
                prop entry' k = detailSet v (prop entry k))).
Proof.
  split.
  - intros Hnone. unfold assetCacheSetDetails. by rewrite Hnone.
  - intros entry He. unfold assetCacheSetDetails. rewrite He.
    destruct (fold_setDetail (map_to_list details) entry false
                (NoDup_fst_map_to_list details)) as [F1 F2].
    destruct (fold_left setDetail (map_to_list details) (entry, false))
      as [entry' modified].
    cbn [fst] in F1, F2. exists entry'.
    split; [by destruct modified|]. split; [by destruct modified|]. split.
    + intros k Hk. apply F1. intros Hin.
      apply list_elem_of_fmap in Hin as ([k' v] & -> & Hin).
      apply elem_of_map_to_list in Hin. cbn [fst] in Hk. congruence.
    + intros k v Hk. apply F2. by apply elem_of_map_to_list.
Qed.

(** [assetCacheSetDetails] does nothing for a key without entry.
    Otherwise it merges the details into the entry: a property the details
    do not mention is kept, one given as [undefined] is removed, one given
    a value strictly equal to the present one is kept, any other takes the
    value given; the other entries and the blobs are not touched. *)
Theorem assetCacheSetDetails_spec (assetKey : string) (details : Obj) (st : State) :
  (assetCacheRegistry st !! assetKey = None ->
   assetCacheSetDetails assetKey details st = st)
  /\ (forall entry,
        assetCacheRegistry st !! assetKey = Some entry ->
        exists entry',
          assetCacheRegistry (assetCacheSetDetails assetKey details st)
          = <[assetKey := entry']> (assetCacheRegistry st)
          /\ cacheStorage (assetCacheSetDetails assetKey details st)
             = cacheStorage st
          /\ (forall k, details !! k = None -> entry' !! k = entry !! k)
          /\ (forall k v, details !! k = Some v ->
                prop entry' k = detailSet v (prop entry k))).
Proof. exact (assetCacheSetDetails_facts assetKey details st). Qed.

Lemma assetCacheSetDetails_spec_witness :
  assetCacheSetDetails "unknown" (setProp "expires" (VNum 2) ∅) demoState
  = demoState
  /\ exists entry',
       assetCacheRegistry
         (assetCacheSetDetails "easylist"
            (setProp "readTime" VUndefined (setProp "expires" (VNum 2) ∅))
            demoState)
       = <[ "easylist" := entry' ]> (assetCacheRegistry demoState)
       /\ entry' !! "writeTime" = demoEntry !! "writeTime"
       /\ prop entry' "expires" = detailSet (VNum 2) (prop demoEntry "expires")
       /\ prop entry' "readTime"
          = detailSet VUndefined (prop demoEntry "readTime").
Proof.
  split.
  - apply (proj1 (assetCacheSetDetails_spec "unknown"
                    (setProp "expires" (VNum 2) ∅) demoState)).
    reflexivity.
  - destruct (proj2 (assetCacheSetDetails_spec "easylist"
                       (setProp "readTime" VUndefined
                          (setProp "expires" (VNum 2) ∅)) demoState)
                    demoEntry eq_refl)
      as (entry' & Hreg & _ & Hkeep & Hset).
    exists entry'. split; [exact Hreg|]. split; [|split].
    + apply Hkeep. reflexivity.
    + apply Hset. reflexivity.
    + apply Hset. reflexivity.
Defined.

(** ** Purge *)

Lemma assetCacheMarkAsDirty_facts (pattern exclude : Pattern) (st : State)
    (assetKey : string) :
  let st' := assetCacheMarkAsDirty pattern exclude st in
  cacheStorage st' = cacheStorage st
  /\ assetCacheRegistry st' !! assetKey
     = (fun cacheEntry =>
          if markedDirty pattern exclude assetKey cacheEntry
          then setProp "writeTime" (VNum 0) cacheEntry else cacheEntry)
       <$> (assetCacheRegistry st !! assetKey)
  /\ (matchesPattern pattern assetKey = true ->
      matchesExclude exclude assetKey = false ->
      getWriteTime assetKey st' = 0%Q)
  /\ (matchesPattern pattern assetKey = false
      \/ matchesExclude exclude assetKey = true ->
      assetCacheRegistry st' !! assetKey = assetCacheRegistry st !! assetKey)
  /\ (savedCacheRegistry st' = savedCacheRegistry st
      \/ savedCacheRegistry st' = Some (assetCacheRegistry st')).
Proof.
  cbv zeta.
  assert (Hreg : assetCacheRegistry (assetCacheMarkAsDirty pattern exclude st)
                   !! assetKey
                 = (fun cacheEntry =>
                      if markedDirty pattern exclude assetKey cacheEntry
                      then setProp "writeTime" (VNum 0) cacheEntry else cacheEntry)
                   <$> (assetCacheRegistry st !! assetKey)).
  { unfold assetCacheMarkAsDirty. cbn [assetCacheRegistry withCache].
    rewrite map_lookup_imap. by destruct (assetCacheRegistry st !! assetKey). }
  split; [reflexivity|]. split; [exact Hreg|]. split; [|split].
  - intros Hp He. unfold getWriteTime. rewrite Hreg.
    destruct (assetCacheRegistry st !! assetKey) as [e|]; [|reflexivity].
    cbn [fmap option_fmap option_map]. unfold markedDirty. rewrite Hp, He.
    cbn [andb negb]. destruct (truthy (prop e "writeTime")) eqn:Ht.
    + rewrite prop_setProp_eq. reflexivity.
    + unfold orElse. rewrite Ht. reflexivity.
  - intros Hno. rewrite Hreg.
    destruct (assetCacheRegistry st !! assetKey) as [e|]; [|reflexivity].
    cbn [fmap option_fmap option_map]. unfold markedDirty.
    destruct Hno as [-> | ->]; [reflexivity|]. by rewrite andb_false_r.
  - unfold assetCacheMarkAsDirty.
    cbn [savedCacheRegistry assetCacheRegistry withCache].
    destruct (existsb _ _); [by right | by left].
Qed.



(** ** Coherence of the cache *)

(** every entry of the cache registry has its content blob *)
Definition coherent (st : State) : Prop :=
  forall assetKey,
    is_Some (assetCacheRegistry st !! assetKey) ->
    is_Some (cacheStorage st !! internalKey assetKey).

Lemma coherent_insert (st st' : State) (assetKey : string) (entry : Obj) :
  assetCacheRegistry st' = <[assetKey := entry]> (assetCacheRegistry st) ->
  cacheStorage st' = cacheStorage st ->
  coherent st ->
  is_Some (assetCacheRegistry st !! assetKey) ->
  coherent st'.
Proof.
  intros Hreg Hblobs Hc Hk key. rewrite Hreg, Hblobs.
  destruct (decide (assetKey = key)) as [<-|Hne].
  - intros _. by apply Hc.
  - rewrite lookup_insert_ne by exact Hne. apply Hc.
Qed.

(** The operations on the cache keep it coherent: if every entry of the
    registry has a blob before [assetCacheWrite], [assetCacheRemove],
    [assetCacheRead], [assetCacheSetDetails] or [assetCacheMarkAsDirty],
    every entry has one afterwards. *)
Theorem cache_operations_coherent (st : State) :
  coherent st ->
  (forall now assetKey details, coherent (assetCacheWrite now assetKey details st))
  /\ (forall pattern, coherent (assetCacheRemove pattern st))
  /\ (forall now assetKey updateReadTime,
        coherent (assetCacheRead now assetKey updateReadTime st).2)
  /\ (forall assetKey details, coherent (assetCacheSetDetails assetKey details st))
  /\ (forall pattern exclude, coherent (assetCacheMarkAsDirty pattern exclude st)).
Proof.
  intros Hc.
  assert (Hremove : forall pattern, coherent (assetCacheRemove pattern st)).
  { intros pattern key Hk.
    destruct (assetCacheRemove_facts pattern st key) as (Hreg & _ & Hblob & _).
    rewrite Hreg in Hk. destruct (survives pattern key) eqn:Hs.
    - rewrite (Hblob eq_refl). by apply Hc.
    - by destruct Hk. }
  split; [|split; [exact Hremove|split; [|split]]].
  - intros now assetKey details. unfold assetCacheWrite. cbv zeta.
    destruct (isEmptyStr _); [apply Hremove|].
    intros key. cbn [assetCacheRegistry cacheStorage withCache].
    destruct (decide (assetKey = key)) as [<-|Hne].
    + intros _. rewrite lookup_insert_eq. eauto.
    + rewrite lookup_insert_ne by exact Hne.
      rewrite lookup_insert_ne by (intros Heq; apply Hne; by apply internalKey_inj).
      apply Hc.
  - intros now assetKey updateReadTime. unfold assetCacheRead.
    destruct (cacheStorage st !! internalKey assetKey) as [blob|]; [|exact Hc].
    destruct (assetCacheRegistry st !! assetKey) as [entry|] eqn:He; [|exact Hc].
    cbn [snd].
    apply (coherent_insert st _ assetKey (setProp "readTime" (timeVal now) entry));
      [by destruct updateReadTime | by destruct updateReadTime | exact Hc
      | by rewrite He].
  - intros assetKey details.
    destruct (assetCacheRegistry st !! assetKey) as [entry|] eqn:He.
    + destruct (proj2 (assetCacheSetDetails_facts assetKey details st) entry He)
        as (entry' & Hreg & Hblobs & _).
      apply (coherent_insert st _ assetKey entry' Hreg Hblobs Hc). by rewrite He.
    + by rewrite (proj1 (assetCacheSetDetails_facts assetKey details st) He).
  - intros pattern exclude key.
    destruct (assetCacheMarkAsDirty_facts pattern exclude st key)
      as (Hblobs & Hreg & _).
    rewrite Hblobs, Hreg. intros Hk. apply Hc.
    destruct (assetCacheRegistry st !! key); [eauto | by destruct Hk].
Qed.

Lemma cache_operations_coherent_witness :
  coherent (assetCacheWrite 8 "easylist" (WString "") demoState)
  /\ coherent (assetCacheRemove (PatArray []) demoState).
Proof.
  assert (Hdemo : coherent demoState).
  { intros key [e He].
    destruct (decide (key = "easylist")) as [->|Hne]; [by eexists|].
    unfold demoState in He. cbn [assetCacheRegistry] in He.
    rewrite lookup_singleton_ne in He by congruence. discriminate. }
  split.
  - apply (proj1 (cache_operations_coherent demoState Hdemo)).
  - apply (proj1 (proj2 (cache_operations_coherent demoState Hdemo))).
Defined.

(** ** Source registry *)

Lemma Dict_lookup_set {A} (k k' : string) (v : A) (d : list (string * A)) :
  Dict.lookup k' (Dict.set k v d)
  = if String.eqb k' k then Some v else Dict.lookup k' d.
Proof.
  induction d as [|[k0 v0] d IH]; cbn [Dict.set Dict.lookup].
  - by destruct (String.eqb k' k).
  - destruct (String.eqb_spec k k0) as [->|Hne]; cbn [Dict.lookup].
    + by destruct (String.eqb k' k0).
    + rewrite IH. destruct (String.eqb_spec k' k0) as [->|Hne']; [|done].
      destruct (String.eqb_spec k0 k) as [->|]; [by destruct Hne | done].
Qed.

Lemma Dict_keys_set {A} (k : string) (v : A) (d : list (string * A)) :
  (Dict.set k v d).*1 = if bool_decide (k ∈ d.*1) then d.*1 else (d.*1 ++ [k])%list.
Proof.
  induction d as [|[k0 v0] d IH]; cbn [Dict.set fmap list_fmap fst].
  - rewrite bool_decide_eq_false_2; [done|]. apply not_elem_of_nil.
  - destruct (String.eqb_spec k k0) as [->|Hne]; cbn [fmap list_fmap fst].
    + rewrite bool_decide_eq_true_2; [done|]. apply elem_of_cons. by left.
    + fold (@fmap list _ _ _ (@fst string A) (Dict.set k v d)).
      fold (@fmap list _ _ _ (@fst string A) d). rewrite IH.
      case_bool_decide as Hin.
      * rewrite bool_decide_eq_true_2; [done|]. apply elem_of_cons. by right.
      * rewrite bool_decide_eq_false_2; [done|].
        intros [Heq|Hin']%elem_of_cons; [by apply Hne | by apply Hin].
Qed.

Lemma Dict_lookup_None {A} (k : string) (d : list (string * A)) :
  k ∉ d.*1 -> Dict.lookup k d = None.
Proof.
  induction d as [|[k0 v0] d IH]; intros Hk; [done|].
  cbn [fmap list_fmap fst] in Hk. apply not_elem_of_cons in Hk as [Hne Hk].
  cbn [Dict.lookup]. destruct (String.eqb_spec k k0); [contradiction | by apply IH].
Qed.

Lemma Dict_lookup_remove {A} (k k' : string) (d : list (string * A)) :
  NoDup d.*1 ->
  Dict.lookup k' (Dict.remove k d)
  = if String.eqb k' k then None else Dict.lookup k' d.
Proof.
  induction d as [|[k0 v0] d IH]; intros Hnd; cbn [Dict.remove Dict.lookup].
  - by destruct (String.eqb k' k).
  - cbn [fmap list_fmap fst] in Hnd. apply NoDup_cons in Hnd as [Hk0 Hnd].
    destruct (String.eqb_spec k k0) as [->|Hne]; cbn [Dict.lookup].
    + destruct (String.eqb_spec k' k0) as [->|]; [|done]. by apply Dict_lookup_None.
    + rewrite (IH Hnd). destruct (String.eqb_spec k' k0) as [->|]; [|done].
      destruct (String.eqb_spec k0 k) as [->|]; [by destruct Hne | done].
Qed.

(** what a property of [newDict] leaves in the entry: [undefined] and
    [null] delete it *)
Definition mergeValue (v : Val) : option Val :=
  match v with
  | VUndefined | VNull => None
  | _ => Some v
  end.

Lemma fold_merge (l : list (string * Val)) (cur : Obj) (k : string) :
  NoDup l.*1 ->
  (k ∉ l.*1 ->
   fold_left (fun (cur : Obj) '(k, v) =>
                match v with
                | VUndefined | VNull => delete k cur
                | _ => setProp k v cur
                end) l cur !! k = cur !! k)
  /\ (forall v, (k, v) ∈ l ->
        fold_left (fun (cur : Obj) '(k, v) =>
                     match v with
                     | VUndefined | VNull => delete k cur
                     | _ => setProp k v cur
                     end) l cur !! k = mergeValue v).
Proof.
  revert cur. induction l as [|[k0 v0] l IH]; intros cur Hnd.
  - split; [done|]. intros v Hin. by apply elem_of_nil in Hin.
  - cbn [fmap list_fmap fst] in Hnd. apply NoDup_cons in Hnd as [Hk0 Hnd].
    cbn [fold_left].
    set (cur1 := match v0 with
                 | VUndefined | VNull => delete k0 cur
                 | _ => setProp k0 v0 cur
                 end).
    destruct (IH cur1 Hnd) as [IH1 IH2]. split.
    + intros Hk. cbn [fmap list_fmap fst] in Hk.
      apply not_elem_of_cons in Hk as [Hne Hk]. rewrite (IH1 Hk). subst cur1.
      unfold setProp.
      destruct v0; rewrite ?lookup_delete_ne, ?lookup_insert_ne by congruence;
        reflexivity.
    + intros v [[= -> ->]|Hin]%elem_of_cons; [|by apply IH2].
      rewrite (IH1 Hk0). subst cur1.
      unfold setProp.
      destruct v0; rewrite ?lookup_delete_eq, ?lookup_insert_eq; reflexivity.
Qed.

Lemma mergeDict_lookup (newDict currentDict : Obj) (k : string) :
  mergeDict newDict currentDict !! k
  = match newDict !! k with
    | Some v => mergeValue v
    | None => currentDict !! k
    end.
Proof.
  unfold mergeDict.
  destruct (fold_merge (map_to_list newDict) currentDict k
              (NoDup_fst_map_to_list newDict)) as [F1 F2].
  destruct (newDict !! k) as [v|] eqn:Hk.
  - apply F2. by apply elem_of_map_to_list.
  - apply F1. intros Hin. apply list_elem_of_fmap in Hin as ([k' v] & -> & Hin).
    apply elem_of_map_to_list in Hin. cbn [fst] in Hk. congruence.
Qed.

Lemma count_external (urls : list string) :
  negb (length (List.filter isExternalPath urls) =? 0)%nat
  = existsb isExternalPath urls
  /\ negb (length (List.filter isExternalPath urls) =? length urls)%nat
     = existsb (fun u => negb (isExternalPath u)) urls
  /\ (length (List.filter isExternalPath urls) <= length urls)%nat.
Proof.
  induction urls as [|u us (IH1 & IH2 & IH3)]; [done|].
  cbn [List.filter existsb]. destruct (isExternalPath u); cbn [length negb orb].
  - split; [done|]. split; [|lia]. exact IH2.
  - split; [exact IH1|]. split; [|lia].
    destruct (Nat.eqb_spec (length (List.filter isExternalPath us)) (S (length us)));
      [lia | done].
Qed.

Lemma mergeDict_prop (newDict currentDict : Obj) (k : string) :
  prop (mergeDict newDict currentDict) k
  = match newDict !! k with
    | Some v => default VUndefined (mergeValue v)
    | None => prop currentDict k
    end.
Proof.
  unfold prop at 1. rewrite mergeDict_lookup.
  by destruct (newDict !! k).
Qed.

Lemma prop_defined_lookup (o : Obj) (k : string) (v : Val) :
  prop o k = v -> v ≠ VUndefined -> o !! k = Some v.
Proof.
  unfold prop. destruct (o !! k) as [w|]; cbn; [by intros -> | congruence].
Qed.

(** the entry [registerAssetSource] stores, before [submitTime] is stamped *)
Definition normalized (newDict merged : Obj) : Obj :=
  match prop newDict "contentURL" with
  | VUndefined =>
      if isUndefined (prop merged "contentURL")
      then setProp "contentURL" (VArr []) merged
      else merged
  | v =>
      let contentURL := match v with VStr s => [s] | VArr l => l | _ => [] end in
      let currentDict :=
        match v with
        | VArr _ => merged
        | _ => setProp "contentURL" (VArr contentURL) merged
        end in
      let remoteURLCount := length (List.filter isExternalPath contentURL) in
      setProp "hasRemoteURL" (VBool (negb (remoteURLCount =? 0)%nat))
        (setProp "hasLocalURL"
           (VBool (negb (remoteURLCount =? length contentURL)%nat))
           currentDict)
  end.

Lemma normalized_spec (newDict currentDict : Obj) :
  let merged := mergeDict newDict currentDict in
  let entry := normalized newDict merged in
  prop entry "contentURL" ≠ VUndefined
  /\ (prop newDict "contentURL" ≠ VUndefined ->
      let urls := stringsOf (prop newDict "contentURL") in
      prop entry "contentURL" = VArr urls
      /\ prop entry "hasRemoteURL" = VBool (existsb isExternalPath urls)
      /\ prop entry "hasLocalURL"
         = VBool (existsb (fun u => negb (isExternalPath u)) urls))
  /\ (forall f, f ≠ "contentURL" -> f ≠ "hasLocalURL" -> f ≠ "hasRemoteURL" ->
                prop entry f = prop merged f).
Proof.
  cbv zeta. unfold normalized.
  destruct (prop newDict "contentURL") as [| |q|s|b|l|t e|] eqn:Hcu.
  - split; [|split].
    + destruct (isUndefined _) eqn:Hu.
      * rewrite prop_setProp_eq. discriminate.
      * intros Heq. rewrite Heq in Hu. discriminate.
    + intros Hne. by destruct Hne.
    + intros f H1 H2 H3. destruct (isUndefined _); [|done].
      rewrite prop_setProp_ne by congruence. done.
  - split; [|split].
    + rewrite !prop_setProp_cases. cbn [decide]. discriminate.
    + intros _. cbv zeta. cbn [stringsOf].
      rewrite !prop_setProp_cases. cbn [decide]. done.
    + intros f H1 H2 H3. rewrite !prop_setProp_ne by congruence. done.
  - split; [|split].
    + rewrite !prop_setProp_cases. cbn [decide]. discriminate.
    + intros _. cbv zeta. cbn [stringsOf].
      rewrite !prop_setProp_cases. cbn [decide]. done.
    + intros f H1 H2 H3. rewrite !prop_setProp_ne by congruence. done.
  - destruct (count_external [s]) as (C1 & C2 & _). split; [|split].
    + rewrite !prop_setProp_cases. cbn [decide]. discriminate.
    + intros _. cbv zeta. cbn [stringsOf].
      rewrite !prop_setProp_cases. cbn [decide]. by rewrite C1, C2.
    + intros f H1 H2 H3. rewrite !prop_setProp_ne by congruence. done.
  - split; [|split].
    + rewrite !prop_setProp_cases. cbn [decide]. discriminate.
    + intros _. cbv zeta. cbn [stringsOf].
      rewrite !prop_setProp_cases. cbn [decide]. done.
    + intros f H1 H2 H3. rewrite !prop_setProp_ne by congruence. done.
  - destruct (count_external l) as (C1 & C2 & _).
    assert (Hm : prop (mergeDict newDict currentDict) "contentURL" = VArr l).
    { rewrite mergeDict_prop.
      by rewrite (prop_defined_lookup _ _ _ Hcu). }
    split; [|split].
    + rewrite !prop_setProp_cases. cbn [decide]. rewrite Hm. discriminate.
    + intros _. cbv zeta. cbn [stringsOf].
      rewrite !prop_setProp_cases. cbn [decide]. by rewrite C1, C2, Hm.
    + intros f H1 H2 H3. rewrite !prop_setProp_ne by congruence. done.
  - split; [|split].
    + rewrite !prop_setProp_cases. cbn [decide]. discriminate.
    + intros _. cbv zeta. cbn [stringsOf].
      rewrite !prop_setProp_cases. cbn [decide]. done.
    + intros f H1 H2 H3. rewrite !prop_setProp_ne by congruence. done.
  - split; [|split].
    + rewrite !prop_setProp_cases. cbn [decide]. discriminate.
    + intros _. cbv zeta. cbn [stringsOf].
      rewrite !prop_setProp_cases. cbn [decide]. done.
    + intros f H1 H2 H3. rewrite !prop_setProp_ne by congruence. done.
Qed.

Lemma registerAssetSource_normalized (now : Z) (assetKey : string) (newDict : Obj)
    (registry : list (string * Obj)) :
  registerAssetSource now assetKey newDict registry
  = let merged := mergeDict newDict (default ∅ (Dict.lookup assetKey registry)) in
    let entry := normalized newDict merged in
    Dict.set assetKey
      (if truthy (prop entry "submitter")
       then setProp "submitTime" (timeVal now) entry else entry)
      registry.
Proof. reflexivity. Qed.

Lemma registerAssetSource_facts (now : Z) (assetKey : string) (newDict : Obj)
    (registry : list (string * Obj)) :
  let registry' := registerAssetSource now assetKey newDict registry in
  let old : Obj := default ∅ (Dict.lookup assetKey registry) in
  registry'.*1 = (if bool_decide (assetKey ∈ registry.*1) then registry.*1
                  else (registry.*1 ++ [assetKey])%list)
  /\ (forall k, k ≠ assetKey -> Dict.lookup k registry' = Dict.lookup k registry)
  /\ exists entry,
       Dict.lookup assetKey registry' = Some entry
       /\ prop entry "contentURL" ≠ VUndefined
       /\ (prop newDict "contentURL" ≠ VUndefined ->
           let urls := stringsOf (prop newDict "contentURL") in
           prop entry "contentURL" = VArr urls
           /\ prop entry "hasRemoteURL" = VBool (existsb isExternalPath urls)
           /\ prop entry "hasLocalURL"
              = VBool (existsb (fun u => negb (isExternalPath u)) urls))
       /\ (forall f, f ≠ "contentURL" -> f ≠ "hasLocalURL" ->
                     f ≠ "hasRemoteURL" -> f ≠ "submitTime" ->
                     prop entry f
                     = match newDict !! f with
                       | Some v => default VUndefined (mergeValue v)
                       | None => prop old f
                       end)
       /\ (truthy (prop entry "submitter") = true ->
           prop entry "submitTime" = timeVal now).
Proof.
  cbv zeta. rewrite registerAssetSource_normalized. cbv zeta.
  set (old := default ∅ (Dict.lookup assetKey registry)).
  destruct (normalized_spec newDict old) as (N1 & N2 & N3). cbv zeta in N1, N2, N3.
  set (entry := normalized newDict (mergeDict newDict old)) in *.
  split; [apply Dict_keys_set|]. split.
  { intros k Hk. rewrite Dict_lookup_set.
    destruct (String.eqb_spec k assetKey); [contradiction | done]. }
  eexists. split; [rewrite Dict_lookup_set, String.eqb_refl; reflexivity|].
  destruct (truthy (prop entry "submitter")) eqn:Hs.
  - rewrite !prop_setProp_cases. cbn [decide].
    split; [exact N1|]. split; [exact N2|]. split.
    + intros f H1 H2 H3 H4. rewrite prop_setProp_ne by congruence.
      rewrite (N3 f H1 H2 H3). apply mergeDict_prop.
    + intros _. reflexivity.
  - split; [exact N1|]. split; [exact N2|]. split.
    + intros f H1 H2 H3 H4. rewrite (N3 f H1 H2 H3). apply mergeDict_prop.
    + rewrite Hs. discriminate.
Qed.



Lemma Dict_keys_remove {A} (k : string) (d : list (string * A)) :
  NoDup d.*1 -> NoDup (Dict.remove k d).*1 /\ forall k', k' ∈ (Dict.remove k d).*1 -> k' ∈ d.*1.
Proof.
  induction d as [|[k0 v0] d IH]; intros Hnd; [done|].
  cbn [fmap list_fmap fst] in Hnd. apply NoDup_cons in Hnd as [Hk0 Hnd].
  cbn [Dict.remove]. destruct (String.eqb_spec k k0) as [->|Hne].
  - split; [exact Hnd|]. intros k' Hk'. apply elem_of_cons. by right.
  - destruct (IH Hnd) as [IH1 IH2]. cbn [fmap list_fmap fst]. split.
    + apply NoDup_cons. split; [|exact IH1]. intros Hin. apply Hk0. by apply IH2.
    + intros k' [->|Hk']%elem_of_cons; apply elem_of_cons; [by left|].
      right. by apply IH2.
Qed.

(** The keys of the source registry stay pairwise distinct through
    [registerAssetSource] and [unregisterAssetSource].  After
    [unregisterAssetSource] the key has no entry in the source registry nor
    in the cache registry, and the blob its cache entry had is deleted;
    the entries and blobs of the other keys are as before. *)
Theorem unregisterAssetSource_spec (now : Z) (assetKey : string) (newDict : Obj)
    (st : State) :
  NoDup (assetSourceRegistry st).*1 ->
  let st' := unregisterAssetSource assetKey st in
  NoDup (registerAssetSource now assetKey newDict (assetSourceRegistry st)).*1
  /\ NoDup (assetSourceRegistry st').*1
  /\ Dict.lookup assetKey (assetSourceRegistry st') = None
  /\ assetCacheRegistry st' !! assetKey = None
  /\ (is_Some (assetCacheRegistry st !! assetKey) ->
      cacheStorage st' !! internalKey assetKey = None)
  /\ (forall k, k ≠ assetKey ->
        Dict.lookup k (assetSourceRegistry st')
        = Dict.lookup k (assetSourceRegistry st)
        /\ assetCacheRegistry st' !! k = assetCacheRegistry st !! k
        /\ cacheStorage st' !! internalKey k = cacheStorage st !! internalKey k).
Proof.
  intros Hnd. cbv zeta. unfold unregisterAssetSource.
  assert (Hsrc : assetSourceRegistry
                   (withSource (Dict.remove assetKey)
                      (assetCacheRemove (PatString assetKey) st))
                 = Dict.remove assetKey (assetSourceRegistry st)).
  { unfold assetCacheRemove. cbv zeta. by case_bool_decide. }
  assert (Hreg : assetCacheRegistry
                   (withSource (Dict.remove assetKey)
                      (assetCacheRemove (PatString assetKey) st))
                 = assetCacheRegistry (assetCacheRemove (PatString assetKey) st))
    by reflexivity.
  assert (Hblobs : cacheStorage
                     (withSource (Dict.remove assetKey)
                        (assetCacheRemove (PatString assetKey) st))
                   = cacheStorage (assetCacheRemove (PatString assetKey) st))
    by reflexivity.
  rewrite Hsrc, Hreg, Hblobs.
  split; [|split; [|split; [|split; [|split]]]].
  - destruct (registerAssetSource_facts now assetKey newDict (assetSourceRegistry st))
      as (Hkeys & _). cbv zeta in Hkeys. rewrite Hkeys.
    case_bool_decide as Hin; [exact Hnd|].
    apply NoDup_app. split; [exact Hnd|]. split; [|apply NoDup_singleton].
    intros k Hk Hk'. apply list_elem_of_singleton in Hk' as ->. contradiction.
  - by apply Dict_keys_remove.
  - rewrite (Dict_lookup_remove _ _ _ Hnd). by rewrite String.eqb_refl.
  - destruct (assetCacheRemove_facts (PatString assetKey) st assetKey) as [H1 _].
    rewrite H1. cbn [survives]. by rewrite String.eqb_refl.
  - intros Hk.
    destruct (assetCacheRemove_facts (PatString assetKey) st assetKey)
      as (_ & H2 & _).
    apply H2; [exact Hk|]. cbn [survives]. by rewrite String.eqb_refl.
  - intros k Hk.
    assert (Hs : survives (PatString assetKey) k = true).
    { cbn [survives]. by destruct (String.eqb_spec k assetKey). }
    destruct (assetCacheRemove_facts (PatString assetKey) st k) as (H1 & _ & H3 & _).
    rewrite (Dict_lookup_remove _ _ _ Hnd).
    destruct (String.eqb_spec k assetKey); [contradiction|].
    rewrite H1, Hs. split; [done|]. split; [done|]. by apply H3.
Qed.

Lemma unregisterAssetSource_spec_witness :
  Dict.lookup "easylist"
    (assetSourceRegistry (unregisterAssetSource "easylist" demoState)) = None
  /\ assetCacheRegistry (unregisterAssetSource "easylist" demoState) !! "easylist"
     = None
  /\ cacheStorage (unregisterAssetSource "easylist" demoState)
       !! internalKey "easylist" = None.
Proof.
  assert (Hnd : NoDup (assetSourceRegistry demoState).*1).
  { apply NoDup_singleton. }
  destruct (unregisterAssetSource_spec 0 "easylist" ∅ demoState Hnd)
    as (_ & _ & H1 & H2 & H3 & _).
  split; [exact H1|]. split; [exact H2|]. apply H3. by exists demoEntry.
Defined.

(** ** Get orchestrator *)

Lemma getReport_detached (assetKey : string) (options o : Obj) (content : Val)
    (url : string) (err : Val) (st : State) :
  (getReport assetKey options (Detached o) content url err st).2 = st
  /\ prop (getReport assetKey options (Detached o) content url err st).1 "content"
     = content
  /\ prop (getReport assetKey options (Detached o) content url err st).1 "error"
     = err.
Proof.
  unfold getReport. cbn [assign snd fst]. cbv zeta.
  split; [reflexivity|].
  destruct err; cbn [isUndefined];
    destruct (truthy (prop options "needSourceURL"));
    destruct (String.eqb url ""), (assetCacheRegistry st !! assetKey),
      (isExternalPath url);
    rewrite !prop_setProp_cases; cbn [decide]; rewrite ?prop_empty;
    split; reflexivity.
Qed.

(** A cache hit: when the key is not the user filters, has an entry in the
    cache registry and a blob that is a string and not empty, [assets.get]
    returns that content without error and without fetching (the answer
    does not depend on the network); it records the read time in the entry
    and changes neither the blobs, nor the source registry, nor the
    settings. *)
Theorem get_cache_hit `{Host} (net net' : Network) (now : Z) (assetKey : string)
    (options : Obj) (st : State) (entry : Obj) (content : string) :
  assetKey ≠ userFiltersPath ->
  assetCacheRegistry st !! assetKey = Some entry ->
  cacheStorage st !! internalKey assetKey = Some (VStr content) ->
  content ≠ "" ->
  let returned := get net now assetKey options st in
  prop returned.1 "content" = VStr content
  /\ prop returned.1 "error" = VUndefined
  /\ get net' now assetKey options st = returned
  /\ assetCacheRegistry returned.2
     = <[assetKey := setProp "readTime" (timeVal now) entry]> (assetCacheRegistry st)
  /\ cacheStorage returned.2 = cacheStorage st
  /\ assetSourceRegistry returned.2 = assetSourceRegistry st
  /\ userStorage returned.2 = userStorage st.
Proof.
  intros Hkey He Hb Hc. cbv zeta.
  assert (Hget : forall n,
             get n now assetKey options st
             = getReport assetKey options (Detached ∅) (VStr content) "" VUndefined
                 (assetCacheRead now assetKey
                    (negb (Str.startsWith "compiled/" assetKey
                           || Str.startsWith "selfie/" assetKey)) st).2).
  { intros n. unfold get.
    destruct (String.eqb_spec assetKey userFiltersPath); [contradiction|].
    cbv zeta. unfold assetCacheRead. rewrite Hb, He.
    unfold readReport. rewrite (isEmptyStr_VStr _ Hc).
    rewrite prop_setProp_eq. rewrite (isEmptyStr_VStr _ Hc). reflexivity. }
  rewrite (Hget net), (Hget net').
  destruct (getReport_detached assetKey options ∅ (VStr content) "" VUndefined
              (assetCacheRead now assetKey
                 (negb (Str.startsWith "compiled/" assetKey
                        || Str.startsWith "selfie/" assetKey)) st).2)
    as (Hst & Hcontent & Herr).
  rewrite Hst, Hcontent, Herr.
  split; [reflexivity|]. split; [reflexivity|]. split; [reflexivity|].
  unfold assetCacheRead. rewrite Hb, He. cbn [snd].
  destruct (negb _); cbn; auto.
Qed.

Lemma get_cache_hit_witness :
  let returned := get (H := demoHost) demoNet demoNow "easylist" ∅ demoState in
  prop returned.1 "content" = VStr "||cached^"
  /\ prop returned.1 "error" = VUndefined
  /\ get (H := demoHost) (mkNetwork (fun _ _ => ∅) (fun _ _ => ∅)) demoNow
         "easylist" ∅ demoState = returned
  /\ assetCacheRegistry returned.2
     = <[ "easylist" := setProp "readTime" (timeVal demoNow) demoEntry ]>
         (assetCacheRegistry demoState)
  /\ cacheStorage returned.2 = cacheStorage demoState
  /\ assetSourceRegistry returned.2 = assetSourceRegistry demoState
  /\ userStorage returned.2 = userStorage demoState.
Proof.
  apply (get_cache_hit (H := demoHost) demoNet
           (mkNetwork (fun _ _ => ∅) (fun _ _ => ∅)) demoNow "easylist" ∅
           demoState demoEntry "||cached^");
    [discriminate | reflexivity | reflexivity | discriminate].
Defined.



(** The user filters go through the settings storage in both directions:
    when [µb.userFiltersPath] starts with [user-], what [assets.put]
    stored under it is what [assets.get] returns, and neither touches the
    cache. *)
Theorem user_filters_round_trip `{Host} (net : Network) (now now' : Z)
    (content : string) (options : Obj) (st : State) :
  isUserAsset userFiltersPath = true ->
  let st' := put now userFiltersPath content st in
  let returned := get net now' userFiltersPath options st' in
  prop returned.1 "content" = VStr content
  /\ returned.2 = st'
  /\ assetCacheRegistry st' = assetCacheRegistry st
  /\ cacheStorage st' = cacheStorage st.
Proof.
  intros Huser. cbv zeta. rewrite get_userFiltersPath. cbn [fst snd].
  unfold put. rewrite Huser. cbn [saveUserAsset snd].
  unfold readUserAsset. cbn [userStorage withUserStorage].
  rewrite lookup_insert_eq. rewrite prop_setProp_eq. auto.
Qed.

Lemma user_filters_round_trip_witness :
  let st' := put 3 (userFiltersPath (Host := demoHost)) "||mine^" demoState in
  let returned :=
    get (H := demoHost) demoNet 4 (userFiltersPath (Host := demoHost)) ∅ st' in
  prop returned.1 "content" = VStr "||mine^"
  /\ returned.2 = st'
  /\ assetCacheRegistry st' = assetCacheRegistry demoState
  /\ cacheStorage st' = cacheStorage demoState.
Proof.
  apply (user_filters_round_trip (H := demoHost) demoNet 3 4 "||mine^" ∅ demoState).
  reflexivity.
Defined.

(** ** Remote refresher, continued *)

Lemma withSource_cache (f : list (string * Obj) -> list (string * Obj)) (st : State) :
  assetCacheRegistry (withSource f st) = assetCacheRegistry st
  /\ cacheStorage (withSource f st) = cacheStorage st
  /\ userStorage (withSource f st) = userStorage st.
Proof. done. Qed.

Lemma assign_userStorage (assetKey : string) (ref : DetailsRef) (k : string) (v : Val)
    (st : State) :
  userStorage (snd (assign assetKey ref k v st)) = userStorage st.
Proof. by destruct ref. Qed.

Lemma deref_start (assetKey : string) (st : State) :
  deref assetKey
        (match Dict.lookup assetKey (assetSourceRegistry st) with
         | Some _ => InRegistry
         | None => Detached ∅
         end) st
  = default ∅ (Dict.lookup assetKey (assetSourceRegistry st)).
Proof.
  unfold deref. destruct (Dict.lookup assetKey (assetSourceRegistry st)); reflexivity.
Qed.

(** An unknown asset: for a key that the source registry does not list,
    [getRemote] fetches nothing, reports an empty content without error
    and leaves the state as it is. *)
Theorem getRemote_unknown_key `{Host} (net : Network) (now : Z) (assetKey : string)
    (st : State) :
  Dict.lookup assetKey (assetSourceRegistry st) = None ->
  getRemote net now assetKey st
  = (setProp "content" (VStr "") (setProp "assetKey" (VStr assetKey) ∅), st).
Proof.
  intros Hnone. unfold getRemote. rewrite Hnone. cbn [deref].
  unfold remoteContentURLs. rewrite !prop_empty. cbn [stringsOf getRemoteLoop].
  reflexivity.
Qed.

Lemma getRemote_unknown_key_witness :
  getRemote (H := demoHost) demoNet demoNow "nolist" demoState
  = (setProp "content" (VStr "") (setProp "assetKey" (VStr "nolist") ∅), demoState).
Proof.
  apply (getRemote_unknown_key (H := demoHost) demoNet demoNow "nolist" demoState).
  reflexivity.
Defined.

(** the value the loop of [getRemote] keeps in [error] after a fetch that
    brought no content *)
Definition fetchError (result : Obj) : Val :=
  if strictEq (prop result "statusCode") (VNum 0)
  then VStr "network error" else prop result "statusText".

Lemma getRemoteLoop_all_failed `{Host} (net : Network) (now : Z) (assetKey : string)
    (ref : DetailsRef) (cacheDetails : Obj) (st : State)
    (contentURLs : list string) (error : Val) (stale : bool) :
  let resultOf u :=
    remoteFetch net
      (strictEq (prop (deref assetKey ref st) "content") (VStr "filters"))
      (remoteServerFriendly st) (remoteURL assetKey u) in
  Forall (fun u => stringIsNotEmpty (prop (resultOf u) "content") = false)
         (List.filter isExternalPath contentURLs) ->
  getRemoteLoop net now assetKey ref cacheDetails contentURLs error stale st
  = Next (match last (List.filter isExternalPath contentURLs) with
          | Some u => fetchError (resultOf u)
          | None => error
          end) stale st.
Proof.
  cbv zeta. revert error.
  induction contentURLs as [|u us IH]; intros error Hall; [reflexivity|].
  cbn [getRemoteLoop List.filter] in *. unfold getRemoteVisit at 1.
  destruct (isExternalPath u) eqn:Hext; cbn [negb]; cbv iota.
  - inversion Hall as [|? ? Hu Hus]; subst. cbv zeta. rewrite Hu. cbn [negb].
    cbv iota. rewrite (IH _ Hus). rewrite last_cons.
    destruct (last (List.filter isExternalPath us)); reflexivity.
  - apply IH. exact Hall.
Qed.

(** Failed fetches leave the cache alone: when every external URL of the
    asset is fetched without content, [getRemote] returns an empty
    content, changes neither the cache registry, nor the content blobs,
    nor the settings, and reports [ENOTFOUND] exactly when the last URL
    fetched left an error (a status code 0 or a status text); a failure
    that carries neither, as the one of the list assembler, is reported
    without error. *)
Theorem getRemote_all_failed `{Host} (net : Network) (now : Z) (assetKey : string)
    (st : State) :
  let assetDetails := default ∅ (Dict.lookup assetKey (assetSourceRegistry st)) in
  let resultOf contentURL :=
    remoteFetch net (strictEq (prop assetDetails "content") (VStr "filters"))
                (remoteServerFriendly st) (remoteURL assetKey contentURL) in
  let fetched :=
    List.filter isExternalPath
                (remoteContentURLs assetDetails (remoteServerFriendly st)) in
  Forall (fun u => stringIsNotEmpty (prop (resultOf u) "content") = false) fetched ->
  let returned := getRemote net now assetKey st in
  prop returned.1 "content" = VStr ""
  /\ prop returned.1 "error"
     = match last fetched with
       | Some u => if isUndefined (fetchError (resultOf u)) then VUndefined
                   else VStr "ENOTFOUND"
       | None => VUndefined
       end
  /\ assetCacheRegistry returned.2 = assetCacheRegistry st
  /\ cacheStorage returned.2 = cacheStorage st
  /\ userStorage returned.2 = userStorage st.
Proof.
  cbv zeta. intros Hall. unfold getRemote.
  set (ref := match Dict.lookup assetKey (assetSourceRegistry st) with
              | Some _ => InRegistry
              | None => Detached ∅
              end).
  assert (Hd : deref assetKey ref st
               = default ∅ (Dict.lookup assetKey (assetSourceRegistry st)))
    by apply deref_start.
  rewrite Hd.
  pose proof (getRemoteLoop_all_failed net now assetKey ref
                (default ∅ (assetCacheRegistry st !! assetKey)) st
                (remoteContentURLs
                   (default ∅ (Dict.lookup assetKey (assetSourceRegistry st)))
                   (remoteServerFriendly st)) VUndefined false) as Hloop.
  cbv zeta in Hloop. rewrite Hd in Hloop. rewrite (Hloop Hall). clear Hloop.
  destruct (last _) as [u|]; cbn [isUndefined negb].
  - destruct (isUndefined (fetchError _)) eqn:Hu; cbn [negb]; cbv iota.
    + unfold remoteReport. cbn [truthy]. cbv iota. cbn [fst snd].
      destruct (assign_cache assetKey ref "lastError" VUndefined st) as [-> ->].
      rewrite assign_userStorage.
      rewrite prop_setProp_eq, !prop_setProp_ne by discriminate.
      rewrite prop_empty. auto.
    + unfold remoteReport. cbn [truthy String.eqb Ascii.eqb Bool.eqb negb].
      cbv iota. cbn [fst snd].
      match goal with
      | |- context [assign assetKey ref "lastError" ?v ?s] =>
          destruct (assign_cache assetKey ref "lastError" v s) as [-> ->];
          rewrite (assign_userStorage assetKey ref "lastError" v s)
      end.
      rewrite !prop_setProp_cases. cbn [decide]. auto.
  - cbv iota. unfold remoteReport. cbn [truthy]. cbv iota. cbn [fst snd].
    destruct (assign_cache assetKey ref "lastError" VUndefined st) as [-> ->].
    rewrite assign_userStorage.
    rewrite prop_setProp_eq, !prop_setProp_ne by discriminate.
    rewrite prop_empty. auto.
Qed.

Lemma getRemote_all_failed_witness :
  let returned := getRemote (H := demoHost) demoNet updateTime "older" updateState in
  prop returned.1 "content" = VStr ""
  /\ prop returned.1 "error" = VUndefined
  /\ assetCacheRegistry returned.2 = assetCacheRegistry updateState
  /\ cacheStorage returned.2 = cacheStorage updateState
  /\ userStorage returned.2 = userStorage updateState.
Proof.
  destruct (getRemote_all_failed (H := demoHost) demoNet updateTime "older"
              updateState) as (Hc & He & Hr & Hb & Hu).
  { match goal with
    | |- Forall _ ?l => let l' := eval vm_compute in l in change l with l'
    end.
    constructor; [vm_compute; reflexivity | constructor]. }
  cbv zeta. split; [exact Hc|]. split; [|auto].
  rewrite He. vm_compute. reflexivity.
Defined.

Lemma orElse_idem (v d : Val) : orElse (orElse v d) d = orElse v d.
Proof.
  unfold orElse. destruct (truthy v) eqn:Hv; [by rewrite Hv|].
  by destruct (truthy d).
Qed.

Lemma metadataFields_keys `{Host} (content : string) (k : string) :
  k ∉ ["lastModified"; "expires"; "diffName"; "diffPath"; "diffExpires"] ->
  extractMetadataFromList content metadataFields !! k = None.
Proof.
  intros Hk.
  assert (Hne : k ≠ "lastModified" /\ k ≠ "expires" /\ k ≠ "diffName"
                /\ k ≠ "diffPath" /\ k ≠ "diffExpires").
  { repeat split; intros ->; apply Hk; repeat constructor. }
  destruct Hne as (H1 & H2 & H3 & H4 & H5).
  assert (Hraw : rawMetadata content metadataFields !! k = None).
  { unfold rawMetadata, metadataFields. cbn [fold_left]. cbv zeta.
    change (fieldKey (collapseSpaces false "Last-Modified")) with "lastModified".
    change (fieldKey (collapseSpaces false "Expires")) with "expires".
    change (fieldKey (collapseSpaces false "Diff-Name")) with "diffName".
    change (fieldKey (collapseSpaces false "Diff-Path")) with "diffPath".
    change (fieldKey (collapseSpaces false "Diff-Expires")) with "diffExpires".
    unfold setProp. rewrite !lookup_insert_ne by congruence. apply lookup_empty. }
  unfold extractMetadataFromList. cbv zeta.
  repeat match goal with
         | |- context [if truthy ?v then _ else _] => destruct (truthy v)
         end;
    unfold setProp; rewrite ?lookup_insert_ne by congruence; exact Hraw.
Qed.

Lemma assetCacheSetDetails_frame (assetKey : string) (details : Obj) (st : State)
    (entry : Obj) :
  assetCacheRegistry st !! assetKey = Some entry ->
  exists entry',
    assetCacheRegistry (assetCacheSetDetails assetKey details st)
    = <[assetKey := entry']> (assetCacheRegistry st)
    /\ cacheStorage (assetCacheSetDetails assetKey details st) = cacheStorage st
    /\ (forall k, details !! k = None -> entry' !! k = entry !! k).
Proof.
  intros He. unfold assetCacheSetDetails. rewrite He.
  destruct (fold_setDetail (map_to_list details) entry false
              (NoDup_fst_map_to_list details)) as [F1 _].
  destruct (fold_left setDetail (map_to_list details) (entry, false))
    as [entry' modified].
  cbn [fst] in F1. exists entry'.
  split; [by destruct modified|]. split; [by destruct modified|].
  intros k Hk. apply F1. intros Hin.
  apply list_elem_of_fmap in Hin as ([k' v] & -> & Hin).
  apply elem_of_map_to_list in Hin. cbn [fst] in Hk. congruence.
Qed.

(** a turn of the loop of [getRemote] that stores nothing: the URL is not
    external, or its fetch brought no content, or a stale copy *)
Definition passedOver (cacheDetails : Obj) (external : bool) (result : Obj) : Prop :=
  external = false
  \/ stringIsNotEmpty (prop result "content") = false
  \/ resourceIsStale result cacheDetails = true.

Lemma getRemoteLoop_passed `{Host} (net : Network) (now : Z) (assetKey : string)
    (ref : DetailsRef) (cacheDetails : Obj) (st : State)
    (passed rest : list string) (error : Val) (stale : bool) :
  Forall (fun u =>
            passedOver cacheDetails (isExternalPath u)
              (remoteFetch net
                 (strictEq (prop (deref assetKey ref st) "content") (VStr "filters"))
                 (remoteServerFriendly st) (remoteURL assetKey u)))
         passed ->
  exists error' stale',
    getRemoteLoop net now assetKey ref cacheDetails (passed ++ rest)%list
                  error stale st
    = getRemoteLoop net now assetKey ref cacheDetails rest error' stale' st.
Proof.
  revert error stale.
  induction passed as [|u us IH]; intros error stale Hall; [by eauto|].
  inversion Hall as [|? ? Hu Hus]; subst.
  change ((u :: us) ++ rest)%list with (u :: (us ++ rest))%list.
  cbn [getRemoteLoop]. unfold getRemoteVisit at 1.
  destruct (isExternalPath u) eqn:Hext; cbn [negb]; cbv iota;
    [|by apply IH].
  cbv zeta.
  destruct (stringIsNotEmpty _) eqn:Hne; cbn [negb]; cbv iota; [|by apply IH].
  destruct Hu as [Hu | [Hu | Hu]]; [discriminate | congruence |].
  rewrite Hu. by apply IH.
Qed.

(** A refresh: [getRemote] stores the first copy that is fetched from an
    external URL with a content and is not stale, the URLs before it being
    passed over.  It returns that content without error; the blob of the
    asset becomes that content; the cache entry of the asset gets the
    current time as [writeTime], the fetched [resourceTime] (0 when there
    is none) and the URL fetched as [remoteURL]; the cache entries of the
    other assets are as they were.  The stored [resourceTime] is not lower
    than the cached one when neither is 0. *)
Theorem getRemote_stores_first_fresh `{Host} (net : Network) (now : Z)
    (assetKey : string) (st : State) (passed rest : list string)
    (contentURL content : string) :
  let assetDetails := default ∅ (Dict.lookup assetKey (assetSourceRegistry st)) in
  let cacheDetails : Obj := default ∅ (assetCacheRegistry st !! assetKey) in
  let resultOf u :=
    remoteFetch net (strictEq (prop assetDetails "content") (VStr "filters"))
                (remoteServerFriendly st) (remoteURL assetKey u) in
  remoteContentURLs assetDetails (remoteServerFriendly st)
  = (passed ++ contentURL :: rest)%list ->
  Forall (fun u => passedOver cacheDetails (isExternalPath u) (resultOf u)) passed ->
  isExternalPath contentURL = true ->
  prop (resultOf contentURL) "content" = VStr content ->
  content ≠ "" ->
  resourceIsStale (resultOf contentURL) cacheDetails = false ->
  let returned := getRemote net now assetKey st in
  prop returned.1 "content" = VStr content
  /\ returned.1 !! "error" = None
  /\ cacheStorage returned.2
     = <[internalKey assetKey := VStr content]> (cacheStorage st)
  /\ (forall k, k ≠ assetKey ->
        assetCacheRegistry returned.2 !! k = assetCacheRegistry st !! k)
  /\ (exists entry,
        assetCacheRegistry returned.2 !! assetKey = Some entry
        /\ prop entry "writeTime" = timeVal now
        /\ prop entry "resourceTime"
           = orElse (prop (resultOf contentURL) "resourceTime") (VNum 0)
        /\ prop entry "remoteURL" = VStr (remoteURL assetKey contentURL))
  /\ (forall n c,
        prop (resultOf contentURL) "resourceTime" = VNum n ->
        prop cacheDetails "resourceTime" = VNum c ->
        ~ (n == 0)%Q -> ~ (c == 0)%Q -> (c <= n)%Q).
Proof.
  cbv zeta. intros Hurls Hpassed Hext Hcontent Hne Hfresh.
  cbv beta in Hcontent, Hfresh. unfold getRemote.
  set (ref := match Dict.lookup assetKey (assetSourceRegistry st) with
              | Some _ => InRegistry
              | None => Detached ∅
              end).
  assert (Hd : deref assetKey ref st
               = default ∅ (Dict.lookup assetKey (assetSourceRegistry st)))
    by apply deref_start.
  rewrite Hd, Hurls.
  destruct (getRemoteLoop_passed net now assetKey ref
              (default ∅ (assetCacheRegistry st !! assetKey)) st passed
              (contentURL :: rest) VUndefined false) as (error & stale & ->).
  { rewrite Hd. exact Hpassed. }
  cbn [getRemoteLoop]. unfold getRemoteVisit. rewrite Hext. cbn [negb].
  cbv iota zeta. rewrite Hd, Hcontent.
  cbn [stringIsNotEmpty]. destruct (String.eqb_spec content ""); [contradiction|].
  cbn [negb]. cbv iota. rewrite Hfresh.
  set (result := remoteFetch net _ _ _) in *.
  set (isFilters := strictEq _ (VStr "filters")) in *.
  set (written :=
         assetCacheWrite now assetKey
           (WObject
              (setProp "resourceTime" (orElse (prop result "resourceTime") (VNum 0))
                 (setProp "url" (VStr (remoteURL assetKey contentURL))
                    (setProp "content" (VStr content) ∅)))) st).
  set (entry1 :=
         setProp "remoteURL" (VStr (remoteURL assetKey contentURL))
           (setProp "resourceTime" (orElse (prop result "resourceTime") (VNum 0))
              (setProp "readTime" (timeVal now)
                 (setProp "writeTime" (timeVal now)
                    (default ∅ (assetCacheRegistry st !! assetKey)))))).
  assert (Hwritten :
            assetCacheRegistry written = <[assetKey := entry1]> (assetCacheRegistry st)
            /\ cacheStorage written
               = <[internalKey assetKey := VStr content]> (cacheStorage st)).
  { subst written entry1. unfold assetCacheWrite. cbv zeta.
    repeat first [ rewrite prop_setProp_eq
                 | rewrite prop_setProp_ne by discriminate ].
    assert (Hor : orElse (VStr content) (VStr "") = VStr content).
    { unfold orElse. by rewrite (truthy_VStr _ Hne). }
    rewrite !Hor. rewrite (isEmptyStr_VStr _ Hne). cbn [isString].
    rewrite orElse_idem. split; reflexivity. }
  destruct Hwritten as [Hreg1 Hblob1].
  set (detailed :=
         if isFilters
         then assetCacheSetDetails assetKey
                (extractMetadataFromList (asString (VStr content)) metadataFields)
                written
         else written).
  assert (Hdetailed :
            exists entry,
              assetCacheRegistry detailed
              = <[assetKey := entry]> (assetCacheRegistry st)
              /\ cacheStorage detailed
                 = <[internalKey assetKey := VStr content]> (cacheStorage st)
              /\ entry !! "writeTime" = entry1 !! "writeTime"
              /\ entry !! "resourceTime" = entry1 !! "resourceTime"
              /\ entry !! "remoteURL" = entry1 !! "remoteURL").
  { subst detailed. destruct isFilters.
    - destruct (assetCacheSetDetails_frame assetKey
                  (extractMetadataFromList (asString (VStr content)) metadataFields)
                  written entry1) as (entry & Hr & Hb & Hk).
      { rewrite Hreg1. apply lookup_insert_eq. }
      exists entry. rewrite Hr, Hb, Hreg1, Hblob1. rewrite insert_insert_eq.
      split; [reflexivity|]. split; [reflexivity|].
      repeat split; apply Hk; apply metadataFields_keys;
        rewrite !elem_of_cons, elem_of_nil; intros Hin;
        repeat destruct Hin as [Hin | Hin]; try discriminate Hin; exact Hin.
    - exists entry1. auto. }
  destruct Hdetailed as (entry & Hreg & Hblob & Hw & Hr & Hu).
  unfold remoteReport. cbn [truthy]. cbv iota. cbn [fst snd].
  match goal with
  | |- context [assign assetKey ref "lastError" VUndefined ?s] =>
      destruct (assign_cache assetKey ref "lastError" VUndefined s) as [-> ->]
  end.
  cbn [assetCacheRegistry cacheStorage withSource].
  fold detailed. rewrite Hreg, Hblob.
  split; [apply prop_setProp_eq|]. split.
  { unfold setProp. rewrite !lookup_insert_ne by discriminate. apply lookup_empty. }
  split; [reflexivity|]. split.
  { intros k Hk. apply lookup_insert_ne. congruence. }
  split.
  { exists entry. split; [apply lookup_insert_eq|].
    unfold prop. rewrite Hw, Hr, Hu. subst entry1. unfold setProp.
    rewrite !lookup_insert_eq.
    rewrite !(lookup_insert_ne _ "remoteURL") by discriminate.
    rewrite !(lookup_insert_ne _ "resourceTime" "writeTime") by discriminate.
    rewrite !(lookup_insert_ne _ "readTime" "writeTime") by discriminate.
    rewrite !lookup_insert_eq. auto. }
  intros q c Hq Hc Hq0 Hc0. unfold resourceIsStale in Hfresh.
  rewrite Hq, Hc in Hfresh. unfold Qeqb0 in Hfresh.
  destruct (Qeq_bool q 0) eqn:E1; [apply Qeq_bool_iff in E1; contradiction|].
  destruct (Qeq_bool c 0) eqn:E2; [apply Qeq_bool_iff in E2; contradiction|].
  unfold Qltb in Hfresh. apply negb_false_iff in Hfresh.
  by apply Qle_bool_iff in Hfresh.
Qed.

(** the source registry of [demoState] with nothing cached yet *)
Definition freshState : State :=
  mkState (assetSourceRegistry demoState) ∅ ∅ None false ∅ [] false false ∅ []
          updaterAssetDelayDefault false None.

Lemma getRemote_stores_first_fresh_witness :
  let returned := getRemote (H := demoHost) demoNet demoNow "easylist" freshState in
  let content := "! Last-Modified: 1000" ++ Str.nl ++ "||x^" in
  prop returned.1 "content" = VStr content
  /\ returned.1 !! "error" = None
  /\ cacheStorage returned.2 = <[ "cache/easylist" := VStr content ]> ∅
  /\ exists entry,
       assetCacheRegistry returned.2 !! "easylist" = Some entry
       /\ prop entry "writeTime" = timeVal demoNow
       /\ prop entry "resourceTime" = VNum 1000
       /\ prop entry "remoteURL" = VStr "https://h/old.txt".
Proof.
  destruct (getRemote_stores_first_fresh (H := demoHost) demoNet demoNow "easylist"
              freshState [] [] "https://h/old.txt"
              ("! Last-Modified: 1000" ++ Str.nl ++ "||x^"))
    as (Hc & He & Hb & _ & (entry & Hentry & Hw & Hr & Hu) & _).
  - reflexivity.
  - constructor.
  - reflexivity.
  - vm_compute. reflexivity.
  - vm_compute. discriminate.
  - vm_compute. reflexivity.
  - cbv zeta. split; [exact Hc|]. split; [exact He|]. split; [exact Hb|].
    exists entry. split; [exact Hentry|]. split; [exact Hw|].
    split; [|exact Hu]. rewrite Hr. vm_compute. reflexivity.
Defined.

(** ** What the cache operations leave alone *)

(** the part of the state that is neither the source registry nor the
    cache: the settings storage, the observers and the variables of the
    updater *)
Definition settingsAndUpdater (st : State) :=
  (userStorage st, observers st, remoteServerFriendly st, updaterStatus st,
   updaterFetched st, updaterUpdated st, updaterAssetDelay st, updaterAuto st,
   updaterTimer st).

Lemma assetCacheRemove_outside (pattern : Pattern) (st : State) :
  settingsAndUpdater (assetCacheRemove pattern st) = settingsAndUpdater st.
Proof. unfold assetCacheRemove. cbv zeta. by destruct (bool_decide _). Qed.

Lemma assetCacheWrite_outside (now : Z) (assetKey : string) (details : WriteDetails)
    (st : State) :
  settingsAndUpdater (assetCacheWrite now assetKey details st) = settingsAndUpdater st.
Proof.
  unfold assetCacheWrite. cbv zeta.
  destruct (isEmptyStr _); [apply assetCacheRemove_outside | reflexivity].
Qed.

Lemma assetCacheSetDetails_outside (assetKey : string) (details : Obj) (st : State) :
  settingsAndUpdater (assetCacheSetDetails assetKey details st) = settingsAndUpdater st.
Proof.
  unfold assetCacheSetDetails.
  destruct (assetCacheRegistry st !! assetKey); [|reflexivity].
  destruct (fold_left setDetail _ _) as [entry modified].
  by destruct modified.
Qed.

Lemma assetCacheRead_outside (now : Z) (assetKey : string) (updateReadTime : bool)
    (st : State) :
  settingsAndUpdater (assetCacheRead now assetKey updateReadTime st).2
  = settingsAndUpdater st.
Proof.
  unfold assetCacheRead.
  destruct (cacheStorage st !! internalKey assetKey); [|reflexivity].
  destruct (assetCacheRegistry st !! assetKey); [|reflexivity].
  by destruct updateReadTime.
Qed.

Lemma assign_outside (assetKey : string) (ref : DetailsRef) (k : string) (v : Val)
    (st : State) :
  settingsAndUpdater (assign assetKey ref k v st).2 = settingsAndUpdater st.
Proof. by destruct ref. Qed.

Lemma remoteReport_outside (assetKey : string) (ref : DetailsRef)
    (content err : Val) (st : State) :
  settingsAndUpdater (remoteReport assetKey ref content err st).2
  = settingsAndUpdater st.
Proof.
  unfold remoteReport. destruct (truthy err); cbn [snd]; apply assign_outside.
Qed.

Lemma getReport_outside (assetKey : string) (options : Obj) (ref : DetailsRef)
    (content : Val) (url : string) (err : Val) (st : State) :
  settingsAndUpdater (getReport assetKey options ref content url err st).2
  = settingsAndUpdater st.
Proof. unfold getReport. cbn [snd]. apply assign_outside. Qed.

Lemma getRemoteVisit_outside `{Host} (net : Network) (now : Z) (assetKey : string)
    (ref : DetailsRef) (cacheDetails : Obj) (contentURL : string) (error : Val)
    (stale : bool) (st : State) :
  match getRemoteVisit net now assetKey ref cacheDetails contentURL error stale st with
  | Returned _ st' => settingsAndUpdater st' = settingsAndUpdater st
  | Next _ _ st' => st' = st
  end.
Proof.
  unfold getRemoteVisit.
  destruct (negb (isExternalPath contentURL)); [reflexivity|]. cbv zeta.
  destruct (negb (stringIsNotEmpty _)); [reflexivity|].
  destruct (resourceIsStale _ _); [reflexivity|].
  destruct (remoteReport _ _ _ _ _) as [details st'] eqn:Hr.
  change st' with (details, st').2. rewrite <- Hr, remoteReport_outside.
  change (settingsAndUpdater (withSource ?f ?s)) with (settingsAndUpdater s).
  destruct (strictEq _ (VStr "filters"));
    rewrite ?assetCacheSetDetails_outside; apply assetCacheWrite_outside.
Qed.

Lemma getRemoteLoop_outside `{Host} (net : Network) (now : Z) (assetKey : string)
    (ref : DetailsRef) (cacheDetails : Obj) (contentURLs : list string)
    (error : Val) (stale : bool) (st : State) :
  match getRemoteLoop net now assetKey ref cacheDetails contentURLs error stale st with
  | Returned _ st' => settingsAndUpdater st' = settingsAndUpdater st
  | Next _ _ st' => st' = st
  end.
Proof.
  revert error stale.
  induction contentURLs as [|u us IH]; intros error stale; [reflexivity|].
  cbn [getRemoteLoop].
  pose proof (getRemoteVisit_outside net now assetKey ref cacheDetails u
                error stale st) as Hv.
  destruct (getRemoteVisit _ _ _ _ _ _ _ _ _) as [d st'|e s st']; [exact Hv|].
  subst st'. apply IH.
Qed.

Lemma getRemote_outside `{Host} (net : Network) (now : Z) (assetKey : string)
    (st : State) :
  settingsAndUpdater (getRemote net now assetKey st).2 = settingsAndUpdater st.
Proof.
  unfold getRemote. cbv zeta.
  match goal with
  | |- context [getRemoteLoop net now assetKey ?r ?c ?l VUndefined false st] =>
      pose proof (getRemoteLoop_outside net now assetKey r c l VUndefined false st)
        as Hl;
      destruct (getRemoteLoop net now assetKey r c l VUndefined false st)
        as [d st'|e s st']
  end; [exact Hl|]. subst st'.
  destruct (negb (isUndefined e)).
  - rewrite remoteReport_outside. reflexivity.
  - rewrite remoteReport_outside.
    destruct s; [apply assetCacheSetDetails_outside | reflexivity].
Qed.

Lemma getLoop_outside (net : Network) (now : Z) (assetKey : string) (options : Obj)
    (ref : DetailsRef) (contentURLs : list string) (error : Val) (st : State) :
  match getLoop net now assetKey options ref contentURLs error st with
  | inl r => settingsAndUpdater r.2 = settingsAndUpdater st
  | inr _ => True
  end.
Proof.
  revert error.
  induction contentURLs as [|u us IH]; intros error; [exact I|].
  cbn [getLoop]. cbv zeta.
  destruct (isExternalPath u && truthy _); [apply IH|].
  destruct (isEmptyStr _); [apply IH|].
  rewrite getReport_outside.
  destruct (isExternalPath u && negb _); [|reflexivity].
  change (settingsAndUpdater (withSource ?f ?s)) with (settingsAndUpdater s).
  apply assetCacheWrite_outside.
Qed.

Lemma get_outside `{Host} (net : Network) (now : Z) (assetKey : string)
    (options : Obj) (st : State) :
  settingsAndUpdater (get net now assetKey options st).2 = settingsAndUpdater st.
Proof.
  unfold get. destruct (String.eqb assetKey userFiltersPath); [reflexivity|].
  cbv zeta.
  pose proof (assetCacheRead_outside now assetKey
                (negb (Str.startsWith "compiled/" assetKey
                       || Str.startsWith "selfie/" assetKey)) st) as Hread.
  destruct (assetCacheRead _ _ _ _) as [details st1]. cbn [snd] in Hread.
  rewrite <- Hread.
  destruct (negb (isEmptyStr _)); [apply getReport_outside|].
  set (ref := match Dict.lookup assetKey (assetSourceRegistry st1) with
              | Some _ => InRegistry
              | None => Detached ∅
              end).
  assert (Hurls :
            forall (x : DetailsRef * State * list string),
              settingsAndUpdater x.1.2 = settingsAndUpdater st1 ->
              settingsAndUpdater
                (let '(ref, st, contentURLs) := x in
                 match
                   getLoop net now assetKey options ref
                     match prop (deref assetKey ref st) "cdnURLs" with
                     | VArr l => (contentURLs ++ l)%list
                     | _ => contentURLs
                     end (VStr "ENOTFOUND") st
                 with
                 | inl r => r
                 | inr error =>
                     getReport assetKey options ref (VStr "") "" error
                       match Dict.lookup assetKey (assetSourceRegistry st) with
                       | Some _ =>
                           withSource
                             (registerAssetSource now assetKey
                                (setProp "error" (VErr now error) ∅)) st
                       | None => st
                       end
                 end).2
              = settingsAndUpdater st1).
  { intros [[r s] l] Hs. cbn [fst snd] in Hs.
    match goal with
    | |- context [getLoop net now assetKey options r ?l' ?e s] =>
        pose proof (getLoop_outside net now assetKey options r l' e s) as Hl;
        destruct (getLoop net now assetKey options r l' e s) as [res|err]
    end; [by rewrite Hl|].
    rewrite getReport_outside.
    by destruct (Dict.lookup assetKey (assetSourceRegistry s)). }
  apply Hurls.
  destruct (prop (deref assetKey ref st1) "contentURL"); try reflexivity;
    destruct (isExternalPath assetKey); try reflexivity.
  all: pose proof (assign_outside assetKey ref "content" (VStr "filters") st1) as Ha;
    destruct (assign assetKey ref "content" (VStr "filters") st1) as [r s];
    exact Ha.
Qed.

(** The orchestrator and the refresher keep to the registries and the
    cache: whatever the network answers, [assets.get] and [getRemote]
    leave the settings storage, the observers and every variable of the
    updater (status, fetched and updated keys, delay, timer, the
    [remoteServerFriendly] flag) as they were. *)
Theorem get_getRemote_frame `{Host} (net : Network) (now : Z) (assetKey : string)
    (options : Obj) (st : State) :
  settingsAndUpdater (get net now assetKey options st).2 = settingsAndUpdater st
  /\ settingsAndUpdater (getRemote net now assetKey st).2 = settingsAndUpdater st.
Proof. split; [apply get_outside | apply getRemote_outside]. Qed.

Lemma getReport_cache (assetKey : string) (options : Obj) (ref : DetailsRef)
    (content : Val) (url : string) (err : Val) (st : State) :
  assetCacheRegistry (getReport assetKey options ref content url err st).2
  = assetCacheRegistry st
  /\ cacheStorage (getReport assetKey options ref content url err st).2
     = cacheStorage st.
Proof. unfold getReport. cbn [snd]. apply assign_cache. Qed.

Lemma getLoop_dontCache (net : Network) (now : Z) (assetKey : string)
    (options : Obj) (ref : DetailsRef) (contentURLs : list string) (error : Val)
    (st : State) :
  strictEq (prop options "dontCache") (VBool true) = true ->
  match getLoop net now assetKey options ref contentURLs error st with
  | inl r => assetCacheRegistry r.2 = assetCacheRegistry st
             /\ cacheStorage r.2 = cacheStorage st
  | inr _ => True
  end.
Proof.
  intros Hdc. revert error.
  induction contentURLs as [|u us IH]; intros error; [exact I|].
  cbn [getLoop]. cbv zeta.
  destruct (isExternalPath u && truthy _); [apply IH|].
  destruct (isEmptyStr _); [apply IH|].
  rewrite Hdc. cbn [negb]. rewrite andb_false_r. apply getReport_cache.
Qed.

(** The option [dontCache]: when [assets.get] is called with
    [dontCache: true], whatever it fetches, it stores no content (the
    blobs are as they were) and the cache registry changes at most by the
    read time it records, when the asset is cached, in the entry of the
    asset. *)
Theorem get_dontCache `{Host} (net : Network) (now : Z) (assetKey : string)
    (options : Obj) (st : State) :
  strictEq (prop options "dontCache") (VBool true) = true ->
  let returned := get net now assetKey options st in
  cacheStorage returned.2 = cacheStorage st
  /\ (assetCacheRegistry returned.2 = assetCacheRegistry st
      \/ exists entry,
           assetCacheRegistry st !! assetKey = Some entry
           /\ assetCacheRegistry returned.2
              = <[assetKey := setProp "readTime" (timeVal now) entry]>
                  (assetCacheRegistry st)).
Proof.
  intros Hdc. cbv zeta. unfold get.
  destruct (String.eqb assetKey userFiltersPath); [by auto|].
  cbv zeta.
  assert (Hread :
            cacheStorage
              (assetCacheRead now assetKey
                 (negb (Str.startsWith "compiled/" assetKey
                        || Str.startsWith "selfie/" assetKey)) st).2
            = cacheStorage st
            /\ (assetCacheRegistry
                  (assetCacheRead now assetKey
                     (negb (Str.startsWith "compiled/" assetKey
                            || Str.startsWith "selfie/" assetKey)) st).2
                = assetCacheRegistry st
                \/ exists entry,
                     assetCacheRegistry st !! assetKey = Some entry
                     /\ assetCacheRegistry
                          (assetCacheRead now assetKey
                             (negb (Str.startsWith "compiled/" assetKey
                                    || Str.startsWith "selfie/" assetKey)) st).2
                        = <[assetKey := setProp "readTime" (timeVal now) entry]>
                            (assetCacheRegistry st))).
  { unfold assetCacheRead.
    destruct (cacheStorage st !! internalKey assetKey); [|by auto].
    destruct (assetCacheRegistry st !! assetKey) as [entry|]; [|by auto].
    cbn [snd]. split; [by destruct (negb _)|].
    right. exists entry. split; [reflexivity|]. by destruct (negb _). }
  destruct (assetCacheRead _ _ _ _) as [details st1]. cbn [snd] in Hread.
  destruct Hread as [Hb Hr]. rewrite <- Hb.
  assert (Hgoal : forall s : State,
             assetCacheRegistry s = assetCacheRegistry st1
             /\ cacheStorage s = cacheStorage st1 ->
             cacheStorage s = cacheStorage st1
             /\ (assetCacheRegistry s = assetCacheRegistry st
                 \/ exists entry,
                      assetCacheRegistry st !! assetKey = Some entry
                      /\ assetCacheRegistry s
                         = <[assetKey := setProp "readTime" (timeVal now) entry]>
                             (assetCacheRegistry st))).
  { intros s [Hs1 Hs2]. split; [exact Hs2|]. rewrite Hs1. exact Hr. }
  apply Hgoal.
  destruct (negb (isEmptyStr _)); [apply getReport_cache|].
  set (ref := match Dict.lookup assetKey (assetSourceRegistry st1) with
              | Some _ => InRegistry
              | None => Detached ∅
              end).
  assert (Hurls :
            forall (x : DetailsRef * State * list string),
              assetCacheRegistry x.1.2 = assetCacheRegistry st1
              /\ cacheStorage x.1.2 = cacheStorage st1 ->
              let r :=
                (let '(ref, st, contentURLs) := x in
                 match
                   getLoop net now assetKey options ref
                     match prop (deref assetKey ref st) "cdnURLs" with
                     | VArr l => (contentURLs ++ l)%list
                     | _ => contentURLs
                     end (VStr "ENOTFOUND") st
                 with
                 | inl r => r
                 | inr error =>
                     getReport assetKey options ref (VStr "") "" error
                       match Dict.lookup assetKey (assetSourceRegistry st) with
                       | Some _ =>
                           withSource
                             (registerAssetSource now assetKey
                                (setProp "error" (VErr now error) ∅)) st
                       | None => st
                       end
                 end) in
              assetCacheRegistry r.2 = assetCacheRegistry st1
              /\ cacheStorage r.2 = cacheStorage st1).
  { intros [[r s] l] [Hs1 Hs2]. cbn [fst snd] in Hs1, Hs2. cbv zeta.
    match goal with
    | |- context [getLoop net now assetKey options r ?l' ?e s] =>
        pose proof (getLoop_dontCache net now assetKey options r l' e s Hdc) as Hl;
        destruct (getLoop net now assetKey options r l' e s) as [res|err]
    end.
    - destruct Hl as [-> ->]. auto.
    - match goal with
      | |- context [getReport assetKey options r ?c ?u ?e ?s'] =>
          destruct (getReport_cache assetKey options r c u e s') as [-> ->]
      end.
      by destruct (Dict.lookup assetKey (assetSourceRegistry s)). }
  apply Hurls.
  destruct (prop (deref assetKey ref st1) "contentURL"); try (by auto);
    destruct (isExternalPath assetKey); try (by auto).
  all: pose proof (assign_cache assetKey ref "content" (VStr "filters") st1) as Ha;
    destruct (assign assetKey ref "content" (VStr "filters") st1) as [r s];
    exact Ha.
Qed.

Lemma get_dontCache_witness :
  let returned :=
    get (H := demoHost) demoNet demoNow "easylist"
        (setProp "dontCache" (VBool true) ∅) freshState in
  prop returned.1 "content" = VStr ("! Last-Modified: 1000" ++ Str.nl ++ "||x^")
  /\ cacheStorage returned.2 = cacheStorage freshState.
Proof.
  cbv zeta. split; [vm_compute; reflexivity|].
  apply (get_dontCache (H := demoHost) demoNet demoNow "easylist"
           (setProp "dontCache" (VBool true) ∅) freshState).
  reflexivity.
Defined.

(** ** Update scheduler, continued *)

Lemma insertSorted_perm (cmp : string -> string -> option Q) (x : string)
    (l : list string) :
  insertSorted cmp x l ≡ₚ x :: l.
Proof.
  induction l as [|y t IH]; [reflexivity|]. cbn [insertSorted].
  destruct (cmp x y) as [d|]; [|reflexivity].
  destruct (Qltb 0 d); [|reflexivity].
  rewrite IH. apply Permutation_swap.
Qed.

Lemma sortBy_perm (cmp : string -> string -> option Q) (l : list string) :
  sortBy cmp l ≡ₚ l.
Proof.
  induction l as [|x l IH]; [reflexivity|].
  unfold sortBy in *. cbn [fold_right]. rewrite insertSorted_perm.
  by rewrite IH.
Qed.

Lemma Qltb_true (a b : Q) : Qltb a b = true -> (a < b)%Q.
Proof.
  unfold Qltb. intros Hlt. apply negb_true_iff in Hlt.
  apply Qnot_le_lt. intros Hle. apply Qle_bool_iff in Hle. congruence.
Qed.

Lemma Qltb_false (a b : Q) : Qltb a b = false -> (b <= a)%Q.
Proof.
  unfold Qltb. intros Hlt. apply negb_false_iff in Hlt. by apply Qle_bool_iff.
Qed.

Section Sorting.

Variable cmp : string -> string -> option Q.
Variable time : string -> Q.
Hypothesis cmp_time : forall a b, cmp a b = Some (time a - time b)%Q.




End Sorting.


(** the sources [getUpdateCandidates] pushes to [toUpdate] *)
Definition wanted (st : State) (item : string * Obj) : bool :=
  strictEq (prop item.2 "hasRemoteURL") (VBool true)
  && negb (bool_decide (item.1 ∈ updaterFetched st))
  && strictEq
       (fireNotification "before-asset-updated"
          (setProp "type" (prop item.2 "content")
             (setProp "assetKey" (VStr item.1) ∅)) st)
       (VBool true).

(** the sources that reach the test of the read time *)
Definition unwanted (st : State) (item : string * Obj) : bool :=
  strictEq (prop item.2 "hasRemoteURL") (VBool true)
  && negb (bool_decide (item.1 ∈ updaterFetched st))
  && negb (strictEq
             (fireNotification "before-asset-updated"
                (setProp "type" (prop item.2 "content")
                   (setProp "assetKey" (VStr item.1) ∅)) st)
             (VBool true)).

Lemma wanted_outside (st s : State) (item : string * Obj) :
  settingsAndUpdater s = settingsAndUpdater st ->
  wanted s item = wanted st item /\ unwanted s item = unwanted st item.
Proof.
  intros Hs. unfold wanted, unwanted, fireNotification.
  injection Hs as _ -> _ _ -> _ _ _ _. done.
Qed.

Lemma assetCacheRemove_other (assetKey k : string) (st : State) :
  k ≠ assetKey ->
  assetCacheRegistry (assetCacheRemove (PatString assetKey) st) !! k
  = assetCacheRegistry st !! k
  /\ cacheStorage (assetCacheRemove (PatString assetKey) st) !! internalKey k
     = cacheStorage st !! internalKey k.
Proof.
  intros Hne. split.
  - rewrite assetCacheRemove_registry, map_lookup_filter.
    destruct (assetCacheRegistry st !! k) as [x|]; [|reflexivity].
    cbn [survives fst mbind option_bind].
    destruct (String.eqb_spec k assetKey); [contradiction|].
    by rewrite option_guard_True.
  - apply assetCacheRemove_blobs. intros (k' & x & Hk & _ & Hs).
    apply internalKey_inj in Hk. subst k'. cbn [survives] in Hs.
    destruct (String.eqb_spec k assetKey); [contradiction | discriminate].
Qed.

Lemma assetCacheRemove_subseteq (pattern : Pattern) (st : State) :
  assetCacheRegistry (assetCacheRemove pattern st) ⊆ assetCacheRegistry st.
Proof. rewrite assetCacheRemove_registry. apply map_filter_subseteq. Qed.

Lemma assetCacheRemove_source (pattern : Pattern) (st : State) :
  assetSourceRegistry (assetCacheRemove pattern st) = assetSourceRegistry st.
Proof. unfold assetCacheRemove. cbv zeta. by destruct (bool_decide _). Qed.

Lemma candidateStep_cases `{Host} (st : State) (acc : list string) (s : State)
    (k : string) (e : Obj) :
  settingsAndUpdater s = settingsAndUpdater st ->
  (wanted st (k, e) = true
   /\ candidateStep (acc, s) (k, e) = ((acc ++ [k])%list, s))
  \/ (wanted st (k, e) = false
      /\ exists s1,
           candidateStep (acc, s) (k, e) = (acc, s1)
           /\ (s1 = s
               \/ (unwanted st (k, e) = true
                   /\ s1 = assetCacheRemove (PatString k) s))).
Proof.
  intros Hs.
  assert (Hf : updaterFetched s = updaterFetched st
               /\ observers s = observers st).
  { unfold settingsAndUpdater in Hs. by injection Hs as _ -> _ _ -> _ _ _ _. }
  destruct Hf as [Hf Ho].
  unfold candidateStep, wanted, unwanted, fireNotification. cbn [fst snd].
  rewrite Hf, Ho.
  destruct (strictEq (prop e "hasRemoteURL") (VBool true));
    cbn [negb andb]; [|by eauto 6].
  destruct (bool_decide (k ∈ updaterFetched st)); cbn [negb andb];
    [by eauto 6|].
  destruct (strictEq (fold_left _ _ _) (VBool true)); cbn [negb];
    [by left|].
  right. split; [reflexivity|].
  destruct (assetCacheRegistry s !! k) as [entry|]; [|by eauto].
  destruct (prop entry "readTime"); try (by eauto).
  destruct (Qltb _ _); by eauto 6.
Qed.

Lemma candidateStep_fold `{Host} (st : State) (items : list (string * Obj))
    (acc : list string) (s : State) :
  settingsAndUpdater s = settingsAndUpdater st ->
  let r := fold_left candidateStep items (acc, s) in
  r.1 = (acc ++ (List.filter (wanted st) items).*1)%list
  /\ settingsAndUpdater r.2 = settingsAndUpdater st
  /\ assetSourceRegistry r.2 = assetSourceRegistry s
  /\ assetCacheRegistry r.2 ⊆ assetCacheRegistry s
  /\ (forall k, k ∉ (List.filter (unwanted st) items).*1 ->
        assetCacheRegistry r.2 !! k = assetCacheRegistry s !! k
        /\ cacheStorage r.2 !! internalKey k = cacheStorage s !! internalKey k).
Proof.
  cbv zeta. revert acc s.
  induction items as [|[k e] items IH]; intros acc s Hs.
  - cbn [fold_left List.filter fmap list_fmap fst snd]. rewrite app_nil_r.
    split; [reflexivity|]. split; [exact Hs|]. split; [reflexivity|].
    split; [reflexivity|]. intros k _. split; reflexivity.
  - cbn [fold_left List.filter].
    destruct (candidateStep_cases st acc s k e Hs)
      as [[Hw ->] | (Hw & s1 & -> & Hs1)]; rewrite Hw.
    + destruct (IH (acc ++ [k])%list s Hs) as (I1 & I2 & I3 & I4 & I5).
      rewrite I1. cbn [fmap list_fmap fst]. rewrite <- app_assoc.
      split; [reflexivity|]. split; [exact I2|]. split; [exact I3|].
      split; [exact I4|]. intros k' Hk'. apply I5.
      destruct (unwanted st (k, e)); [|exact Hk'].
      cbn [fmap list_fmap fst] in Hk'. by apply not_elem_of_cons in Hk' as [_ ?].
    + assert (Hs1' : settingsAndUpdater s1 = settingsAndUpdater st).
      { destruct Hs1 as [-> | [_ ->]]; [exact Hs|].
        by rewrite assetCacheRemove_outside. }
      destruct (IH acc s1 Hs1') as (I1 & I2 & I3 & I4 & I5).
      split; [exact I1|]. split; [exact I2|]. split.
      { rewrite I3. destruct Hs1 as [-> | [_ ->]]; [done|].
        apply assetCacheRemove_source. }
      split.
      { etrans; [exact I4|]. destruct Hs1 as [-> | [_ ->]]; [done|].
        apply assetCacheRemove_subseteq. }
      intros k' Hk'.
      destruct Hs1 as [-> | [Hu ->]].
      * apply I5. destruct (unwanted st (k, e)); [|exact Hk'].
        cbn [fmap list_fmap fst] in Hk'.
        by apply not_elem_of_cons in Hk' as [_ ?].
      * rewrite Hu in Hk'. cbn [fmap list_fmap fst] in Hk'.
        apply not_elem_of_cons in Hk' as [Hne Hk'].
        destruct (I5 k' Hk') as [-> ->]. by apply assetCacheRemove_other.
Qed.



Lemma outside_fields (st st' : State) :
  settingsAndUpdater st' = settingsAndUpdater st ->
  userStorage st' = userStorage st
  /\ remoteServerFriendly st' = remoteServerFriendly st
  /\ updaterStatus st' = updaterStatus st
  /\ updaterFetched st' = updaterFetched st
  /\ updaterUpdated st' = updaterUpdated st
  /\ updaterAssetDelay st' = updaterAssetDelay st
  /\ updaterTimer st' = updaterTimer st.
Proof.
  unfold settingsAndUpdater. intros Hs.
  injection Hs as -> _ -> -> -> -> -> _ ->. repeat split.
Qed.

Lemma fold_outside {A} (f : State -> A -> State) (l : list A) (st : State) :
  (forall s a, settingsAndUpdater (f s a) = settingsAndUpdater s) ->
  settingsAndUpdater (fold_left f l st) = settingsAndUpdater st.
Proof.
  intros Hf. revert st. induction l as [|a l IH]; intros st; [reflexivity|].
  cbn [fold_left]. by rewrite IH.
Qed.

Lemma updateAssetSourceRegistry_outside `{Host} (now : Z) (json : string)
    (st : State) :
  settingsAndUpdater (updateAssetSourceRegistry now json st) = settingsAndUpdater st.
Proof.
  unfold updateAssetSourceRegistry. destruct (jsonParse json); [|reflexivity].
  cbv zeta. rewrite fold_outside; [rewrite fold_outside; [reflexivity|]|].
  - intros s [k e]. destruct (Dict.lookup k _); [reflexivity|].
    destruct (isUndefined _); [|reflexivity].
    unfold unregisterAssetSource.
    change (settingsAndUpdater (withSource ?f ?x)) with (settingsAndUpdater x).
    apply assetCacheRemove_outside.
  - intros s [k e]. reflexivity.
Qed.

Lemma pop_Some (l : list string) (k : string) : pop l = Some k -> k ∈ l.
Proof.
  unfold pop. induction l as [|x l IH]; [discriminate|].
  cbn [List.map List.last]. destruct l as [|y l].
  - cbn. intros [= ->]. apply elem_of_cons. by left.
  - intros Hl. apply elem_of_cons. right. by apply IH.
Qed.

(** A step of the update cycle.  When [updateNext] finds no candidate that
    is due, it ends the cycle as [updateDone] does.  Otherwise the asset
    it refreshes is a source with a remote URL that was not fetched yet in
    this cycle and whose update time has come; after the step that key,
    and no other, has been added to the fetched keys, the timer is armed
    with the delay of the updater, [remoteServerFriendly] is off again,
    and the settings storage is as it was. *)
Theorem updateNext_step `{Host} (net : Network) (now : Z) (st : State) :
  let st' := updateNext net now st in
  (nextAsset now st = None -> st' = updateDone (getUpdateCandidates st).2)
  /\ (forall assetKey,
        nextAsset now st = Some assetKey ->
        (assetKey ∉ updaterFetched st)
        /\ (exists entry,
              (assetKey, entry) ∈ assetSourceRegistry st
              /\ strictEq (prop entry "hasRemoteURL") (VBool true) = true)
        /\ (getWriteTime assetKey (getUpdateCandidates st).2
            + getUpdateAfterTime assetKey false (getUpdateCandidates st).2
            <= inject_Z now)%Q
        /\ updaterFetched st' = {[ assetKey ]} ∪ updaterFetched st
        /\ updaterTimer st' = Some (updaterAssetDelay st)
        /\ remoteServerFriendly st' = false
        /\ updaterStatus st' = updaterStatus st
        /\ userStorage st' = userStorage st).
Proof.
  cbv zeta. unfold nextAsset, updateNext.
  destruct (candidateStep_fold st (assetSourceRegistry st) [] st eq_refl)
    as (I1 & I2 & _).
  unfold getUpdateCandidates. cbv zeta.
  destruct (fold_left candidateStep (assetSourceRegistry st) ([], st))
    as [toUpdate st1].
  cbn [fst snd] in *. rewrite app_nil_l in I1.
  split; [by intros ->|].
  intros assetKey Hnext. rewrite Hnext.
  pose proof (pop_Some _ _ Hnext) as Hin.
  unfold hardUpdates in Hin. apply list_elem_of_In, filter_In in Hin as [Hin Hdue].
  apply list_elem_of_In in Hin. rewrite sortBy_perm, I1 in Hin.
  apply list_elem_of_fmap in Hin as ([k e] & Hk & Hin). cbn [fst] in Hk. subst k.
  apply list_elem_of_In, filter_In in Hin as [Hin Hw].
  apply list_elem_of_In in Hin. unfold wanted in Hw. cbn [fst snd] in Hw.
  apply andb_true_iff in Hw as [Hw _]. apply andb_true_iff in Hw as [Hremote Hnf].
  apply negb_true_iff, bool_decide_eq_false in Hnf.
  destruct (outside_fields _ _ I2) as (F1 & F2 & F3 & F4 & F5 & F6 & F7).
  split; [exact Hnf|]. split; [by eauto|]. split.
  { apply negb_true_iff in Hdue. by apply Qltb_false in Hdue. }
  set (st2 := withUpdater (updaterAuto st1) (updaterStatus st1)
                ({[assetKey]} ∪ updaterFetched st1) (updaterUpdated st1)
                (updaterAssetDelay st1) (updaterTimer st1) st1).
  assert (Hres :
            exists result st3,
              (if negb (String.eqb assetKey "assets.json") || negb debugAssetsJson
               then getRemote net now assetKey st2
               else (setProp "assetKey" (VStr "assets.json")
                       (viaText net (remoteServerFriendly st2) assetsJsonPath),
                     st2))
              = (result, st3)
              /\ settingsAndUpdater st3 = settingsAndUpdater st2).
  { destruct (negb _ || negb _); [|by eauto].
    pose proof (getRemote_outside net now assetKey st2) as Hg.
    destruct (getRemote net now assetKey st2) as [result st3]. by eauto. }
  destruct Hres as (result & st3 & -> & H3).
  destruct (outside_fields _ _ H3) as (G1 & G2 & G3 & G4 & G5 & G6 & G7).
  cbn [userStorage remoteServerFriendly updaterStatus updaterFetched
       updaterUpdated updaterAssetDelay updaterTimer withUpdater st2]
    in G1, G2, G3, G4, G5, G6, G7.
  destruct (truthy (prop result "error")).
  - cbn [updaterFetched updaterTimer remoteServerFriendly updaterStatus
         userStorage updaterAssetDelay withUpdater].
    rewrite G1, G3, G4, G6, F1, F3, F4, F6. auto.
  - destruct (strictEq (prop result "assetKey") (VStr "assets.json")
              && negb (isEmptyStr (prop result "content"))).
    + match goal with
      | |- context [updateAssetSourceRegistry now ?j ?s] =>
          destruct (outside_fields _ _ (updateAssetSourceRegistry_outside now j s))
            as (U1 & U2 & U3 & U4 & U5 & U6 & U7)
      end.
      cbn [updaterFetched updaterTimer remoteServerFriendly updaterStatus
           userStorage updaterAssetDelay withUpdater] in *.
      rewrite U1, U2, U3, U4, U6, G1, G3, G4, G6, F1, F3, F4, F6. auto.
    + cbn [updaterFetched updaterTimer remoteServerFriendly updaterStatus
           userStorage updaterAssetDelay withUpdater].
      rewrite G1, G3, G4, G6, F1, F3, F4, F6. auto.
Qed.

Lemma updateNext_step_witness :
  let st' := updateNext (H := demoHost) demoNet updateTime updateState in
  ("newer" ∉ updaterFetched updateState)
  /\ updaterFetched st' = {[ "newer" ]} ∪ updaterFetched updateState
  /\ updaterTimer st' = Some (updaterAssetDelay updateState)
  /\ remoteServerFriendly st' = false.
Proof.
  destruct (proj2 (updateNext_step (H := demoHost) demoNet updateTime updateState)
              "newer") as (H1 & _ & _ & H4 & H5 & H6 & _).
  - vm_compute. reflexivity.
  - cbv zeta. auto.
Defined.

(** ** List assembler, continued *)

(** the slices [content.slice(slices[i], slices[i+1])] *)
Fixpoint slicesOf (content : string) (slices : list nat) : list string :=
  match slices with
  | a :: (b :: _) as rest => Str.slice a b content :: slicesOf content rest
  | _ => []
  end.

Lemma scanSlices_no_root `{Host} (parentURL content : string) (slices : list nat)
    (active : bool) (seen : gset string) (acc : list Part) :
  scanSlices false parentURL content active slices seen acc
  = (seen, (acc ++ List.map PStr (slicesOf content slices))%list).
Proof.
  revert active acc.
  induction slices as [|a rest IH]; intros active acc;
    [by rewrite app_nil_r|].
  destruct rest as [|b rest]; [by rewrite app_nil_r|].
  assert (Hstep :
            scanSlices false parentURL content active (a :: b :: rest) seen acc
            = scanSlices false parentURL content (negb active) (b :: rest) seen
                (acc ++ [PStr (Str.slice a b content)])%list).
  { destruct active; reflexivity. }
  rewrite Hstep, IH. cbn [slicesOf List.map]. by rewrite <- app_assoc.
Qed.

Lemma existsb_isPending_text (l : list string) :
  existsb isPending (List.map PStr l) = false.
Proof. induction l as [|s l IH]; [reflexivity | exact IH]. Qed.

(** Lists assembled in one round.  When the fetch of the main list
    settles without error and either its content is diff-updatable or the
    root directory of its URL is undefined, [assets.fetchFilterList]
    returns a success for the main URL after one turn of its loop and
    schedules no sublist, whatever [!#include] directives the content has:
    a diff-updatable content is returned as it was fetched, and otherwise
    the content is made of the slices of the preparser alone. *)
Theorem fetchFilterList_single_round `{Host} (ft : string -> Obj) (fuel : nat)
    (mainlistURL : string) :
  isUndefined (prop (ft mainlistURL) "error") = true ->
  isDiffUpdatableAsset (prop (ft mainlistURL) "content") = true
  \/ rootDirectoryDefined mainlistURL = false ->
  let fetched := asString (prop (ft mainlistURL) "content") in
  let content :=
    if isDiffUpdatableAsset (prop (ft mainlistURL) "content") then fetched
    else
      match slicesOf fetched (splitter fetched) with
      | [s] => s
      | l => joinParts (List.map PStr l) ++ Str.nl
      end in
  fetchFilterList ft (S fuel) mainlistURL
  = Some (successDetails mainlistURL
            (resourceTimeFromParts [RObj (ft mainlistURL)] 0) content, ∅).
Proof.
  intros Herr Hcase. cbv zeta. unfold fetchFilterList. cbn [assemble].
  unfold iteration. cbn [awaitAll List.map List.find hasError].
  rewrite Herr. cbn [negb]. cbv zeta.
  destruct (isDiffUpdatableAsset (prop (ft mainlistURL) "content")) eqn:Hdiff;
    [reflexivity|].
  destruct Hcase as [Hd | Hroot]; [discriminate|]. rewrite Hroot.
  unfold processIncludeDirectives. cbn [fold_left].
  rewrite scanSlices_no_root. cbn [app].
  rewrite existsb_isPending_text.
  destruct (slicesOf _ _) as [|s [|s' l]]; reflexivity.
Qed.

(** a server that answers every URL with the same list *)
Definition demoBare (url : string) : Obj :=
  setProp "content" (VStr ("!#include b.txt" ++ Str.nl ++ "||a^"))
    (setProp "url" (VStr url) ∅).

Lemma fetchFilterList_single_round_witness :
  fetchFilterList (H := demoHost) demoBare 1 "https://h"
  = Some (successDetails "https://h" 0 ("!#include b.txt" ++ Str.nl ++ "||a^"), ∅).
Proof.
  apply (fetchFilterList_single_round (H := demoHost) demoBare 0 "https://h").
  - reflexivity.
  - right. reflexivity.
Defined.

(** ** Source registry, continued *)

(** the entries of the old registry that [updateAssetSourceRegistry]
    unregisters: absent from the new dictionary and with no submitter *)
Definition obsolete (newDict : list (string * Obj)) (item : string * Obj) : bool :=
  match Dict.lookup item.1 newDict with
  | None => isUndefined (prop item.2 "submitter")
  | Some _ => false
  end.

Lemma Dict_lookup_Some_key {A} (k : string) (d : list (string * A)) :
  k ∈ d.*1 -> is_Some (Dict.lookup k d).
Proof.
  induction d as [|[k0 v0] d IH]; intros Hk; [by apply elem_of_nil in Hk|].
  cbn [fmap list_fmap fst] in Hk. cbn [Dict.lookup].
  destruct (String.eqb_spec k k0); [by eauto|].
  apply elem_of_cons in Hk as [?|Hk]; [contradiction | by apply IH].
Qed.

Lemma Dict_lookup_None_key {A} (k : string) (d : list (string * A)) :
  Dict.lookup k d = None -> k ∉ d.*1.
Proof.
  intros Hnone Hin. apply Dict_lookup_Some_key in Hin as [v Hv]. congruence.
Qed.

Lemma unregister_step (assetKey : string) (st : State) :
  NoDup (assetSourceRegistry st).*1 ->
  let st' := unregisterAssetSource assetKey st in
  NoDup (assetSourceRegistry st').*1
  /\ Dict.lookup assetKey (assetSourceRegistry st') = None
  /\ assetCacheRegistry st' !! assetKey = None
  /\ (forall k, k ≠ assetKey ->
        Dict.lookup k (assetSourceRegistry st')
        = Dict.lookup k (assetSourceRegistry st)
        /\ assetCacheRegistry st' !! k = assetCacheRegistry st !! k
        /\ cacheStorage st' !! internalKey k = cacheStorage st !! internalKey k).
Proof.
  intros Hnd. cbv zeta. unfold unregisterAssetSource.
  cbn [assetSourceRegistry assetCacheRegistry cacheStorage withSource].
  rewrite assetCacheRemove_source.
  split; [by apply Dict_keys_remove|]. split.
  { rewrite (Dict_lookup_remove _ _ _ Hnd). by rewrite String.eqb_refl. }
  split.
  { rewrite assetCacheRemove_registry, map_lookup_filter.
    destruct (assetCacheRegistry st !! assetKey) as [x|]; [|reflexivity].
    cbn [survives fst mbind option_bind]. rewrite String.eqb_refl.
    rewrite option_guard_False; [reflexivity | discriminate]. }
  intros k Hk. rewrite (Dict_lookup_remove _ _ _ Hnd).
  destruct (String.eqb_spec k assetKey); [contradiction|].
  split; [reflexivity|]. by apply assetCacheRemove_other.
Qed.

Lemma unregister_loop (newDict items : list (string * Obj)) (st : State) :
  NoDup (assetSourceRegistry st).*1 ->
  let st' :=
    fold_left
      (fun st '(assetKey, entry) =>
         match Dict.lookup assetKey newDict with
         | None =>
             if isUndefined (prop entry "submitter")
             then unregisterAssetSource assetKey st else st
         | Some _ => st
         end) items st in
  NoDup (assetSourceRegistry st').*1
  /\ (forall k, k ∈ (List.filter (obsolete newDict) items).*1 ->
        Dict.lookup k (assetSourceRegistry st') = None
        /\ assetCacheRegistry st' !! k = None)
  /\ (forall k, k ∉ (List.filter (obsolete newDict) items).*1 ->
        Dict.lookup k (assetSourceRegistry st')
        = Dict.lookup k (assetSourceRegistry st)
        /\ assetCacheRegistry st' !! k = assetCacheRegistry st !! k
        /\ cacheStorage st' !! internalKey k = cacheStorage st !! internalKey k).
Proof.
  cbv zeta. revert st.
  induction items as [|[k0 e0] items IH]; intros st Hnd.
  - cbn [fold_left List.filter fmap list_fmap]. split; [exact Hnd|].
    split; [|by auto]. intros k Hk. by apply elem_of_nil in Hk.
  - cbn [fold_left List.filter].
    assert (Hstep :
              match Dict.lookup k0 newDict with
              | Some _ => st
              | None =>
                  if isUndefined (prop e0 "submitter")
                  then unregisterAssetSource k0 st else st
              end
              = if obsolete newDict (k0, e0)
                then unregisterAssetSource k0 st else st).
    { unfold obsolete. cbn [fst snd].
      destruct (Dict.lookup k0 newDict); [reflexivity|].
      by destruct (isUndefined (prop e0 "submitter")). }
    rewrite Hstep. clear Hstep.
    destruct (obsolete newDict (k0, e0)); [|by apply IH].
    destruct (unregister_step k0 st Hnd) as (S1 & S2 & S3 & S4).
    destruct (IH (unregisterAssetSource k0 st) S1) as (I1 & I2 & I3).
    split; [exact I1|]. cbn [fmap list_fmap fst]. split.
    + intros k Hk.
      destruct (decide (k ∈ (List.filter (obsolete newDict) items).*1))
        as [Hin|Hnin]; [by apply I2|].
      apply elem_of_cons in Hk as [-> | Hk]; [|contradiction].
      destruct (I3 k0 Hnin) as (-> & -> & _). auto.
    + intros k Hk. apply not_elem_of_cons in Hk as [Hne Hk].
      destruct (I3 k Hk) as (-> & -> & ->). by apply S4.
Qed.

Lemma register_loop (now : Z) (newDict : list (string * Obj)) (st : State) :
  let st' :=
    fold_left
      (fun st '(assetKey, entry) =>
         withSource (registerAssetSource now assetKey entry) st)
      newDict st in
  assetCacheRegistry st' = assetCacheRegistry st
  /\ cacheStorage st' = cacheStorage st
  /\ (forall k, k ∈ newDict.*1 -> is_Some (Dict.lookup k (assetSourceRegistry st')))
  /\ (forall k, k ∉ newDict.*1 ->
        Dict.lookup k (assetSourceRegistry st')
        = Dict.lookup k (assetSourceRegistry st)).
Proof.
  cbv zeta. revert st.
  induction newDict as [|[k0 e0] newDict IH]; intros st.
  - cbn [fold_left fmap list_fmap]. split; [reflexivity|].
    split; [reflexivity|]. split; [|by auto].
    intros k Hk. by apply elem_of_nil in Hk.
  - cbn [fold_left fmap list_fmap fst].
    destruct (IH (withSource (registerAssetSource now k0 e0) st))
      as (I1 & I2 & I3 & I4).
    split; [exact I1|]. split; [exact I2|].
    assert (Hset : forall k,
               Dict.lookup k (assetSourceRegistry
                                (withSource (registerAssetSource now k0 e0) st))
               = if String.eqb k k0
                 then Dict.lookup k0 (assetSourceRegistry
                                        (withSource (registerAssetSource now k0 e0) st))
                 else Dict.lookup k (assetSourceRegistry st)).
    { intros k. cbn [assetSourceRegistry withSource].
      unfold registerAssetSource. cbv zeta. rewrite !Dict_lookup_set.
      rewrite String.eqb_refl. by destruct (String.eqb k k0). }
    assert (Hk0 : is_Some (Dict.lookup k0
                             (assetSourceRegistry
                                (withSource (registerAssetSource now k0 e0) st)))).
    { cbn [assetSourceRegistry withSource].
      unfold registerAssetSource. cbv zeta. rewrite Dict_lookup_set.
      rewrite String.eqb_refl. by eauto. }
    split.
    + intros k Hk.
      destruct (decide (k ∈ newDict.*1)) as [Hin|Hnin]; [by apply I3|].
      apply elem_of_cons in Hk as [-> | Hk]; [|contradiction].
      rewrite (I4 k0 Hnin). exact Hk0.
    + intros k Hk. apply not_elem_of_cons in Hk as [Hne Hk].
      rewrite (I4 k Hk), Hset.
      destruct (String.eqb_spec k k0); [contradiction | reflexivity].
Qed.

(** An update of the source registry from [assets.json].  When the JSON
    parses, every key of the new dictionary is registered afterwards; the
    old entries that the new dictionary does not list and that have no
    submitter are unregistered and lose their cache entry; the cache entry
    and the blob of every other key are as they were; and an old entry
    that is neither listed nor obsolete (it has a submitter) stays as it
    was. *)
Theorem updateAssetSourceRegistry_spec `{Host} (now : Z) (json : string)
    (st : State) (newDict : list (string * Obj)) :
  jsonParse json = Some newDict ->
  NoDup (assetSourceRegistry st).*1 ->
  let st' := updateAssetSourceRegistry now json st in
  let obsoleteKeys :=
    (List.filter (obsolete newDict) (assetSourceRegistry st)).*1 in
  (forall k, k ∈ newDict.*1 -> is_Some (Dict.lookup k (assetSourceRegistry st')))
  /\ (forall k, k ∈ obsoleteKeys ->
        Dict.lookup k (assetSourceRegistry st') = None
        /\ assetCacheRegistry st' !! k = None)
  /\ (forall k, k ∉ obsoleteKeys ->
        assetCacheRegistry st' !! k = assetCacheRegistry st !! k
        /\ cacheStorage st' !! internalKey k = cacheStorage st !! internalKey k)
  /\ (forall k, k ∉ obsoleteKeys -> k ∉ newDict.*1 ->
        Dict.lookup k (assetSourceRegistry st')
        = Dict.lookup k (assetSourceRegistry st)).
Proof.
  intros Hjson Hnd. cbv zeta. unfold updateAssetSourceRegistry. rewrite Hjson.
  cbv zeta.
  set (listed :=
         match Dict.lookup "assets.json" newDict with
         | Some entry =>
             Dict.set "assets.json"
               (setProp "defaultListset"
                  (VArr (List.filter
                           (fun a => strictEq (prop a.2 "content") (VStr "filters")
                                     && isUndefined (prop a.2 "off")) newDict).*1)
                  entry) newDict
         | None => newDict
         end).
  assert (Hkeys : listed.*1 = newDict.*1).
  { subst listed. destruct (Dict.lookup "assets.json" newDict) eqn:Hl; [|done].
    rewrite Dict_keys_set. rewrite bool_decide_eq_true_2; [done|].
    destruct (decide ("assets.json" ∈ newDict.*1)) as [|Hnin]; [done|].
    apply Dict_lookup_None in Hnin. congruence. }
  assert (Hobs : forall item, obsolete listed item = obsolete newDict item).
  { intros [k e]. unfold obsolete. cbn [fst snd].
    destruct (Dict.lookup k listed) as [x|] eqn:Hl.
    - destruct (Dict.lookup k newDict) as [y|] eqn:Hn; [done|].
      apply Dict_lookup_None_key in Hn. rewrite <- Hkeys in Hn.
      apply Dict_lookup_None in Hn. congruence.
    - destruct (Dict.lookup k newDict) as [y|] eqn:Hn; [|done].
      apply Dict_lookup_None_key in Hl. rewrite Hkeys in Hl.
      apply Dict_lookup_None in Hl. congruence. }
  assert (Hfilter : List.filter (obsolete listed) (assetSourceRegistry st)
                    = List.filter (obsolete newDict) (assetSourceRegistry st)).
  { apply filter_ext. exact Hobs. }
  destruct (unregister_loop listed (assetSourceRegistry st) st Hnd)
    as (_ & U2 & U3).
  rewrite Hfilter in U2, U3.
  match goal with
  | |- context [fold_left ?g listed ?s] =>
      destruct (register_loop now listed s) as (R1 & R2 & R3 & R4)
  end.
  rewrite Hkeys in R3, R4.
  split; [exact R3|]. split.
  { intros k Hk. destruct (U2 k Hk) as [Hs Hc]. rewrite R1. split; [|exact Hc].
    rewrite R4; [exact Hs|].
    apply list_elem_of_fmap in Hk as ([k' e] & -> & Hin).
    apply list_elem_of_In, filter_In in Hin as [_ Ho].
    unfold obsolete in Ho. cbn [fst snd] in *.
    destruct (Dict.lookup k' newDict) eqn:Hl; [discriminate|].
    by apply Dict_lookup_None_key. }
  split.
  { intros k Hk. destruct (U3 k Hk) as (_ & Hc & Hb). by rewrite R1, R2. }
  intros k Hk Hn. rewrite (R4 k Hn). by destruct (U3 k Hk) as (-> & _).
Qed.

(** the host of the examples when [assets.json] parses to two sources *)
Definition jsonHost : Host := {|
  dateParse := dateParse (Host := demoHost);
  getURL := getURL (Host := demoHost);
  urlPathname := urlPathname (Host := demoHost);
  splitter := splitter (Host := demoHost);
  xhr := xhr (Host := demoHost);
  jsonParse _ :=
    Some [("assets.json", setProp "content" (VStr "internal") ∅);
          ("newlist",
           setProp "contentURL" (VStr "https://h/new.txt")
             (setProp "content" (VStr "filters") ∅))];
  randomBelow := randomBelow (Host := demoHost);
  cantConnectTo := cantConnectTo (Host := demoHost);
  userFiltersPath := userFiltersPath (Host := demoHost);
  assetsJsonPath := assetsJsonPath (Host := demoHost);
  updateAssetBypassBrowserCache := updateAssetBypassBrowserCache (Host := demoHost);
  debugAssetsJson := debugAssetsJson (Host := demoHost);
  assetCacheRegistryStartTime := assetCacheRegistryStartTime (Host := demoHost)
|}.

Lemma updateAssetSourceRegistry_spec_witness :
  let st' := updateAssetSourceRegistry (H := jsonHost) demoNow "{}" demoState in
  is_Some (Dict.lookup "newlist" (assetSourceRegistry st'))
  /\ Dict.lookup "easylist" (assetSourceRegistry st') = None
  /\ assetCacheRegistry st' !! "easylist" = None
  /\ assetCacheRegistry st' !! "other" = assetCacheRegistry demoState !! "other".
Proof.
  destruct (updateAssetSourceRegistry_spec (H := jsonHost) demoNow "{}" demoState
              _ eq_refl) as (H1 & H2 & H3 & _).
  { cbn. apply NoDup_singleton. }
  cbv zeta. split.
  - apply H1. cbn. apply elem_of_cons. right. apply elem_of_cons. by left.
  - destruct (H2 "easylist") as [Hs Hc].
    { match goal with
      | |- _ ∈ ?l => let l' := eval vm_compute in l in change l with l'
      end.
      apply elem_of_cons. by left. }
    split; [exact Hs|]. split; [exact Hc|].
    apply H3.
    match goal with
    | |- _ ∉ ?l => let l' := eval vm_compute in l in change l with l'
    end.
    intros Hin. apply list_elem_of_singleton in Hin. discriminate.
Defined.

(** ** Resource time of an assembled list *)

Lemma asNum_orElse (v : Val) : (asNum (orElse v (VNum 0)) == asNum v)%Q.
Proof.
  unfold orElse. destruct (truthy v) eqn:Hv; [reflexivity|].
  destruct v as [| |q|s|b|l|t e|]; try reflexivity.
  cbn [truthy] in Hv. apply negb_false_iff in Hv. unfold Qeqb0 in Hv.
  apply Qeq_bool_iff in Hv. cbn [asNum]. by symmetry.
Qed.

(** [resourceTimeFromParts], called with a time that is not negative (the
    assembler starts from 0), returns the greatest of that time and the
    resource times of the fetched parts: the result is not below the time
    given nor below the resource time of any part, and it is either the
    time given or the [resourceTime] of one of the parts.  A part that is
    a string, or whose [resourceTime] is no number, counts for nothing. *)
Theorem resourceTimeFromParts_max (parts : list Result) (time : Q) :
  (0 <= time)%Q ->
  let latest := resourceTimeFromParts parts time in
  (time <= latest)%Q
  /\ Forall (fun part =>
               match part with
               | RObj o => forall t, prop o "resourceTime" = VNum t -> (t <= latest)%Q
               | RStr _ => True
               end) parts
  /\ (latest = time
      \/ exists o, RObj o ∈ parts /\ prop o "resourceTime" = VNum latest).
Proof.
  cbv zeta. unfold resourceTimeFromParts. revert time.
  induction parts as [|part parts IH]; intros time Htime.
  - cbn [fold_left]. split; [apply Qle_refl|]. split; [constructor | by left].
  - cbn [fold_left]. destruct part as [s|o].
    + destruct (IH time Htime) as (I1 & I2 & I3). split; [exact I1|].
      split; [by constructor|]. destruct I3 as [?|(o & Ho & ?)]; [by left|].
      right. exists o. split; [|done]. apply elem_of_cons. by right.
    + pose proof (asNum_orElse (prop o "resourceTime")) as Hn.
      destruct (Qltb time (asNum (orElse (prop o "resourceTime") (VNum 0))))
        eqn:Hlt.
      * apply Qltb_true in Hlt.
        assert (Hnum : exists t, prop o "resourceTime" = VNum t /\ (time < t)%Q).
        { destruct (prop o "resourceTime") as [| |q|s|b|l|t e|];
            cbn [asNum] in Hn; try lra.
          exists q. split; [reflexivity | lra]. }
        destruct Hnum as (t & Ht & Hlt'). rewrite Ht in *. cbn [asNum].
        destruct (IH t) as (I1 & I2 & I3); [lra|].
        split; [lra|]. split.
        { constructor; [|exact I2]. intros t' Ht'.
          assert (t' = t) as -> by congruence. exact I1. }
        right. destruct I3 as [->|(o' & Ho' & ?)].
        -- exists o. split; [|done]. apply elem_of_cons. by left.
        -- exists o'. split; [|done]. apply elem_of_cons. by right.
      * apply Qltb_false in Hlt. destruct (IH time Htime) as (I1 & I2 & I3).
        split; [exact I1|]. split.
        { constructor; [|exact I2]. intros t Ht. rewrite Ht in Hn, Hlt.
          cbn [asNum] in Hn. lra. }
        destruct I3 as [?|(o' & Ho' & ?)]; [by left|].
        right. exists o'. split; [|done]. apply elem_of_cons. by right.
Qed.

Lemma resourceTimeFromParts_max_witness :
  let parts :=
    [ RObj (setProp "resourceTime" (VNum 5) ∅); RStr "||a^";
      RObj (setProp "resourceTime" (VNum 9) ∅); RObj ∅ ] in
  (3 <= resourceTimeFromParts parts 3)%Q
  /\ (9 <= resourceTimeFromParts parts 3)%Q.
Proof.
  destruct (resourceTimeFromParts_max
              [ RObj (setProp "resourceTime" (VNum 5) ∅); RStr "||a^";
                RObj (setProp "resourceTime" (VNum 9) ∅); RObj ∅ ] 3)
    as (H1 & H2 & _).
  - unfold Qle. cbn. lia.
  - cbv zeta. split; [exact H1|].
    apply Forall_cons in H2 as [_ H2]. apply Forall_cons in H2 as [_ H2].
    apply Forall_cons in H2 as [H2 _]. apply H2. reflexivity.
Defined.
